(** * Chat-app backend: conversations, groups and friend requests

    Shallow embedding of [convex/conversations.ts] and [convex/requests.ts]
    (the Convex query and mutation handlers of the chat application) and the
    properties stated about them.

    The managed document store is modelled as a record of tables; every table
    is the list of its rows in insertion order, which is the order in which an
    index scan ([withIndex(..).collect()]) yields rows that agree on the
    indexed fields.  Handlers that write are written in a state-and-exception
    monad; handlers that only read are functions of the context. *)

From Stdlib Require Import List Bool Arith ZArith NArith String Lia.
From Stdlib Require Import Sorting.Sorted Sorting.Permutation.
Import ListNotations.



(** ** Values *)

(** Document ids.  The platform hands out ids that are unique over the whole
    deployment; the store keeps the next unused one in [nextId]. *)
Definition Id := nat.

(** User-supplied text (user names, e-mail addresses) is a sequence of
    Unicode code points; the regular expressions of [createByUsername] carry
    the [u] flag and therefore work on code points as well. *)
Definition ustring := list N.

Definition ustring_eqb (a b : ustring) : bool :=
  if list_eq_dec N.eq_dec a b then true else false.

(** ** Tables *)

Record User := mkUser {
  user_id : Id;
  user_clerkId : string;
  user_username : ustring;
  user_email : ustring;
  user_imageUrl : string
}.

Record Conversation := mkConversation {
  conv_id : Id;
  conv_isGroup : bool;
  conv_name : option string;
  conv_imageUrl : option string;
  conv_creatorId : option Id;
  conv_lastMessageId : option Id
}.

Record ConversationMember := mkMember {
  cm_id : Id;
  cm_memberId : Id;
  cm_conversationId : Id
}.

Record Message := mkMessage {
  msg_id : Id;
  msg_creationTime : Z;
  msg_senderId : Id;
  msg_conversationId : Id;
  msg_type : string;
  msg_content : string
}.

Record Request := mkRequest {
  req_id : Id;
  req_senderId : Id;
  req_receiverId : Id;
  req_status : string
}.

Record Friendship := mkFriendship {
  fr_id : Id;
  fr_userId1 : Id;
  fr_userId2 : Id;
  fr_status : string
}.

Record Db := mkDb {
  users : list User;
  conversations : list Conversation;
  conversationMembers : list ConversationMember;
  messages : list Message;
  requests : list Request;
  friendships : list Friendship;
  nextId : Id
}.

(** The authenticated identity handed over by the auth provider. *)
Record Identity := mkIdentity {
  subject : string;
  identity_email : option ustring
}.

(** ** Errors and the handler monad *)

(** [throw new Error(msg)] and [throw new ConvexError(msg)]. *)
Inductive Exn :=
| Error (msg : string)
| ConvexError (msg : string).

Inductive Result (A : Type) :=
| Ok (a : A)
| Throw (e : Exn).
Arguments Ok {A} a.
Arguments Throw {A} e.

Definition isThrow {A} (r : Result A) : bool :=
  match r with Ok _ => false | Throw _ => true end.

(** A mutation step: the store is threaded through, and it is kept when the
    step throws, so that writes made before a [throw] stay visible to a
    [catch] handler as they do at run time. *)
Definition M (A : Type) := Db -> Db * Result A.

Definition ret {A} (a : A) : M A := fun db => (db, Ok a).
Definition throw {A} (e : Exn) : M A := fun db => (db, Throw e).

Definition bind {A B} (m : M A) (k : A -> M B) : M B :=
  fun db =>
    match m db with
    | (db', Ok a) => k a db'
    | (db', Throw e) => (db', Throw e)
    end.

Definition try_catch {A} (m : M A) (handler : Exn -> M A) : M A :=
  fun db =>
    match m db with
    | (db', Ok a) => (db', Ok a)
    | (db', Throw e) => handler e db'
    end.

Declare Scope handler_scope.
Delimit Scope handler_scope with handler.
Notation "x <- m ;; k" := (bind m (fun x => k))
  (at level 61, m at next level, right associativity) : handler_scope.
Notation "m ;;; k" := (bind m (fun _ => k))
  (at level 61, right associativity) : handler_scope.
Open Scope handler_scope.

(** Reading the store inside a mutation. *)
Definition gets {A} (f : Db -> A) : M A := fun db => (db, Ok (f db)).

(** [for (const x of xs) { await body(x) }] *)
Fixpoint for_of {A} (xs : list A) (body : A -> M unit) : M unit :=
  match xs with
  | [] => ret tt
  | x :: rest => body x ;;; for_of rest body
  end.

(** A Convex mutation is one transaction: when the handler throws, none of
    its writes is committed. *)
Definition mutation {A} (handler : M A) (db : Db) : Db * Result A :=
  match handler db with
  | (db', Ok a) => (db', Ok a)
  | (_, Throw e) => (db, Throw e)
  end.

(** ** The document store API *)

(** [ctx.db.get(id)] per table: the row with that id, or [null]. *)
Definition get_user (db : Db) (id : Id) : option User :=
  find (fun u => user_id u =? id) (users db).
Definition get_conversation (db : Db) (id : Id) : option Conversation :=
  find (fun c => conv_id c =? id) (conversations db).
Definition get_message (db : Db) (id : Id) : option Message :=
  find (fun m => msg_id m =? id) (messages db).
Definition get_request (db : Db) (id : Id) : option Request :=
  find (fun r => req_id r =? id) (requests db).

(** An argument declared [v.string()] that a handler casts to a document
    id: the text of a document id, of whatever table, or a text that is no
    id at all. *)
Inductive IdString :=
| IdOf (id : Id)
| NoId (text : string).

(** What [ctx.db.get] finds when the table of the id is not known from its
    type: a user, or a document of another table. *)
Inductive Doc :=
| UserDoc (u : User)
| OtherDoc (id : Id).

Definition doc_id (d : Doc) : Id :=
  match d with
  | UserDoc u => user_id u
  | OtherDoc id => id
  end.

(** Whether a table other than [users] holds a document with this id. *)
Definition elsewhere (db : Db) (id : Id) : bool :=
  existsb (fun c => conv_id c =? id) (conversations db)
  || existsb (fun m => cm_id m =? id) (conversationMembers db)
  || existsb (fun m => msg_id m =? id) (messages db)
  || existsb (fun r => req_id r =? id) (requests db)
  || existsb (fun f => fr_id f =? id) (friendships db).

(** [ctx.db.get(text as Id<"users">)]: the cast is erased when the code
    runs, so the document is fetched from whatever table the id belongs to;
    a text that is no id makes the call throw. *)
Definition db_get (memberId : IdString) : M (option Doc) :=
  fun db =>
    match memberId with
    | NoId _ => (db, Throw (Error "Invalid argument id for db.get"))
    | IdOf id =>
        match get_user db id with
        | Some u => (db, Ok (Some (UserDoc u)))
        | None => (db, Ok (if elsewhere db id then Some (OtherDoc id) else None))
        end
    end.

(** Index scans. *)
Definition members_by_memberId (db : Db) (memberId : Id) : list ConversationMember :=
  filter (fun m => cm_memberId m =? memberId) (conversationMembers db).
Definition members_by_conversationId (db : Db) (conversationId : Id) : list ConversationMember :=
  filter (fun m => cm_conversationId m =? conversationId) (conversationMembers db).
Definition members_by_memberId_conversationId (db : Db) (memberId conversationId : Id)
  : list ConversationMember :=
  filter (fun m => (cm_memberId m =? memberId) && (cm_conversationId m =? conversationId))
         (conversationMembers db).
Definition messages_by_conversationId (db : Db) (conversationId : Id) : list Message :=
  filter (fun m => msg_conversationId m =? conversationId) (messages db).
Definition requests_by_senderId_receiverId (db : Db) (senderId receiverId : Id) : list Request :=
  filter (fun r => (req_senderId r =? senderId) && (req_receiverId r =? receiverId))
         (requests db).
Definition requests_by_receiverId_status (db : Db) (receiverId : Id) (status : string)
  : list Request :=
  filter (fun r => (req_receiverId r =? receiverId) && String.eqb (req_status r) status)
         (requests db).
Definition friendships_by_userIds (db : Db) (userId1 userId2 : Id) : list Friendship :=
  filter (fun f => (fr_userId1 f =? userId1) && (fr_userId2 f =? userId2))
         (friendships db).
Definition users_by_email (db : Db) (email : ustring) : list User :=
  filter (fun u => ustring_eqb (user_email u) email) (users db).

(** [.unique()]: [null] when nothing matches, the row when exactly one
    matches, and an error when several do. *)
Definition unique {A} (rows : list A) : M (option A) :=
  match rows with
  | [] => ret None
  | [x] => ret (Some x)
  | _ :: _ :: _ => throw (Error "unique() query returned more than one result")
  end.

(** [ctx.db.insert(table, fields)]: the row gets the next unused id, which is
    returned. *)
Definition insert_conversation (isGroup : bool) (name imageUrl : option string)
  (creatorId lastMessageId : option Id) : M Id :=
  fun db =>
    let id := nextId db in
    (mkDb (users db)
          (conversations db ++ [mkConversation id isGroup name imageUrl creatorId lastMessageId])
          (conversationMembers db) (messages db) (requests db) (friendships db) (S id),
     Ok id).

Definition insert_member (conversationId memberId : Id) : M Id :=
  fun db =>
    let id := nextId db in
    (mkDb (users db) (conversations db)
          (conversationMembers db ++ [mkMember id memberId conversationId])
          (messages db) (requests db) (friendships db) (S id),
     Ok id).

(** Modelled from the spec: the schema of the tables ([convex/schema.ts]) is
    not part of the sources at hand.  A membership record joins a
    conversation and a member, who is a user (the argument validator of
    [createGroup] and the casts of the handlers say [Id<"users">]); the
    store refuses a membership row whose [memberId] is the id of a document
    of another table. *)
Definition insert_member_of (conversationId : Id) (member : Doc) : M Id :=
  match member with
  | UserDoc u => insert_member conversationId (user_id u)
  | OtherDoc _ => throw (Error "Failed to insert: memberId is not an id of table users")
  end.

Definition insert_request (senderId receiverId : Id) (status : string) : M Id :=
  fun db =>
    let id := nextId db in
    (mkDb (users db) (conversations db) (conversationMembers db) (messages db)
          (requests db ++ [mkRequest id senderId receiverId status])
          (friendships db) (S id),
     Ok id).

Definition insert_friendship (userId1 userId2 : Id) (status : string) : M Id :=
  fun db =>
    let id := nextId db in
    (mkDb (users db) (conversations db) (conversationMembers db) (messages db)
          (requests db)
          (friendships db ++ [mkFriendship id userId1 userId2 status]) (S id),
     Ok id).

(** [ctx.db.patch(id, fields)]: the fields of the row are replaced; patching
    a row that does not exist is an error. *)
Definition patch_conversation (id : Id) (f : Conversation -> Conversation) : M unit :=
  fun db =>
    match get_conversation db id with
    | None => (db, Throw (Error "Update on nonexistent document"))
    | Some _ =>
        (mkDb (users db)
              (map (fun c => if conv_id c =? id then f c else c) (conversations db))
              (conversationMembers db) (messages db) (requests db) (friendships db)
              (nextId db),
         Ok tt)
    end.

Definition set_name (name : string) (c : Conversation) : Conversation :=
  mkConversation (conv_id c) (conv_isGroup c) (Some name) (conv_imageUrl c)
                 (conv_creatorId c) (conv_lastMessageId c).
Definition set_imageUrl (imageUrl : string) (c : Conversation) : Conversation :=
  mkConversation (conv_id c) (conv_isGroup c) (conv_name c) (Some imageUrl)
                 (conv_creatorId c) (conv_lastMessageId c).
Definition set_creatorId (creatorId : Id) (c : Conversation) : Conversation :=
  mkConversation (conv_id c) (conv_isGroup c) (conv_name c) (conv_imageUrl c)
                 (Some creatorId) (conv_lastMessageId c).

(** [ctx.db.delete(id)]: the row is removed; deleting a row that does not
    exist is an error. *)
Definition delete_member (id : Id) : M unit :=
  fun db =>
    if existsb (fun m => cm_id m =? id) (conversationMembers db) then
      (mkDb (users db) (conversations db)
            (filter (fun m => negb (cm_id m =? id)) (conversationMembers db))
            (messages db) (requests db) (friendships db) (nextId db),
       Ok tt)
    else (db, Throw (Error "Delete on nonexistent document")).

Definition delete_message (id : Id) : M unit :=
  fun db =>
    if existsb (fun m => msg_id m =? id) (messages db) then
      (mkDb (users db) (conversations db) (conversationMembers db)
            (filter (fun m => negb (msg_id m =? id)) (messages db))
            (requests db) (friendships db) (nextId db),
       Ok tt)
    else (db, Throw (Error "Delete on nonexistent document")).

Definition delete_conversation (id : Id) : M unit :=
  fun db =>
    if existsb (fun c => conv_id c =? id) (conversations db) then
      (mkDb (users db)
            (filter (fun c => negb (conv_id c =? id)) (conversations db))
            (conversationMembers db) (messages db) (requests db) (friendships db)
            (nextId db),
       Ok tt)
    else (db, Throw (Error "Delete on nonexistent document")).

Definition delete_request (id : Id) : M unit :=
  fun db =>
    if existsb (fun r => req_id r =? id) (requests db) then
      (mkDb (users db) (conversations db) (conversationMembers db) (messages db)
            (filter (fun r => negb (req_id r =? id)) (requests db))
            (friendships db) (nextId db),
       Ok tt)
    else (db, Throw (Error "Delete on nonexistent document")).

(** Modelled from the spec: [getUserByClerkId] of [convex/_utils.ts] is not
    part of the sources at hand.  Given the external subject of the caller it
    fetches the matching internal user record, and yields [null] when no
    record matches. *)
Definition getUserByClerkId (db : Db) (clerkId : string) : option User :=
  find (fun u => String.eqb (user_clerkId u) clerkId) (users db).

(** ** Text operations of the JavaScript run time *)

Open Scope N_scope.

(** [String.prototype.toLowerCase], code point by code point.  The mapping is
    written out for the Basic Latin capitals and for the two code points
    outside Basic Latin whose lower case contains a Basic Latin letter
    (KELVIN SIGN and LATIN CAPITAL LETTER I WITH DOT ABOVE); any other code
    point is kept.  The lower case of any other cased letter lies outside
    Basic Latin, and every string a lowered user name is compared with below
    is made of Basic Latin characters followed by at most one emoji, so the
    comparisons are not affected. *)
Definition lower_cp (c : N) : list N :=
  if (65 <=? c) && (c <=? 90) then [c + 32]
  else if c =? 0x212A then [107]
  else if c =? 0x130 then [105; 0x307]
  else [c].

Definition toLowerCase (s : ustring) : ustring := flat_map lower_cp s.

(** White space and line terminators removed by [String.prototype.trim]. *)
Definition isWhiteSpace (c : N) : bool :=
  ((9 <=? c) && (c <=? 13)) || (c =? 32) || (c =? 0xA0) || (c =? 0x1680)
  || ((0x2000 <=? c) && (c <=? 0x200A)) || (c =? 0x2028) || (c =? 0x2029)
  || (c =? 0x202F) || (c =? 0x205F) || (c =? 0x3000) || (c =? 0xFEFF).

Fixpoint trimStart (s : ustring) : ustring :=
  match s with
  | [] => []
  | c :: rest => if isWhiteSpace c then trimStart rest else s
  end.

Definition trimEnd (s : ustring) : ustring := rev (trimStart (rev s)).

Definition trim (s : ustring) : ustring := trimEnd (trimStart s).

(** A string is falsy exactly when it is empty. *)
Definition isEmpty (s : ustring) : bool :=
  match s with [] => true | _ :: _ => false end.

(** [/^[a-zA-Z0-9_.-]+$/.test(s)] *)
Definition isUsernameChar (c : N) : bool :=
  ((97 <=? c) && (c <=? 122)) || ((65 <=? c) && (c <=? 90))
  || ((48 <=? c) && (c <=? 57)) || (c =? 95) || (c =? 46) || (c =? 45).

Definition usernameRegex_test (s : ustring) : bool :=
  negb (isEmpty s) && forallb isUsernameChar s.

(** The emoji literals of [createByUsername]: a shield followed by the
    variation selector U+FE0F, a bare shield, and a crown. *)
Definition SHIELD : N := 0x1F6E1.
Definition VS16 : N := 0xFE0F.
Definition CROWN : N := 0x1F451.
Definition shield_vs : ustring := [SHIELD; VS16].
Definition shield : ustring := [SHIELD].
Definition crown : ustring := [CROWN].

(** [text.replace(/<shield><U+FE0F>/gu, '')]: every occurrence of the two
    code point sequence is dropped, scanning from the left. *)
Fixpoint remove_shield_vs (s : ustring) : ustring :=
  match s with
  | [] => []
  | a :: rest =>
      match rest with
      | b :: rest' =>
          if (a =? SHIELD) && (b =? VS16) then remove_shield_vs rest'
          else a :: remove_shield_vs rest
      | [] => [a]
      end
  end.

(** [text.replace(/c/gu, '')] for a single code point [c]. *)
Definition remove_cp (c : N) (s : ustring) : ustring :=
  filter (fun x => negb (x =? c)) s.

(** The character classes of the last [replace] of [getCleanUsername]. *)
Definition isEmojiRange (c : N) : bool :=
  ((0x1F600 <=? c) && (c <=? 0x1F6FF)) || ((0x2600 <=? c) && (c <=? 0x26FF))
  || ((0x2700 <=? c) && (c <=? 0x27BF)) || ((0x1F900 <=? c) && (c <=? 0x1F9FF))
  || ((0x1F300 <=? c) && (c <=? 0x1F5FF)) || ((0x1F680 <=? c) && (c <=? 0x1F6FF))
  || ((0x1F1E0 <=? c) && (c <=? 0x1F1FF)).

Definition getCleanUsername (text : ustring) : ustring :=
  let result := text in
  let result := remove_shield_vs result in
  let result := remove_cp SHIELD result in
  let result := remove_cp CROWN result in
  let result := filter (fun c => negb (isEmojiRange c)) result in
  toLowerCase (trim result).

(** The predicate handed to [allUsers.find] in [createByUsername]. *)
Definition matchesUsername (normalizedInputUsername : ustring) (user : User) : bool :=
  if ustring_eqb (toLowerCase (user_username user)) normalizedInputUsername then true
  else if ustring_eqb (toLowerCase (user_username user)) (normalizedInputUsername ++ shield_vs)
          || ustring_eqb (toLowerCase (user_username user)) (normalizedInputUsername ++ shield)
          || ustring_eqb (toLowerCase (user_username user)) (normalizedInputUsername ++ crown)
       then true
  else
    let cleanUsername := getCleanUsername (user_username user) in
    ustring_eqb cleanUsername normalizedInputUsername.

Close Scope N_scope.

(** [Array.prototype.sort(compare)].  The sort is stable, and for a
    consistent comparator its result is fixed by the comparator; it is
    written here as a stable insertion sort: an element goes in front of the
    sorted remainder of the array unless the comparator puts a later element
    strictly before it. *)
Fixpoint sort_insert {A} (compare : A -> A -> Z) (x : A) (sorted : list A) : list A :=
  match sorted with
  | [] => [x]
  | y :: rest =>
      if (compare x y <=? 0)%Z then x :: sorted
      else y :: sort_insert compare x rest
  end.

Fixpoint array_sort {A} (compare : A -> A -> Z) (xs : list A) : list A :=
  match xs with
  | [] => []
  | x :: rest => sort_insert compare x (array_sort compare rest)
  end.

(** [xs.filter(x => x !== null)] *)
Fixpoint non_null {A} (xs : list (option A)) : list A :=
  match xs with
  | [] => []
  | Some x :: rest => x :: non_null rest
  | None :: rest => non_null rest
  end.

(** ** Handlers *)

Open Scope string_scope.
Open Scope list_scope.
Open Scope nat_scope.

(** The context of a query: the caller's identity, if any, and the store. *)
Record QueryCtx := mkQueryCtx {
  auth : option Identity;
  db : Db
}.

(** [{ success: true }] and [{ success: true, addedCount }]. *)
Record Success := mkSuccess { success : bool }.
Record Added := mkAdded { added_success : bool; addedCount : nat }.

(** The two guards every handler of [conversations.ts] opens with; [unauth]
    is the error thrown when there is no identity. *)
Definition currentUserOrThrow (auth : option Identity) (unauth : Exn) : M User :=
  match auth with
  | None => throw unauth
  | Some identity =>
      currentUser <- gets (fun db => getUserByClerkId db (subject identity)) ;;
      match currentUser with
      | None => throw (ConvexError "User not found")
      | Some currentUser => ret currentUser
      end
  end.

(** [conversation.creatorId?.toString() === user._id.toString()] *)
Definition creatorIs (conversation : Conversation) (userId : Id) : bool :=
  match conv_creatorId conversation with
  | Some creatorId => creatorId =? userId
  | None => false
  end.

(** The guards shared by the creator-only group mutations: the conversation
    exists, is a group, and its stored creator is the caller; [denied] is the
    message of the last guard. *)
Definition groupOfCreator (conversationId : Id) (currentUser : User) (denied : string)
  : M Conversation :=
  conversation <- gets (fun db => get_conversation db conversationId) ;;
  match conversation with
  | None => throw (ConvexError "Conversation not found")
  | Some conversation =>
      if negb (conv_isGroup conversation) then
        throw (ConvexError "This is not a group conversation")
      else if negb (creatorIs conversation (user_id currentUser)) then
        throw (ConvexError denied)
      else ret conversation
  end.

Module Conversations.

Record ConversationWithTimestamp := mkWithTimestamp {
  doc : Conversation;
  lastMessageTimestamp : Z
}.

Record LastMessage := mkLastMessage {
  content : string;
  sender : ustring
}.

Record ConversationDetails := mkDetails {
  conversation : ConversationWithTimestamp;
  otherMember : option User;
  lastMessage : option LastMessage;
  groupMembers : option (list ustring)
}.

Definition getMessageContent (type content : string) : string :=
  if String.eqb type "text" then content
  else if String.eqb type "image" then "has sent an image."
  else "has sent a document.".

Definition getLastMessageDetails (db : Db) (id : option Id) : option LastMessage :=
  match id with
  | None => None
  | Some id =>
      match get_message db id with
      | None => None
      | Some messages =>
          match get_user db (msg_senderId messages) with
          | None => None
          | Some sender =>
              let content := getMessageContent (msg_type messages) (msg_content messages) in
              Some (mkLastMessage content (user_username sender))
          end
      end
  end.

(** First [map] of [get]: the conversation of a membership together with
    the creation time of its last message, 0 when it has none. *)
Definition withTimestamp (db : Db) (membership : ConversationMember)
  : option ConversationWithTimestamp :=
  match get_conversation db (cm_conversationId membership) with
  | None => None
  | Some conversation =>
      let lastMessageTimestamp :=
        match conv_lastMessageId conversation with
        | Some lastMessageId =>
            match get_message db lastMessageId with
            | Some lastMessage => msg_creationTime lastMessage
            | None => 0%Z
            end
        | None => 0%Z
        end in
      Some (mkWithTimestamp conversation lastMessageTimestamp)
  end.

(** Second [map] of [get]: the details of one conversation, [null] for a
    direct conversation whose other member cannot be found. *)
Definition withDetails (db : Db) (currentUser : User)
  (conversation : ConversationWithTimestamp) : option ConversationDetails :=
  let allconversationMemberships :=
    members_by_conversationId db (conv_id (doc conversation)) in
  let lastMessage :=
    getLastMessageDetails db (conv_lastMessageId (doc conversation)) in
  if conv_isGroup (doc conversation) then
    let memberUsernames :=
      map (fun membership =>
             match get_user db (cm_memberId membership) with
             | Some member =>
                 if isEmpty (user_username member) then None
                 else Some (user_username member)
             | None => None
             end) allconversationMemberships in
    let groupMembers := non_null memberUsernames in
    Some (mkDetails conversation None lastMessage (Some groupMembers))
  else
    let otherMemberships :=
      filter (fun membership => negb (cm_memberId membership =? user_id currentUser))
             allconversationMemberships in
    match otherMemberships with
    | [] => None
    | otherMembership :: _ =>
        match get_user db (cm_memberId otherMembership) with
        | None => None
        | Some otherMember =>
            Some (mkDetails conversation (Some otherMember) lastMessage None)
        end
    end.

(** The conversations of the caller before they are sorted, in the order
    of the caller's membership rows. *)
Definition filteredConversations (db : Db) (currentUser : User)
  : list ConversationWithTimestamp :=
  let conversationMemberships := members_by_memberId db (user_id currentUser) in
  non_null (map (withTimestamp db) conversationMemberships).

Definition byLastMessageDesc (a b : ConversationWithTimestamp) : Z :=
  (lastMessageTimestamp b - lastMessageTimestamp a)%Z.

(** The body of the outer [try] of [get]. *)
Definition get_body (ctx : QueryCtx) : Result (list ConversationDetails) :=
  match auth ctx with
  | None => Throw (Error "Unauthorized")
  | Some identity =>
      match getUserByClerkId (db ctx) (subject identity) with
      | None => Throw (ConvexError "User not found")
      | Some currentUser =>
          let sorted :=
            array_sort byLastMessageDesc (filteredConversations (db ctx) currentUser) in
          let conversationsWithDetails := map (withDetails (db ctx) currentUser) sorted in
          Ok (non_null conversationsWithDetails)
      end
  end.

Definition get (ctx : QueryCtx) : Result (list ConversationDetails) :=
  match get_body ctx with
  | Ok result => Ok result
  | Throw _ => Ok []
  end.

Definition createGroup (auth : option Identity) (name : string) (memberIds : list Id)
  : M Id :=
  try_catch
    (currentUser <- currentUserOrThrow auth (Error "Unauthorized") ;;
     conversationId <-
       insert_conversation true (Some name) None (Some (user_id currentUser)) None ;;
     insert_member conversationId (user_id currentUser) ;;;
     for_of memberIds (fun memberId =>
       insert_member conversationId memberId ;;; ret tt) ;;;
     ret conversationId)
    (fun _ => throw (ConvexError "Failed to create group")).

Definition deleteGroupHandler (conversationId : Id) : M Success :=
  members <- gets (fun db => members_by_conversationId db conversationId) ;;
  for_of members (fun member => delete_member (cm_id member)) ;;;
  messages <- gets (fun db => messages_by_conversationId db conversationId) ;;
  for_of messages (fun message => delete_message (msg_id message)) ;;;
  delete_conversation conversationId ;;;
  ret (mkSuccess true).

Definition leaveGroup (auth : option Identity) (conversationId : Id) : M Success :=
  try_catch
    (currentUser <- currentUserOrThrow auth (Error "Unauthorized") ;;
     conversation <- gets (fun db => get_conversation db conversationId) ;;
     match conversation with
     | None => throw (ConvexError "Conversation not found")
     | Some conversation =>
       if negb (conv_isGroup conversation) then
         throw (ConvexError "This is not a group conversation")
       else
         membership <-
           (rows <- gets (fun db =>
              members_by_memberId_conversationId db (user_id currentUser) conversationId) ;;
            unique rows) ;;
         match membership with
         | None => throw (ConvexError "You are not a member of this group")
         | Some membership =>
           let isCreator := creatorIs conversation (user_id currentUser) in
           if isCreator then
             otherMembers <- gets (fun db =>
               filter (fun m => negb (cm_memberId m =? user_id currentUser))
                      (members_by_conversationId db conversationId)) ;;
             match otherMembers with
             | [] =>
                 deleteGroupHandler conversationId ;;;
                 ret (mkSuccess true)
             | first :: _ =>
                 let newOwnerId := cm_memberId first in
                 conversation <- gets (fun db => get_conversation db conversationId) ;;
                 match conversation with
                 | Some _ => patch_conversation conversationId (set_creatorId newOwnerId)
                 | None => ret tt
                 end ;;;
                 delete_member (cm_id membership) ;;;
                 ret (mkSuccess true)
             end
           else
             delete_member (cm_id membership) ;;;
             ret (mkSuccess true)
         end
     end)
    (fun _ => throw (ConvexError "Failed to leave group")).

Definition deleteGroup (auth : option Identity) (conversationId : Id) : M Success :=
  try_catch
    (currentUser <- currentUserOrThrow auth (Error "Unauthorized") ;;
     groupOfCreator conversationId currentUser
       "Only the group creator can delete the group" ;;;
     deleteGroupHandler conversationId)
    (fun _ => throw (ConvexError "Failed to delete group")).

Definition isGroupCreator (ctx : QueryCtx) (conversationId : Id) : Result bool :=
  match auth ctx with
  | None => Ok false
  | Some identity =>
      match getUserByClerkId (db ctx) (subject identity) with
      | None => Ok false
      | Some currentUser =>
          match get_conversation (db ctx) conversationId with
          | None => Ok false
          | Some conversation =>
              if negb (conv_isGroup conversation) then Ok false
              else Ok (creatorIs conversation (user_id currentUser))
          end
      end
  end.

Definition createGroupChat (auth : option Identity) (name : string)
  (memberIds : list IdString) (imageUrl : option string) : M Id :=
  currentUser <- currentUserOrThrow auth (ConvexError "Unauthorized") ;;
  conversationId <-
    insert_conversation true (Some name) imageUrl (Some (user_id currentUser)) None ;;
  insert_member conversationId (user_id currentUser) ;;;
  for_of memberIds (fun memberId =>
    member <- db_get memberId ;;
    match member with
    | Some member => insert_member_of conversationId member ;;; ret tt
    | None => ret tt
    end) ;;;
  ret conversationId.

Definition updateGroupName (auth : option Identity) (conversationId : Id) (name : string)
  : M Success :=
  try_catch
    (currentUser <- currentUserOrThrow auth (Error "Unauthorized") ;;
     groupOfCreator conversationId currentUser
       "Only the group creator can update the group name" ;;;
     patch_conversation conversationId (set_name name) ;;;
     ret (mkSuccess true))
    (fun _ => throw (ConvexError "Failed to update group name")).

Definition updateGroupImage (auth : option Identity) (conversationId : Id)
  (imageUrl : string) : M Success :=
  try_catch
    (currentUser <- currentUserOrThrow auth (Error "Unauthorized") ;;
     groupOfCreator conversationId currentUser
       "Only the group creator can update the group image" ;;;
     patch_conversation conversationId (set_imageUrl imageUrl) ;;;
     ret (mkSuccess true))
    (fun _ => throw (ConvexError "Failed to update group image")).

(** The loop of [addGroupMembers]; [addedCount] is threaded through. *)
Fixpoint addEach (conversationId : Id) (existingMemberIds : list Id)
  (memberIds : list IdString) (addedCount : nat) : M nat :=
  match memberIds with
  | [] => ret addedCount
  | memberId :: rest =>
      member <- db_get memberId ;;
      match member with
      | Some member =>
          if negb (existsb (Nat.eqb (doc_id member)) existingMemberIds) then
            insert_member_of conversationId member ;;;
            addEach conversationId existingMemberIds rest (S addedCount)
          else addEach conversationId existingMemberIds rest addedCount
      | None => addEach conversationId existingMemberIds rest addedCount
      end
  end.

Definition addGroupMembers (auth : option Identity) (conversationId : Id)
  (memberIds : list IdString) : M Added :=
  try_catch
    (currentUser <- currentUserOrThrow auth (Error "Unauthorized") ;;
     groupOfCreator conversationId currentUser
       "Only the group creator can add members to the group" ;;;
     existingMembers <- gets (fun db => members_by_conversationId db conversationId) ;;
     let existingMemberIds := map cm_memberId existingMembers in
     addedCount <- addEach conversationId existingMemberIds memberIds 0 ;;
     ret (mkAdded true addedCount))
    (fun _ => throw (ConvexError "Failed to add members to group")).

Definition removeGroupMember (auth : option Identity) (conversationId memberId : Id)
  : M Success :=
  try_catch
    (currentUser <- currentUserOrThrow auth (Error "Unauthorized") ;;
     conversation <- groupOfCreator conversationId currentUser
       "Only the group creator can remove members from the group" ;;
     memberToRemove <- gets (fun db => get_user db memberId) ;;
     match memberToRemove with
     | None => throw (ConvexError "Member not found")
     | Some memberToRemove =>
         if creatorIs conversation (user_id memberToRemove) then
           throw (ConvexError "Cannot remove the group creator")
         else
           membership <-
             (rows <- gets (fun db =>
                members_by_memberId_conversationId db (user_id memberToRemove)
                  conversationId) ;;
              unique rows) ;;
           match membership with
           | None => throw (ConvexError "This user is not a member of the group")
           | Some membership =>
               delete_member (cm_id membership) ;;;
               ret (mkSuccess true)
           end
     end)
    (fun _ => throw (ConvexError "Failed to remove member from group")).

End Conversations.

Module Requests.

Record RequestWithSender := mkWithSender {
  request : Request;
  sender : option User
}.

Definition getAll (ctx : QueryCtx) : Result (list RequestWithSender) :=
  match auth ctx with
  | None => Throw (Error "Unauthorized")
  | Some identity =>
      match getUserByClerkId (db ctx) (subject identity) with
      | None => Throw (ConvexError "User not found")
      | Some currentUser =>
          let requests :=
            requests_by_receiverId_status (db ctx) (user_id currentUser) "pending" in
          Ok (map (fun request =>
                     mkWithSender request (get_user (db ctx) (req_senderId request)))
                  requests)
      end
  end.

(** What [create] and [createByUsername] both do once the receiver is
    known: the two pending-request guards, the friendship guard, and the
    insertion of the request. *)
Definition sendRequest (currentUser receiver : User) : M Id :=
  requestAlreadySent <-
    (rows <- gets (fun db =>
       requests_by_senderId_receiverId db (user_id currentUser) (user_id receiver)) ;;
     unique rows) ;;
  match requestAlreadySent with
  | Some _ => throw (ConvexError "Request already sent")
  | None =>
    requestAlreadyReceived <-
      (rows <- gets (fun db =>
         requests_by_senderId_receiverId db (user_id receiver) (user_id currentUser)) ;;
       unique rows) ;;
    match requestAlreadyReceived with
    | Some _ => throw (ConvexError "This user has already sent you a request")
    | None =>
      existingFriendship1 <-
        (rows <- gets (fun db =>
           friendships_by_userIds db (user_id currentUser) (user_id receiver)) ;;
         unique rows) ;;
      existingFriendship2 <-
        (rows <- gets (fun db =>
           friendships_by_userIds db (user_id receiver) (user_id currentUser)) ;;
         unique rows) ;;
      match existingFriendship1, existingFriendship2 with
      | None, None =>
          insert_request (user_id currentUser) (user_id receiver) "pending"
      | _, _ => throw (ConvexError "You are already friends with this user")
      end
    end
  end.

(** [args.email === identity.email], where the identity may carry no
    e-mail address. *)
Definition isOwnEmail (email : ustring) (identity : Identity) : bool :=
  match identity_email identity with
  | Some own => ustring_eqb email own
  | None => false
  end.

Definition create (auth : option Identity) (email : ustring) : M Id :=
  match auth with
  | None => throw (ConvexError "Unauthorized")
  | Some identity =>
      if isEmpty (trim email) then throw (ConvexError "Email cannot be empty")
      else if isOwnEmail email identity then
        throw (ConvexError "Can't send a request to yourself")
      else
        currentUser <- gets (fun db => getUserByClerkId db (subject identity)) ;;
        match currentUser with
        | None => throw (ConvexError "User not found")
        | Some currentUser =>
            receiver <- (rows <- gets (fun db => users_by_email db email) ;; unique rows) ;;
            match receiver with
            | None => throw (ConvexError "User could not be found")
            | Some receiver => sendRequest currentUser receiver
            end
        end
  end.

Definition createByUsername (auth : option Identity) (username : ustring) : M Id :=
  match auth with
  | None => throw (ConvexError "Unauthorized")
  | Some identity =>
      currentUser <- gets (fun db => getUserByClerkId db (subject identity)) ;;
      match currentUser with
      | None => throw (ConvexError "User not found")
      | Some currentUser =>
          if isEmpty (trim username) then throw (ConvexError "Username cannot be empty")
          else if negb (usernameRegex_test username) then
            throw (ConvexError
              "Username can only contain letters, numbers, underscores, periods, and hyphens")
          else
            let normalizedInputUsername := toLowerCase username in
            let cleanCurrentUsername := getCleanUsername (user_username currentUser) in
            if ustring_eqb (toLowerCase (user_username currentUser)) normalizedInputUsername
               || ustring_eqb cleanCurrentUsername normalizedInputUsername
            then throw (ConvexError "Can't send a request to yourself")
            else
              allUsers <- gets users ;;
              let foundUser := find (matchesUsername normalizedInputUsername) allUsers in
              match foundUser with
              | None => throw (ConvexError "User with this username could not be found")
              | Some receiver => sendRequest currentUser receiver
              end
      end
  end.

Definition deny (auth : option Identity) (id : Id) : M unit :=
  currentUser <- currentUserOrThrow auth (ConvexError "Unauthorized") ;;
  request <- gets (fun db => get_request db id) ;;
  match request with
  | None => throw (ConvexError "Request not found")
  | Some request =>
      if negb (req_receiverId request =? user_id currentUser) then
        throw (ConvexError "Request not found")
      else delete_request id
  end.

Definition accept (auth : option Identity) (id : Id) : M Success :=
  currentUser <- currentUserOrThrow auth (ConvexError "Unauthorized") ;;
  request <- gets (fun db => get_request db id) ;;
  match request with
  | None => throw (ConvexError "There was an error accepting this request")
  | Some request =>
      if negb (req_receiverId request =? user_id currentUser) then
        throw (ConvexError "There was an error accepting this request")
      else
        conversationId <- insert_conversation false None None None None ;;
        insert_friendship (user_id currentUser) (req_senderId request) "accepted" ;;;
        insert_member conversationId (user_id currentUser) ;;;
        insert_member conversationId (req_senderId request) ;;;
        delete_request (req_id request) ;;;
        ret (mkSuccess true)
  end.

End Requests.

(** ** Store invariants *)

(** The ids of a table are pairwise distinct and were all handed out
    already. *)
Definition table_ok (ids : list Id) (next : Id) : Prop :=
  NoDup ids /\ Forall (fun i => i < next) ids.

(** Well-formed stores: the platform's guarantee on document ids, which are
    unique and never refer to a conversation that does not exist yet. *)
Record wf (s : Db) : Prop := mkWf {
  wf_users : table_ok (map user_id (users s)) (nextId s);
  wf_conversations : table_ok (map conv_id (conversations s)) (nextId s);
  wf_members : table_ok (map cm_id (conversationMembers s)) (nextId s);
  wf_messages : table_ok (map msg_id (messages s)) (nextId s);
  wf_requests : table_ok (map req_id (requests s)) (nextId s);
  wf_friendships : table_ok (map fr_id (friendships s)) (nextId s);
  wf_member_refs :
    Forall (fun m => cm_conversationId m < nextId s) (conversationMembers s)
}.

(** [linked a b x y]: the ordered pair (x, y) joins the users a and b, in
    either direction. *)
Definition linked (a b x y : Id) : bool :=
  ((x =? a) && (y =? b)) || ((x =? b) && (y =? a)).

Definition requests_between (s : Db) (a b : Id) : list Request :=
  filter (fun r => linked a b (req_senderId r) (req_receiverId r)) (requests s).

Definition friendships_between (s : Db) (a b : Id) : list Friendship :=
  filter (fun f => linked a b (fr_userId1 f) (fr_userId2 f)) (friendships s).

(** The data model's rule for requests: between two users there is at most
    one request, whatever its direction, and none once they are friends. *)
Definition requests_ok (s : Db) : Prop :=
  forall r, In r (requests s) ->
    List.length (requests_between s (req_senderId r) (req_receiverId r)) <= 1 /\
    friendships_between s (req_senderId r) (req_receiverId r) = [].

(** The invariant of the store; every mutation keeps it (see [Inv_commit]
    below). *)
Definition Inv (s : Db) : Prop := wf s /\ requests_ok s.

(** ** Vocabulary of the statements *)

(** The caller of a handler is authenticated and has the user record [u]. *)
Definition callerIs (auth : option Identity) (s : Db) (u : User) : Prop :=
  exists identity, auth = Some identity /\ getUserByClerkId s (subject identity) = Some u.

(** Whether the caller is the stored creator of the group, as
    [isGroupCreator] answers it. *)
Definition callerIsCreator (auth : option Identity) (s : Db) (conversationId : Id) : bool :=
  match Conversations.isGroupCreator (mkQueryCtx auth s) conversationId with
  | Ok b => b
  | Throw _ => false
  end.

(** The members of a conversation other than [userId], in scan order. *)
Definition otherMembers (s : Db) (conversationId userId : Id) : list ConversationMember :=
  filter (fun m => negb (cm_memberId m =? userId))
         (members_by_conversationId s conversationId).

(** An id that exists as a user and has no membership row in the
    conversation. *)
Definition isNewMember (s : Db) (conversationId memberId : Id) : bool :=
  match get_user s memberId with
  | Some _ =>
      match members_by_memberId_conversationId s memberId conversationId with
      | [] => true
      | _ :: _ => false
      end
  | None => false
  end.

(** The last-message time [get] sorts by: the creation time of the message
    [lastMessageId] points to, and 0 when there is no such message. *)
Definition lastMessageTime (s : Db) (c : Conversation) : Z :=
  match conv_lastMessageId c with
  | Some id =>
      match get_message s id with
      | Some m => msg_creationTime m
      | None => 0%Z
      end
  | None => 0%Z
  end.

(** Whether [get] returns an entry for a conversation of the caller. *)
Definition hasDetails (s : Db) (currentUser : User)
  (c : Conversations.ConversationWithTimestamp) : bool :=
  match Conversations.withDetails s currentUser c with
  | Some _ => true
  | None => false
  end.

(** Descending order of last-message times. *)
Definition newerFirst (a b : Conversations.ConversationWithTimestamp) : Prop :=
  (Conversations.lastMessageTimestamp b <= Conversations.lastMessageTimestamp a)%Z.

Definition atTime (t : Z) (c : Conversations.ConversationWithTimestamp) : bool :=
  (Conversations.lastMessageTimestamp c =? t)%Z.



(** ** Result stores *)

(** [conversations] replaced, everything else kept. *)
Definition with_conversations (s : Db) (cs : list Conversation) : Db :=
  mkDb (users s) cs (conversationMembers s) (messages s) (requests s) (friendships s)
       (nextId s).

(** The effect of [ctx.db.patch(id, ..)] on the conversations table. *)
Definition patched (s : Db) (id : Id) (f : Conversation -> Conversation) : Db :=
  with_conversations s (map (fun c => if conv_id c =? id then f c else c) (conversations s)).

(** Membership rows appended to the store; they take the next unused ids. *)
Fixpoint memberRows (next conversationId : Id) (memberIds : list Id)
  : list ConversationMember :=
  match memberIds with
  | [] => []
  | memberId :: rest =>
      mkMember next memberId conversationId :: memberRows (S next) conversationId rest
  end.

Definition add_members (s : Db) (rows : list ConversationMember) : Db :=
  mkDb (users s) (conversations s) (conversationMembers s ++ rows) (messages s)
       (requests s) (friendships s) (nextId s + List.length rows).

(** The store after [currentUser] accepted the request [r]: a direct
    conversation, a friendship row and two membership rows are appended, and
    the rows with the id of [r] are gone from the requests table. *)
Definition accepted (s : Db) (currentUser : User) (r : Request) : Db :=
  let n := nextId s in
  mkDb (users s)
       (conversations s ++ [mkConversation n false None None None None])
       (conversationMembers s
          ++ [mkMember (S (S n)) (user_id currentUser) n;
              mkMember (S (S (S n))) (req_senderId r) n])
       (messages s)
       (filter (fun x => negb (req_id x =? req_id r)) (requests s))
       (friendships s ++ [mkFriendship (S n) (user_id currentUser) (req_senderId r) "accepted"])
       (S (S (S (S n)))).

(** The store after the group [conversationId] was deleted with its
    membership and message rows. *)
Definition deleted_group (s : Db) (conversationId : Id) : Db :=
  mkDb (users s)
       (filter (fun c => negb (conv_id c =? conversationId)) (conversations s))
       (filter (fun m => negb (cm_conversationId m =? conversationId)) (conversationMembers s))
       (filter (fun m => negb (msg_conversationId m =? conversationId)) (messages s))
       (requests s) (friendships s) (nextId s).

(** The store after the creator left a group that has other members: the
    group has a new creator and the leaver's membership row is gone. *)
Definition handed_over (s : Db) (conversationId newOwnerId : Id)
  (membership : ConversationMember) : Db :=
  mkDb (users s)
       (map (fun c => if conv_id c =? conversationId then set_creatorId newOwnerId c else c)
            (conversations s))
       (filter (fun m => negb (cm_id m =? cm_id membership)) (conversationMembers s))
       (messages s) (requests s) (friendships s) (nextId s).

(** The store without the membership rows, resp. the message rows, of the
    given ids. *)
Definition without_members (s : Db) (ids : list Id) : Db :=
  mkDb (users s) (conversations s)
       (filter (fun m => negb (existsb (Nat.eqb (cm_id m)) ids)) (conversationMembers s))
       (messages s) (requests s) (friendships s) (nextId s).

Definition without_messages (s : Db) (ids : list Id) : Db :=
  mkDb (users s) (conversations s) (conversationMembers s)
       (filter (fun m => negb (existsb (Nat.eqb (msg_id m)) ids)) (messages s))
       (requests s) (friendships s) (nextId s).

(** ** Runs of the mutations *)

(** [post m s Q]: when [m], started in [s], returns normally, its result and
    final store satisfy [Q].  Nothing is asked of a run that throws, whose
    writes are not committed. *)
Definition post {A} (m : M A) (s : Db) (Q : A -> Db -> Prop) : Prop :=
  match m s with
  | (s', Ok a) => Q a s'
  | (_, Throw _) => True
  end.

(** The calls that write to the store. *)
Inductive Call :=
| CreateGroup (name : string) (memberIds : list Id)
| LeaveGroup (conversationId : Id)
| DeleteGroup (conversationId : Id)
| CreateGroupChat (name : string) (memberIds : list IdString) (imageUrl : option string)
| UpdateGroupName (conversationId : Id) (name : string)
| UpdateGroupImage (conversationId : Id) (imageUrl : string)
| AddGroupMembers (conversationId : Id) (memberIds : list IdString)
| RemoveGroupMember (conversationId memberId : Id)
| CreateRequest (email : ustring)
| CreateRequestByUsername (username : ustring)
| DenyRequest (id : Id)
| AcceptRequest (id : Id).

(** The store committed by a call. *)
Definition commit (auth : option Identity) (call : Call) (s : Db) : Db :=
  match call with
  | CreateGroup name memberIds =>
      fst (mutation (Conversations.createGroup auth name memberIds) s)
  | LeaveGroup conversationId =>
      fst (mutation (Conversations.leaveGroup auth conversationId) s)
  | DeleteGroup conversationId =>
      fst (mutation (Conversations.deleteGroup auth conversationId) s)
  | CreateGroupChat name memberIds imageUrl =>
      fst (mutation (Conversations.createGroupChat auth name memberIds imageUrl) s)
  | UpdateGroupName conversationId name =>
      fst (mutation (Conversations.updateGroupName auth conversationId name) s)
  | UpdateGroupImage conversationId imageUrl =>
      fst (mutation (Conversations.updateGroupImage auth conversationId imageUrl) s)
  | AddGroupMembers conversationId memberIds =>
      fst (mutation (Conversations.addGroupMembers auth conversationId memberIds) s)
  | RemoveGroupMember conversationId memberId =>
      fst (mutation (Conversations.removeGroupMember auth conversationId memberId) s)
  | CreateRequest email => fst (mutation (Requests.create auth email) s)
  | CreateRequestByUsername username =>
      fst (mutation (Requests.createByUsername auth username) s)
  | DenyRequest id => fst (mutation (Requests.deny auth id) s)
  | AcceptRequest id => fst (mutation (Requests.accept auth id) s)
  end.

(** The stores that calls, by whatever callers, lead to from [s0]. *)
Inductive reachable (s0 : Db) : Db -> Prop :=
| reachable_start : reachable s0 s0
| reachable_call : forall s auth call,
    reachable s0 s -> reachable s0 (commit auth call s).

(** ** Sample data *)

(** The store before anything was written. *)
Definition empty_db : Db := mkDb [] [] [] [] [] [] 0.

Definition str (s : string) : ustring :=
  map (fun a => N.of_nat (Ascii.nat_of_ascii a)) (list_ascii_of_string s).

Definition alice : User := mkUser 1 "clerk_alice" (str "alice") (str "alice@example.com") "".
Definition bob : User := mkUser 2 "clerk_bob" (str "bob") (str "bob@example.com") "".
Definition carol : User := mkUser 3 "clerk_carol" (str "carol") (str "carol@example.com") "".
Definition alice_id : Identity := mkIdentity "clerk_alice" (Some (str "alice@example.com")).
Definition bob_id : Identity := mkIdentity "clerk_bob" (Some (str "bob@example.com")).
Definition carol_id : Identity := mkIdentity "clerk_carol" (Some (str "carol@example.com")).

(** A group of alice (its creator) and bob; carol is not a member. *)
Definition team : Conversation := mkConversation 10 true (Some "team") None (Some 1) None.
Definition group_db : Db :=
  mkDb [alice; bob; carol] [team] [mkMember 11 1 10; mkMember 12 2 10] [] [] [] 20.

(** A group whose only member is alice, its creator, with one message. *)
Definition solo_db : Db :=
  mkDb [alice; bob; carol] [team] [mkMember 11 1 10]
       [mkMessage 12 1700000000000 1 10 "text" "hello"] [] [] 20.

(** A group that was created with its creator listed among the members:
    alice holds two membership rows in it. *)
Definition doubled_db : Db :=
  fst (Conversations.createGroup (Some alice_id) "solo" [1]
         (mkDb [alice; bob; carol] [] [] [] [] [] 10)).

(** Users whose stored names decorate or extend the name alice. *)
Definition alice_crown : User :=
  mkUser 4 "clerk_queen" (str "alice" ++ crown) (str "queen@example.com") "".
Definition alice2 : User := mkUser 5 "clerk_alice2" (str "alice2") (str "a2@example.com") "".
Definition names_db : Db := mkDb [bob; alice2; alice_crown] [] [] [] [] [] 6.

(** Alice has asked bob to be friends; the request is pending. *)
Definition alice_to_bob : Request := mkRequest 30 1 2 "pending".
Definition pending_db : Db := mkDb [alice; bob; carol] [] [] [] [alice_to_bob] [] 31.

(** Alice talks to bob, to carol and to a third user; the conversations with
    bob and with the third user have last messages of the same age, the one
    with carol has a newer one. *)
Definition inbox_db : Db :=
  mkDb [alice; bob; carol; alice_crown]
       [mkConversation 10 false None None None (Some 50);
        mkConversation 11 false None None None (Some 51);
        mkConversation 12 false None None None (Some 52);
        mkConversation 13 true (Some "team") None (Some 1) None]
       [mkMember 20 1 10; mkMember 21 2 10; mkMember 22 1 11; mkMember 23 3 11;
        mkMember 24 1 12; mkMember 25 4 12; mkMember 26 1 13]
       [mkMessage 50 5 2 10 "text" "hi"; mkMessage 51 9 3 11 "image" "";
        mkMessage 52 5 1 12 "text" "hello"]
       [] [] 60.

(** What a client sees of an entry returned by [get]. *)
Definition summary (d : Conversations.ConversationDetails) : Id * Z * option string :=
  (conv_id (Conversations.doc (Conversations.conversation d)),
   Conversations.lastMessageTimestamp (Conversations.conversation d),
   option_map Conversations.content (Conversations.lastMessage d)).

(** ** Further result stores and vocabulary *)

(** The store with one more conversation. *)
Definition add_conversation (s : Db) (c : Conversation) : Db :=
  mkDb (users s) (conversations s ++ [c]) (conversationMembers s) (messages s)
       (requests s) (friendships s) (S (nextId s)).

(** The store after a group was created: the conversation, then one
    membership row for the creator and one per member id, in that order. *)
Definition created_group (s : Db) (creatorId : Id) (name : string)
  (imageUrl : option string) (memberIds : list Id) : Db :=
  let n := nextId s in
  add_members
    (add_conversation s (mkConversation n true (Some name) imageUrl (Some creatorId) None))
    (memberRows (S n) n (creatorId :: memberIds)).

(** An id that exists as a user. *)
Definition isUser (s : Db) (id : Id) : bool :=
  match get_user s id with
  | Some _ => true
  | None => false
  end.

(** The document ids among the texts given as member ids. *)
Definition idsOf (memberIds : list IdString) : list Id :=
  flat_map (fun memberId => match memberId with IdOf id => [id] | NoId _ => [] end)
           memberIds.

(** A text that is the id of a stored user, or an id given out earlier
    whose document is no longer stored. *)
Definition namesUserOrNothing (s : Db) (memberId : IdString) : bool :=
  match memberId with
  | IdOf id => isUser s id || ((id <? nextId s) && negb (elsewhere s id))
  | NoId _ => false
  end.


(** A store later in the same call as [s0]: the users are the same, and
    documents were only added, under new ids. *)
Definition grown (s0 s : Db) : Prop :=
  users s = users s0 /\
  nextId s0 <= nextId s /\
  (forall id, elsewhere s0 id = true -> elsewhere s id = true) /\
  (forall id, id < nextId s0 -> elsewhere s id = elsewhere s0 id).

(** The store without the membership rows that carry the id of [row]. *)
Definition without_member (s : Db) (row : ConversationMember) : Db :=
  mkDb (users s) (conversations s)
       (filter (fun m => negb (cm_id m =? cm_id row)) (conversationMembers s))
       (messages s) (requests s) (friendships s) (nextId s).

(** The store without the request rows of the given id. *)
Definition without_request (s : Db) (id : Id) : Db :=
  mkDb (users s) (conversations s) (conversationMembers s) (messages s)
       (filter (fun r => negb (req_id r =? id)) (requests s))
       (friendships s) (nextId s).

(** The store with one more request, pending, from [senderId] to
    [receiverId]. *)
Definition with_request (s : Db) (senderId receiverId : Id) : Db :=
  mkDb (users s) (conversations s) (conversationMembers s) (messages s)
       (requests s ++ [mkRequest (nextId s) senderId receiverId "pending"])
       (friendships s) (S (nextId s)).

(** [quiet m s]: when [m], started in [s], throws, the store is [s] again:
    nothing was written before the error. *)
Definition quiet {A} (m : M A) (s : Db) : Prop :=
  forall s' e, m s = (s', Throw e) -> s' = s.

(** Three users and nothing else. *)
Definition users_db : Db := mkDb [alice; bob; carol] [] [] [] [] [] 30.

(** [pending_db] after bob denied the request of alice. *)
Definition users_db_after_deny : Db := mkDb [alice; bob; carol] [] [] [] [] [] 31.


(** The characters a lowered input of [createByUsername] is made of, and the
    characters of a stored name that lower to one of them. *)
Definition isLowerNameChar (c : N) : bool :=
  (((97 <=? c) && (c <=? 122)) || ((48 <=? c) && (c <=? 57))
   || (c =? 95) || (c =? 46) || (c =? 45))%N.

Definition isPlain (c : N) : bool := (isUsernameChar c || (c =? 0x212A))%N.

(** The self check of [createByUsername]: the caller's own name, lowered or
    cleaned, is the lowered input. *)
Definition isOwnName (currentUser : User) (username : ustring) : bool :=
  ustring_eqb (toLowerCase (user_username currentUser)) (toLowerCase username)
  || ustring_eqb (getCleanUsername (user_username currentUser)) (toLowerCase username).

(** * Properties *)

(** ** Basic facts *)

Lemma ustring_eqb_eq (a b : ustring) : ustring_eqb a b = true <-> a = b.
Proof.
  unfold ustring_eqb. destruct (list_eq_dec N.eq_dec a b); split; congruence.
Qed.

Lemma ustring_eqb_refl (a : ustring) : ustring_eqb a a = true.
Proof. now apply ustring_eqb_eq. Qed.

Lemma ustring_eqb_neq (a b : ustring) : ustring_eqb a b = false <-> a <> b.
Proof.
  unfold ustring_eqb. destruct (list_eq_dec N.eq_dec a b); split; congruence.
Qed.

Lemma find_some_id {A} (key : A -> Id) (rows : list A) (id : Id) (x : A) :
  find (fun r => key r =? id) rows = Some x -> In x rows /\ key x = id.
Proof.
  intros H. apply find_some in H. destruct H as [Hin Heq].
  apply Nat.eqb_eq in Heq. auto.
Qed.

Lemma get_user_id s id u : get_user s id = Some u -> user_id u = id.
Proof. intros H. now apply find_some_id in H. Qed.

Lemma get_conversation_id s id c : get_conversation s id = Some c -> conv_id c = id.
Proof. intros H. now apply find_some_id in H. Qed.

Lemma get_request_id s id r : get_request s id = Some r -> req_id r = id.
Proof. intros H. now apply find_some_id in H. Qed.

Lemma get_request_In s id r : get_request s id = Some r -> In r (requests s).
Proof. intros H. now apply find_some_id in H. Qed.

Lemma get_conversation_In s id c : get_conversation s id = Some c -> In c (conversations s).
Proof. intros H. now apply find_some_id in H. Qed.

(** ** [isGroupCreator] *)

(** C10: [isGroupCreator] never throws.  For every context and argument it
    returns a boolean; the boolean is [false] when there is no identity, when
    the caller has no user record, when the conversation does not exist and
    when it is not a group; and it is [true] only when the stored creator is
    the caller's user id. *)
Theorem isGroupCreator_total :
  forall (ctx : QueryCtx) (conversationId : Id),
    exists b : bool,
      Conversations.isGroupCreator ctx conversationId = Ok b /\
      (auth ctx = None -> b = false) /\
      (forall identity, auth ctx = Some identity ->
         getUserByClerkId (db ctx) (subject identity) = None -> b = false) /\
      (get_conversation (db ctx) conversationId = None -> b = false) /\
      (forall c, get_conversation (db ctx) conversationId = Some c ->
         conv_isGroup c = false -> b = false) /\
      (b = true ->
         exists identity currentUser c,
           auth ctx = Some identity /\
           getUserByClerkId (db ctx) (subject identity) = Some currentUser /\
           get_conversation (db ctx) conversationId = Some c /\
           conv_isGroup c = true /\
           conv_creatorId c = Some (user_id currentUser)).
Proof.
  intros [a s] cid. unfold Conversations.isGroupCreator. simpl.
  destruct a as [identity|].
  2:{ exists false. repeat split; try reflexivity; try discriminate. }
  destruct (getUserByClerkId s (subject identity)) as [u|] eqn:Hu.
  2:{ exists false. repeat split; try reflexivity; try discriminate. }
  destruct (get_conversation s cid) as [c|] eqn:Hc.
  2:{ exists false. repeat split; try reflexivity; try discriminate. }
  destruct (conv_isGroup c) eqn:Hg; simpl.
  2:{ exists false. repeat split; try reflexivity; try discriminate. }
  exists (creatorIs c (user_id u)). repeat split; try discriminate.
  - intros i Hi Hn. inversion Hi; subst. congruence.
  - intros c' Hc' Hg'. inversion Hc'; subst. congruence.
  - intros Hb. exists identity, u, c. repeat split; auto.
    unfold creatorIs in Hb. destruct (conv_creatorId c) as [k|]; try discriminate.
    apply Nat.eqb_eq in Hb. now subst.
Qed.

(** ** Calls without an identity *)

(** C3 (amended): without an authenticated identity every group mutation and
    every handler of [requests.ts] fails with an error and writes nothing,
    whereas [conversations.get] returns the empty list and [isGroupCreator]
    returns [false]. *)
Theorem unauthenticated_calls :
  forall (s : Db),
    (forall name memberIds,
        Conversations.createGroup None name memberIds s
        = (s, Throw (ConvexError "Failed to create group"))) /\
    (forall c,
        Conversations.leaveGroup None c s
        = (s, Throw (ConvexError "Failed to leave group"))) /\
    (forall c,
        Conversations.deleteGroup None c s
        = (s, Throw (ConvexError "Failed to delete group"))) /\
    (forall name memberIds imageUrl,
        Conversations.createGroupChat None name memberIds imageUrl s
        = (s, Throw (ConvexError "Unauthorized"))) /\
    (forall c name,
        Conversations.updateGroupName None c name s
        = (s, Throw (ConvexError "Failed to update group name"))) /\
    (forall c imageUrl,
        Conversations.updateGroupImage None c imageUrl s
        = (s, Throw (ConvexError "Failed to update group image"))) /\
    (forall c memberIds,
        Conversations.addGroupMembers None c memberIds s
        = (s, Throw (ConvexError "Failed to add members to group"))) /\
    (forall c memberId,
        Conversations.removeGroupMember None c memberId s
        = (s, Throw (ConvexError "Failed to remove member from group"))) /\
    Requests.getAll (mkQueryCtx None s) = Throw (Error "Unauthorized") /\
    (forall email,
        Requests.create None email s = (s, Throw (ConvexError "Unauthorized"))) /\
    (forall username,
        Requests.createByUsername None username s
        = (s, Throw (ConvexError "Unauthorized"))) /\
    (forall id, Requests.deny None id s = (s, Throw (ConvexError "Unauthorized"))) /\
    (forall id, Requests.accept None id s = (s, Throw (ConvexError "Unauthorized"))) /\
    Conversations.get (mkQueryCtx None s) = Ok [] /\
    (forall c, Conversations.isGroupCreator (mkQueryCtx None s) c = Ok false).
Proof.
  intros s. repeat split; intros; reflexivity.
Qed.

(** C3, as stated, fails: called without an identity on the empty store,
    [conversations.get] and [isGroupCreator] return normally. *)
Lemma unauthenticated_get_returns_normally :
  Conversations.get (mkQueryCtx None empty_db) = Ok [] /\
  isThrow (Conversations.get (mkQueryCtx None empty_db)) = false /\
  Conversations.isGroupCreator (mkQueryCtx None empty_db) 0 = Ok false.
Proof. repeat split. Qed.

(** ** Creator-only group mutations *)

Lemma groupOfCreator_spec (auth : option Identity) s cid u denied :
  callerIs auth s u ->
  groupOfCreator cid u denied s
  = if callerIsCreator auth s cid then
      match get_conversation s cid with
      | Some c => (s, Ok c)
      | None => (s, Throw (ConvexError denied))
      end
    else
      (s, Throw (ConvexError
            match get_conversation s cid with
            | None => "Conversation not found"
            | Some c => if conv_isGroup c then denied
                        else "This is not a group conversation"
            end)).
Proof.
  intros (identity & -> & Hu).
  unfold groupOfCreator, callerIsCreator, Conversations.isGroupCreator, bind, gets. simpl.
  rewrite Hu.
  destruct (get_conversation s cid) as [c|]; [|reflexivity].
  destruct (conv_isGroup c); simpl; [|reflexivity].
  destruct (creatorIs c (user_id u)); reflexivity.
Qed.

Lemma callerIsCreator_no_user auth s cid :
  (forall u, ~ callerIs auth s u) -> callerIsCreator auth s cid = false.
Proof.
  intros H. unfold callerIsCreator, Conversations.isGroupCreator. simpl.
  destruct auth as [identity|]; [|reflexivity].
  destruct (getUserByClerkId s (subject identity)) as [u|] eqn:Hu; [|reflexivity].
  exfalso. apply (H u). exists identity. auto.
Qed.

Lemma callerIs_dec auth s : (exists u, callerIs auth s u) \/ (forall u, ~ callerIs auth s u).
Proof.
  destruct auth as [identity|].
  - destruct (getUserByClerkId s (subject identity)) as [u|] eqn:Hu.
    + left. exists u, identity. auto.
    + right. intros u (i & Hi & Hu'). inversion Hi; subst. congruence.
  - right. intros u (i & Hi & _). discriminate.
Qed.

Lemma currentUserOrThrow_ok auth s u e :
  callerIs auth s u -> currentUserOrThrow auth e s = (s, Ok u).
Proof.
  intros (identity & -> & Hu). unfold currentUserOrThrow, bind, gets. now rewrite Hu.
Qed.

Lemma currentUserOrThrow_fail auth s e :
  (forall u, ~ callerIs auth s u) ->
  exists e', currentUserOrThrow auth e s = (s, Throw e').
Proof.
  intros H. destruct auth as [identity|].
  - unfold currentUserOrThrow, bind, gets.
    destruct (getUserByClerkId s (subject identity)) as [u|] eqn:Hu.
    + exfalso. apply (H u). exists identity. auto.
    + eexists. reflexivity.
  - eexists. reflexivity.
Qed.

Lemma callerIsCreator_conversation auth s cid :
  callerIsCreator auth s cid = true ->
  exists u c, callerIs auth s u /\ get_conversation s cid = Some c /\
              conv_isGroup c = true /\ conv_creatorId c = Some (user_id u).
Proof.
  unfold callerIsCreator, Conversations.isGroupCreator. simpl.
  destruct auth as [identity|]; [|discriminate].
  destruct (getUserByClerkId s (subject identity)) as [u|] eqn:Hu; [|discriminate].
  destruct (get_conversation s cid) as [c|] eqn:Hc; [|discriminate].
  destruct (conv_isGroup c) eqn:Hg; simpl; [|discriminate].
  unfold creatorIs. destruct (conv_creatorId c) as [k|] eqn:Hk; [|discriminate].
  intros H. apply Nat.eqb_eq in H. subst k.
  exists u, c. repeat split; auto. exists identity. auto.
Qed.

(** C9 (amended): [updateGroupName] and [updateGroupImage] apply the change
    exactly when the caller is the stored creator of the group.  Otherwise
    the call fails with the tagged error [Failed to update group name] (resp.
    [image]) of the handler's catch clause, which replaces the error raised
    inside, and the store is unchanged. *)
Theorem updateGroup_creator_only :
  forall (auth : option Identity) (s : Db) (conversationId : Id) (name imageUrl : string),
    Conversations.updateGroupName auth conversationId name s
    = (if callerIsCreator auth s conversationId
       then (patched s conversationId (set_name name), Ok (mkSuccess true))
       else (s, Throw (ConvexError "Failed to update group name"))) /\
    Conversations.updateGroupImage auth conversationId imageUrl s
    = (if callerIsCreator auth s conversationId
       then (patched s conversationId (set_imageUrl imageUrl), Ok (mkSuccess true))
       else (s, Throw (ConvexError "Failed to update group image"))).
Proof.
  intros auth s cid name imageUrl.
  unfold Conversations.updateGroupName, Conversations.updateGroupImage.
  destruct (callerIs_dec auth s) as [[u Hu]|Hno].
  - unfold try_catch, bind.
    rewrite (currentUserOrThrow_ok _ _ _ _ Hu).
    rewrite !(groupOfCreator_spec _ _ _ _ _ Hu).
    destruct (callerIsCreator auth s cid) eqn:Hc.
    + apply callerIsCreator_conversation in Hc.
      destruct Hc as (u' & c & _ & Hget & _ & _). rewrite Hget.
      unfold patch_conversation. rewrite Hget. split; reflexivity.
    + split; reflexivity.
  - rewrite (callerIsCreator_no_user _ _ _ Hno).
    destruct (currentUserOrThrow_fail _ _ (Error "Unauthorized") Hno) as [e He].
    unfold try_catch, bind. rewrite He. split; reflexivity.
Qed.

(** C9, as stated, fails: when bob, who is not the creator of alice's group,
    renames it, the error the call fails with is [Failed to update group
    name]; the message [Only the group creator can ...] does not reach the
    caller. *)
Lemma updateGroupName_by_member_error :
  Conversations.updateGroupName (Some bob_id) 10 "renamed" group_db
  = (group_db, Throw (ConvexError "Failed to update group name")) /\
  Conversations.updateGroupImage (Some bob_id) 10 "image.png" group_db
  = (group_db, Throw (ConvexError "Failed to update group image")) /\
  String.prefix "Only the group creator can" "Failed to update group name" = false /\
  String.prefix "Only the group creator can" "Failed to update group image" = false.
Proof. repeat split. Qed.

(** C7: whoever calls [removeGroupMember] with the stored creator of the
    conversation as the member to remove, the call fails with an error and
    the store, hence every membership row, is left as it was. *)
Theorem removeGroupMember_creator_fails :
  forall (auth : option Identity) (s : Db) (conversationId memberId : Id)
         (c : Conversation),
    get_conversation s conversationId = Some c ->
    conv_creatorId c = Some memberId ->
    Conversations.removeGroupMember auth conversationId memberId s
    = (s, Throw (ConvexError "Failed to remove member from group")).
Proof.
  intros auth s cid mid c Hget Hcr.
  unfold Conversations.removeGroupMember.
  destruct (callerIs_dec auth s) as [[u Hu]|Hno].
  - unfold try_catch, bind.
    rewrite (currentUserOrThrow_ok _ _ _ _ Hu).
    rewrite (groupOfCreator_spec _ _ _ _ _ Hu). rewrite Hget.
    destruct (callerIsCreator auth s cid) eqn:Hc; [|reflexivity].
    unfold gets.
    destruct (get_user s mid) as [m|] eqn:Hm; [|reflexivity].
    apply get_user_id in Hm.
    unfold creatorIs. rewrite Hcr, Hm, Nat.eqb_refl. reflexivity.
  - destruct (currentUserOrThrow_fail _ _ (Error "Unauthorized") Hno) as [e He].
    unfold try_catch, bind. rewrite He. reflexivity.
Qed.

Lemma removeGroupMember_creator_fails_witness :
  Conversations.removeGroupMember (Some alice_id) 10 1 group_db
  = (group_db, Throw (ConvexError "Failed to remove member from group")) /\
  Conversations.removeGroupMember (Some bob_id) 10 1 group_db
  = (group_db, Throw (ConvexError "Failed to remove member from group")).
Proof.
  split.
  - apply (@removeGroupMember_creator_fails (Some alice_id) group_db 10 1 team);
      reflexivity.
  - apply (@removeGroupMember_creator_fails (Some bob_id) group_db 10 1 team);
      reflexivity.
Defined.

(** ** [addGroupMembers] *)

Lemma existing_member_ids s cid id :
  existsb (Nat.eqb id) (map cm_memberId (members_by_conversationId s cid))
  = match members_by_memberId_conversationId s id cid with
    | [] => false
    | _ :: _ => true
    end.
Proof.
  unfold members_by_conversationId, members_by_memberId_conversationId.
  induction (conversationMembers s) as [|m ms IH]; simpl; [reflexivity|].
  destruct (cm_conversationId m =? cid) eqn:Hc; simpl.
  - rewrite (Nat.eqb_sym id). destruct (cm_memberId m =? id); simpl; auto.
  - rewrite andb_false_r. exact IH.
Qed.

Lemma memberRows_length next cid ids : List.length (memberRows next cid ids) = List.length ids.
Proof. revert next. induction ids; simpl; intros; auto. Qed.

Lemma add_members_cons s r rows :
  add_members (add_members s [r]) rows = add_members s (r :: rows).
Proof.
  unfold add_members. simpl. rewrite <- app_assoc. simpl.
  f_equal. lia.
Qed.

Lemma grown_refl s : grown s s.
Proof. repeat split; auto. Qed.

Lemma elsewhere_insert_member s row id :
  elsewhere (mkDb (users s) (conversations s) (conversationMembers s ++ [row])
                  (messages s) (requests s) (friendships s) (S (nextId s))) id
  = elsewhere s id || (cm_id row =? id).
Proof.
  unfold elsewhere. cbn [conversations conversationMembers messages requests friendships].
  rewrite existsb_app. cbn [existsb].
  destruct (existsb (fun c => conv_id c =? id) (conversations s)),
    (existsb (fun m => cm_id m =? id) (conversationMembers s)),
    (existsb (fun m => msg_id m =? id) (messages s)),
    (existsb (fun r => req_id r =? id) (requests s)),
    (existsb (fun f => fr_id f =? id) (friendships s)),
    (cm_id row =? id); reflexivity.
Qed.

Lemma elsewhere_insert_conversation s c id :
  elsewhere (mkDb (users s) (conversations s ++ [c]) (conversationMembers s)
                  (messages s) (requests s) (friendships s) (S (nextId s))) id
  = elsewhere s id || (conv_id c =? id).
Proof.
  unfold elsewhere. cbn [conversations conversationMembers messages requests friendships].
  rewrite existsb_app. cbn [existsb].
  destruct (existsb (fun c => conv_id c =? id) (conversations s)),
    (existsb (fun m => cm_id m =? id) (conversationMembers s)),
    (existsb (fun m => msg_id m =? id) (messages s)),
    (existsb (fun r => req_id r =? id) (requests s)),
    (existsb (fun f => fr_id f =? id) (friendships s)),
    (conv_id c =? id); reflexivity.
Qed.

Lemma grown_insert_member s0 s cid memberId :
  grown s0 s ->
  grown s0 (mkDb (users s) (conversations s)
                 (conversationMembers s ++ [mkMember (nextId s) memberId cid])
                 (messages s) (requests s) (friendships s) (S (nextId s))).
Proof.
  intros (Hu & Hn & Hup & Hlow).
  refine (conj Hu (conj _ (conj _ _))); cbn [nextId]; [lia| |].
  - intros id H. rewrite elsewhere_insert_member, (Hup id H). reflexivity.
  - intros id Hid. rewrite elsewhere_insert_member, (Hlow id Hid). cbn [cm_id].
    replace (nextId s =? id) with false by (symmetry; apply Nat.eqb_neq; lia).
    apply orb_false_r.
Qed.

Lemma grown_insert_conversation s0 s c :
  grown s0 s -> conv_id c = nextId s ->
  grown s0 (mkDb (users s) (conversations s ++ [c]) (conversationMembers s)
                 (messages s) (requests s) (friendships s) (S (nextId s))).
Proof.
  intros (Hu & Hn & Hup & Hlow) Hc.
  refine (conj Hu (conj _ (conj _ _))); cbn [nextId]; [lia| |].
  - intros id H. rewrite elsewhere_insert_conversation, (Hup id H). reflexivity.
  - intros id Hid. rewrite elsewhere_insert_conversation, (Hlow id Hid), Hc.
    replace (nextId s =? id) with false by (symmetry; apply Nat.eqb_neq; lia).
    apply orb_false_r.
Qed.

(** What [ctx.db.get] gives, later in the call, for a text that names a
    user or nothing. *)
Lemma db_get_user_or_nothing s0 s memberId :
  grown s0 s ->
  namesUserOrNothing s0 memberId = true ->
  exists id, memberId = IdOf id /\
             db_get memberId s = (s, Ok (option_map UserDoc (get_user s0 id))).
Proof.
  intros (Hu & Hn & _ & Hlow) Hn0. destruct memberId as [id|text]; [|discriminate].
  exists id. split; [reflexivity|]. unfold db_get.
  replace (get_user s id) with (get_user s0 id) by (unfold get_user; now rewrite Hu).
  cbn [namesUserOrNothing] in Hn0. unfold isUser in Hn0.
  destruct (get_user s0 id) as [u|]; [reflexivity|].
  cbn [orb] in Hn0. apply andb_true_iff in Hn0. destruct Hn0 as [Hlt Hnone].
  apply Nat.ltb_lt in Hlt. apply negb_true_iff in Hnone.
  now rewrite (Hlow id Hlt), Hnone.
Qed.

Lemma addEach_spec s0 cid :
  forall memberIds s n,
    grown s0 s ->
    forallb (namesUserOrNothing s0) memberIds = true ->
    let existing := map cm_memberId (members_by_conversationId s0 cid) in
    let rows := memberRows (nextId s) cid (filter (isNewMember s0 cid) (idsOf memberIds)) in
    Conversations.addEach cid existing memberIds n s
    = (add_members s rows, Ok (n + List.length rows)).
Proof.
  induction memberIds as [|memberId rest IH]; intros s n Hg Hall existing rows.
  - subst rows. simpl. unfold ret, add_members. simpl.
    rewrite app_nil_r, !Nat.add_0_r. now destruct s.
  - cbn [forallb] in Hall. apply andb_true_iff in Hall. destruct Hall as [Hone Hall].
    destruct (db_get_user_or_nothing _ _ _ Hg Hone) as (id & -> & Hget).
    subst rows existing. cbn [Conversations.addEach idsOf flat_map app].
    fold (idsOf rest). cbn [filter].
    unfold bind at 1. rewrite Hget.
    pose proof (existing_member_ids s0 cid id) as Hex.
    assert (Hnew : isNewMember s0 cid id
                   = match get_user s0 id with
                     | Some _ => negb (existsb (Nat.eqb id)
                                   (map cm_memberId (members_by_conversationId s0 cid)))
                     | None => false
                     end).
    { unfold isNewMember. rewrite Hex.
      destruct (get_user s0 id); [|reflexivity].
      now destruct (members_by_memberId_conversationId s0 id cid). }
    rewrite Hnew.
    destruct (get_user s0 id) as [member|] eqn:Hm; cbn [option_map]; [|now apply IH].
    cbn [doc_id insert_member_of]. rewrite (get_user_id _ _ _ Hm).
    destruct (existsb (Nat.eqb id) (map cm_memberId (members_by_conversationId s0 cid)));
      cbn [negb memberRows]; [now apply IH|].
    unfold bind at 1. unfold insert_member at 1.
    rewrite IH by (auto using grown_insert_member). cbn [nextId].
    rewrite <- add_members_cons. unfold add_members at 3.
    cbn [List.length]. rewrite Nat.add_1_r. f_equal. f_equal. lia.
Qed.

Lemma filter_In_Forall {A} (p : A -> bool) (l : list A) : Forall (fun x => p x = true) (filter p l).
Proof. apply Forall_forall. intros x Hx. now apply filter_In in Hx. Qed.

Lemma memberRows_Forall (P : ConversationMember -> Prop) cid :
  forall ids next,
    (forall k id, In id ids -> P (mkMember k id cid)) ->
    Forall P (memberRows next cid ids).
Proof.
  induction ids as [|id rest IH]; intros next H; simpl; constructor.
  - apply H. now left.
  - apply IH. intros k i Hi. apply H. now right.
Qed.

Lemma memberRows_memberIds next cid ids : map cm_memberId (memberRows next cid ids) = ids.
Proof. revert next. induction ids; simpl; intros; f_equal; auto. Qed.

(** X26: called by the creator of the group with member ids that each name
    a stored user or a document that is no longer stored, [addGroupMembers]
    succeeds and appends one membership row per listed occurrence of an id
    that exists as a user and had no membership row in the conversation when
    the call began; [addedCount] is the number of rows appended; nothing
    else changes, so an id that was a member before the call gets no
    further row. *)
Theorem addGroupMembers_adds_new_users :
  forall (auth : option Identity) (s : Db) (conversationId : Id)
         (memberIds : list IdString),
    callerIsCreator auth s conversationId = true ->
    forallb (namesUserOrNothing s) memberIds = true ->
    let rows :=
      memberRows (nextId s) conversationId
                 (filter (isNewMember s conversationId) (idsOf memberIds)) in
    Conversations.addGroupMembers auth conversationId memberIds s
    = (add_members s rows, Ok (mkAdded true (List.length rows))) /\
    Forall (fun row =>
              cm_conversationId row = conversationId /\
              (exists u, get_user s (cm_memberId row) = Some u) /\
              members_by_memberId_conversationId s (cm_memberId row) conversationId = [])
           rows /\
    (forall id, members_by_memberId_conversationId s id conversationId <> [] ->
                ~ In id (map cm_memberId rows)).
Proof.
  intros auth s cid memberIds Hc Hall rows.
  assert (Hrows :
    Forall (fun row =>
              cm_conversationId row = cid /\
              (exists u, get_user s (cm_memberId row) = Some u) /\
              members_by_memberId_conversationId s (cm_memberId row) cid = []) rows).
  { subst rows. apply memberRows_Forall. intros k id Hin. simpl.
    apply filter_In in Hin. destruct Hin as [_ Hnew]. unfold isNewMember in Hnew.
    destruct (get_user s id) as [u|]; [|discriminate].
    destruct (members_by_memberId_conversationId s id cid); [|discriminate].
    repeat split; eauto. }
  repeat split.
  - destruct (callerIsCreator_conversation _ _ _ Hc) as (u & c & Hu & Hget & _ & _).
    unfold Conversations.addGroupMembers, try_catch, bind.
    rewrite (currentUserOrThrow_ok _ _ _ _ Hu), (groupOfCreator_spec _ _ _ _ _ Hu), Hc, Hget.
    unfold gets at 1.
    rewrite (addEach_spec s cid memberIds s 0 (grown_refl s) Hall). reflexivity.
  - exact Hrows.
  - intros id Hmem Hin. apply in_map_iff in Hin. destruct Hin as (row & <- & Hin).
    rewrite Forall_forall in Hrows. destruct (Hrows row Hin) as (_ & _ & Hnone).
    contradiction.
Qed.

Lemma addGroupMembers_adds_new_users_witness :
  Conversations.addGroupMembers (Some alice_id) 10 [IdOf 2; IdOf 3; IdOf 5] group_db
  = (add_members group_db [mkMember 20 3 10], Ok (mkAdded true 1)).
Proof.
  exact (proj1 (addGroupMembers_adds_new_users (Some alice_id) group_db 10
                  [IdOf 2; IdOf 3; IdOf 5] eq_refl eq_refl)).
Defined.

(** C8: the failing input.  Alice, the creator of the group of alice and
    bob, adds carol twice in one call.  The member ids of the group are read
    once, before the loop, so the second occurrence is not recognised as
    present: carol gets two membership rows and [addedCount] is 2. *)
Theorem addGroupMembers_repeated_id_adds_two_rows :
  Conversations.addGroupMembers (Some alice_id) 10 [IdOf 3; IdOf 3] group_db
  = (add_members group_db [mkMember 20 3 10; mkMember 21 3 10], Ok (mkAdded true 2)) /\
  members_by_memberId_conversationId
    (fst (mutation (Conversations.addGroupMembers (Some alice_id) 10 [IdOf 3; IdOf 3])
            group_db)) 3 10
  = [mkMember 20 3 10; mkMember 21 3 10].
Proof. split; reflexivity. Qed.

(** ** Sorting by a key, newest first *)

Section SortByKey.

Variable A : Type.
Variable key : A -> Z.

Let compare (a b : A) : Z := (key b - key a)%Z.
Let desc (a b : A) : Prop := (key b <= key a)%Z.

Lemma sort_insert_Forall (P : A -> Prop) x l :
  P x -> Forall P l -> Forall P (sort_insert compare x l).
Proof.
  intros Hx Hl. induction Hl as [|y l Hy Hl IH]; simpl.
  - auto.
  - destruct (compare x y <=? 0)%Z; auto.
Qed.

Lemma sort_insert_sorted x l :
  StronglySorted desc l -> StronglySorted desc (sort_insert compare x l).
Proof.
  induction 1 as [|y l Hs IH Hy]; simpl.
  - repeat constructor.
  - destruct (compare x y <=? 0)%Z eqn:Hc.
    + apply Z.leb_le in Hc. constructor.
      * now constructor.
      * constructor.
        -- unfold desc, compare in *. lia.
        -- eapply Forall_impl; [|exact Hy].
           intros z Hz. unfold desc, compare in *. lia.
    + apply Z.leb_gt in Hc. constructor; [exact IH|].
      apply sort_insert_Forall; [|exact Hy].
      unfold desc, compare in *. lia.
Qed.

Lemma array_sort_sorted l : StronglySorted desc (array_sort compare l).
Proof.
  induction l as [|x l IH]; simpl.
  - constructor.
  - now apply sort_insert_sorted.
Qed.

(** Elements with equal keys never pass each other. *)
Lemma sort_insert_same_key t x l :
  filter (fun a => key a =? t)%Z (sort_insert compare x l)
  = filter (fun a => key a =? t)%Z (x :: l).
Proof.
  induction l as [|y l IH]; simpl; [reflexivity|].
  destruct (compare x y <=? 0)%Z eqn:Hc; [reflexivity|].
  apply Z.leb_gt in Hc. simpl. rewrite IH. simpl.
  destruct (key x =? t)%Z eqn:Hx, (key y =? t)%Z eqn:Hy; try reflexivity.
  apply Z.eqb_eq in Hx, Hy. unfold compare in Hc. lia.
Qed.

Lemma array_sort_stable t l :
  filter (fun a => key a =? t)%Z (array_sort compare l)
  = filter (fun a => key a =? t)%Z l.
Proof.
  induction l as [|x l IH]; simpl; [reflexivity|].
  rewrite sort_insert_same_key. simpl. now rewrite IH.
Qed.

Lemma sort_insert_In x l a : In a (sort_insert compare x l) <-> a = x \/ In a l.
Proof.
  induction l as [|y l IH]; simpl.
  - intuition.
  - destruct (compare x y <=? 0)%Z; simpl; [intuition|].
    rewrite IH. intuition.
Qed.

Lemma array_sort_In l a : In a (array_sort compare l) <-> In a l.
Proof.
  induction l as [|x l IH]; simpl; [reflexivity|].
  rewrite sort_insert_In, IH. intuition.
Qed.

Lemma StronglySorted_filter (p : A -> bool) l :
  StronglySorted desc l -> StronglySorted desc (filter p l).
Proof.
  induction 1 as [|x l Hs IH Hx]; simpl; [constructor|].
  destruct (p x); [|exact IH].
  constructor; [exact IH|].
  apply Forall_forall. intros y Hy. apply filter_In in Hy.
  rewrite Forall_forall in Hx. now apply Hx.
Qed.

End SortByKey.

(** ** [conversations.get] *)

Lemma withDetails_conversation s u c d :
  Conversations.withDetails s u c = Some d -> Conversations.conversation d = c.
Proof.
  unfold Conversations.withDetails.
  destruct (conv_isGroup (Conversations.doc c)).
  - intros H. inversion H. reflexivity.
  - destruct (filter _ _) as [|o os]; [discriminate|].
    destruct (get_user s (cm_memberId o)); [|discriminate].
    intros H. inversion H. reflexivity.
Qed.

Lemma details_of_kept s u l :
  map Conversations.conversation (non_null (map (Conversations.withDetails s u) l))
  = filter (hasDetails s u) l.
Proof.
  induction l as [|c l IH]; simpl; [reflexivity|].
  unfold hasDetails at 1.
  destruct (Conversations.withDetails s u c) as [d|] eqn:Hd; simpl.
  - rewrite (withDetails_conversation _ _ _ _ Hd). now rewrite IH.
  - exact IH.
Qed.

Lemma withTimestamp_time s m c :
  Conversations.withTimestamp s m = Some c ->
  Conversations.lastMessageTimestamp c = lastMessageTime s (Conversations.doc c).
Proof.
  unfold Conversations.withTimestamp, lastMessageTime.
  destruct (get_conversation s (cm_conversationId m)) as [conv|]; [|discriminate].
  intros H. inversion H. reflexivity.
Qed.

Lemma non_null_In {A} (l : list (option A)) (x : A) : In x (non_null l) <-> In (Some x) l.
Proof.
  induction l as [|[y|] l IH]; simpl.
  - reflexivity.
  - rewrite IH. split; intros [H|H]; auto; left; congruence.
  - rewrite IH. split; [auto|]. intros [H|H]; [discriminate|auto].
Qed.

Lemma filteredConversations_time s u c :
  In c (Conversations.filteredConversations s u) ->
  Conversations.lastMessageTimestamp c = lastMessageTime s (Conversations.doc c).
Proof.
  unfold Conversations.filteredConversations. intros H.
  apply non_null_In in H. apply in_map_iff in H. destruct H as (m & Hm & _).
  now apply withTimestamp_time in Hm.
Qed.

Lemma filter_swap {A} (p q : A -> bool) (l : list A) :
  filter p (filter q l) = filter q (filter p l).
Proof.
  induction l as [|x l IH]; simpl; [reflexivity|].
  destruct (p x) eqn:Hp, (q x) eqn:Hq; simpl; rewrite ?Hp, ?Hq, IH; reflexivity.
Qed.

(** C2: [conversations.get] always returns a list, and the list is sorted by
    last-message time, newest first, where the time of a conversation is the
    creation time of the message its [lastMessageId] points to and 0 when
    there is no such message.  Ties are stable: the entries that share a
    time appear in the order of the caller's membership rows. *)
Theorem get_sorted_by_last_message :
  forall ctx : QueryCtx,
    exists result,
      Conversations.get ctx = Ok result /\
      StronglySorted newerFirst (map Conversations.conversation result) /\
      Forall (fun d =>
                Conversations.lastMessageTimestamp (Conversations.conversation d)
                = lastMessageTime (db ctx) (Conversations.doc (Conversations.conversation d)))
             result /\
      (forall currentUser t,
          callerIs (auth ctx) (db ctx) currentUser ->
          filter (atTime t) (map Conversations.conversation result)
          = filter (atTime t)
              (filter (hasDetails (db ctx) currentUser)
                 (Conversations.filteredConversations (db ctx) currentUser))).
Proof.
  intros [a s]. unfold Conversations.get, Conversations.get_body, callerIs. simpl.
  destruct a as [identity|].
  2:{ exists []. repeat split; try constructor.
      intros u t (i & Hi & _). discriminate. }
  destruct (getUserByClerkId s (subject identity)) as [u|] eqn:Hu.
  2:{ exists []. repeat split; try constructor.
      intros u t (i & Hi & Hu'). inversion Hi; subst. congruence. }
  eexists. split; [reflexivity|]. rewrite details_of_kept. repeat split.
  - apply StronglySorted_filter with (key := Conversations.lastMessageTimestamp).
    apply array_sort_sorted with (key := Conversations.lastMessageTimestamp).
  - apply Forall_forall. intros d Hd.
    apply non_null_In in Hd. apply in_map_iff in Hd. destruct Hd as (c & Hc & Hin).
    rewrite (withDetails_conversation _ _ _ _ Hc).
    apply (proj1 (array_sort_In _ Conversations.lastMessageTimestamp _ _)) in Hin.
    now apply filteredConversations_time in Hin.
  - intros u' t (i & Hi & Hu'). inversion Hi; subst i.
    assert (u' = u) by congruence. subst u'.
    unfold atTime. rewrite !(filter_swap _ (hasDetails s u)). f_equal.
    apply (array_sort_stable _ Conversations.lastMessageTimestamp).
Qed.

(** ** User name matching in [createByUsername] *)

Open Scope N_scope.








Lemma remove_shield_vs_pair a b rest :
  remove_shield_vs (a :: b :: rest)
  = if (a =? SHIELD) && (b =? VS16) then remove_shield_vs rest
    else a :: remove_shield_vs (b :: rest).
Proof. reflexivity. Qed.









Lemma matchesUsername_cases n u :
  matchesUsername n u = true ->
  toLowerCase (user_username u) = n
  \/ (exists suffix, In suffix [shield_vs; shield; crown] /\
                     toLowerCase (user_username u) = n ++ suffix)
  \/ getCleanUsername (user_username u) = n.
Proof.
  unfold matchesUsername.
  destruct (ustring_eqb (toLowerCase (user_username u)) n) eqn:H1.
  { intros _. left. now apply ustring_eqb_eq. }
  destruct (ustring_eqb (toLowerCase (user_username u)) (n ++ shield_vs)) eqn:H2.
  { intros _. right. left. exists shield_vs. split; [simpl; auto|now apply ustring_eqb_eq]. }
  destruct (ustring_eqb (toLowerCase (user_username u)) (n ++ shield)) eqn:H3.
  { intros _. right. left. exists shield. split; [simpl; auto|now apply ustring_eqb_eq]. }
  destruct (ustring_eqb (toLowerCase (user_username u)) (n ++ crown)) eqn:H4.
  { intros _. right. left. exists crown. split; [simpl; auto|now apply ustring_eqb_eq]. }
  simpl. intros H. right. right. now apply ustring_eqb_eq.
Qed.

Close Scope N_scope.



(** ** Pending requests *)

Lemma linked_refl a b : linked a b a b = true.
Proof. unfold linked. now rewrite !Nat.eqb_refl. Qed.

Lemma linked_sym a b x y : linked a b x y = linked b a x y.
Proof. unfold linked. apply orb_comm. Qed.

Lemma linked_swap a b x y : linked a b x y = linked a b y x.
Proof.
  unfold linked. rewrite orb_comm. f_equal; apply andb_comm.
Qed.

Lemma requests_between_sym s a b : requests_between s a b = requests_between s b a.
Proof.
  unfold requests_between. apply filter_ext. intros r. apply linked_sym.
Qed.

Lemma friendships_between_sym s a b : friendships_between s a b = friendships_between s b a.
Proof.
  unfold friendships_between. apply filter_ext. intros r. apply linked_sym.
Qed.

Lemma filter_filter_implied {A} (p q : A -> bool) (l : list A) :
  (forall x, p x = true -> q x = true) ->
  filter p (filter q l) = filter p l.
Proof.
  intros H. induction l as [|x l IH]; simpl; [reflexivity|].
  destruct (q x) eqn:Hq; simpl.
  - now rewrite IH.
  - destruct (p x) eqn:Hp; [|exact IH].
    apply H in Hp. congruence.
Qed.

Lemma requests_by_pair_between s a b :
  requests_by_senderId_receiverId s a b
  = filter (fun r => (req_senderId r =? a) && (req_receiverId r =? b))
           (requests_between s a b).
Proof.
  unfold requests_by_senderId_receiverId, requests_between.
  symmetry. apply filter_filter_implied.
  intros r Hr. unfold linked. now rewrite Hr.
Qed.

Lemma friendships_by_pair_between s a b :
  friendships_by_userIds s a b
  = filter (fun f => (fr_userId1 f =? a) && (fr_userId2 f =? b))
           (friendships_between s a b).
Proof.
  unfold friendships_by_userIds, friendships_between.
  symmetry. apply filter_filter_implied.
  intros r Hr. unfold linked. now rewrite Hr.
Qed.

(** Under the data model's rule a request is the only one between its two
    users. *)
Lemma pending_unique s r :
  requests_ok s -> In r (requests s) ->
  requests_between s (req_senderId r) (req_receiverId r) = [r].
Proof.
  intros Hok Hin. destruct (Hok r Hin) as [Hlen _].
  assert (Hr : In r (requests_between s (req_senderId r) (req_receiverId r))).
  { apply filter_In. split; [exact Hin|apply linked_refl]. }
  destruct (requests_between s (req_senderId r) (req_receiverId r)) as [|x [|y l]].
  - destruct Hr.
  - destruct Hr as [->|[]]. reflexivity.
  - simpl in Hlen. lia.
Qed.

Lemma sendRequest_already_sent s currentUser receiver r :
  requests_ok s -> In r (requests s) ->
  req_senderId r = user_id currentUser ->
  req_receiverId r = user_id receiver ->
  Requests.sendRequest currentUser receiver s
  = (s, Throw (ConvexError "Request already sent")).
Proof.
  intros Hok Hin Hs Hr. unfold Requests.sendRequest, bind, gets.
  rewrite requests_by_pair_between, <- Hs, <- Hr, (pending_unique _ _ Hok Hin).
  simpl. rewrite !Nat.eqb_refl. reflexivity.
Qed.

Lemma sendRequest_already_received s currentUser receiver r :
  requests_ok s -> In r (requests s) ->
  req_senderId r = user_id receiver ->
  req_receiverId r = user_id currentUser ->
  user_id currentUser <> user_id receiver ->
  Requests.sendRequest currentUser receiver s
  = (s, Throw (ConvexError "This user has already sent you a request")).
Proof.
  intros Hok Hin Hs Hr Hne.
  assert (H1 : requests_by_senderId_receiverId s (user_id currentUser) (user_id receiver)
               = []).
  { rewrite requests_by_pair_between, requests_between_sym.
    rewrite <- Hs, <- Hr, (pending_unique _ _ Hok Hin). simpl.
    replace (req_senderId r =? req_receiverId r) with false
      by (symmetry; apply Nat.eqb_neq; congruence).
    reflexivity. }
  assert (H2 : requests_by_senderId_receiverId s (user_id receiver) (user_id currentUser)
               = [r]).
  { rewrite requests_by_pair_between.
    rewrite <- Hs, <- Hr, (pending_unique _ _ Hok Hin). simpl.
    now rewrite !Nat.eqb_refl. }
  unfold Requests.sendRequest, bind, gets. rewrite H1. simpl. rewrite H2. reflexivity.
Qed.

(** C5: when a request between A and B is stored, in either direction, a
    call by A to [create] or to [createByUsername] whose receiver resolves to
    B fails with the tagged error [Request already sent] when the stored
    request goes from A to B, and with [This user has already sent you a
    request] when it goes from B to A; the store, hence the requests table,
    is left as it was. *)
Theorem pending_request_blocks_new_request :
  forall (auth : option Identity) (s : Db) (A B : User) (r : Request),
    requests_ok s ->
    callerIs auth s A ->
    In r (requests s) ->
    (req_senderId r = user_id A /\ req_receiverId r = user_id B) \/
    (req_senderId r = user_id B /\ req_receiverId r = user_id A) ->
    let message :=
      if req_senderId r =? user_id A then "Request already sent"
      else "This user has already sent you a request" in
    (forall email,
        isEmpty (trim email) = false ->
        (forall identity, auth = Some identity -> Requests.isOwnEmail email identity = false) ->
        users_by_email s email = [B] ->
        Requests.create auth email s = (s, Throw (ConvexError message))) /\
    (forall username,
        usernameRegex_test username = true ->
        isEmpty (trim username) = false ->
        ustring_eqb (toLowerCase (user_username A)) (toLowerCase username)
        || ustring_eqb (getCleanUsername (user_username A)) (toLowerCase username)
        = false ->
        find (matchesUsername (toLowerCase username)) (users s) = Some B ->
        Requests.createByUsername auth username s = (s, Throw (ConvexError message))).
Proof.
  intros auth s A B r Hok (identity & -> & Hu) Hin Hdir message.
  assert (Hsend : Requests.sendRequest A B s = (s, Throw (ConvexError message))).
  { subst message. destruct (req_senderId r =? user_id A) eqn:Hsa.
    - apply Nat.eqb_eq in Hsa.
      apply (sendRequest_already_sent _ _ _ _ Hok Hin Hsa).
      destruct Hdir as [[_ H]|[H1 H2]]; congruence.
    - apply Nat.eqb_neq in Hsa.
      destruct Hdir as [[H _]|[H1 H2]]; [contradiction|].
      apply (sendRequest_already_received _ _ _ _ Hok Hin H1 H2). congruence. }
  split.
  - intros email Hemail Hown Hrecv.
    unfold Requests.create. rewrite Hemail, (Hown identity eq_refl).
    unfold bind, gets. rewrite Hu, Hrecv. simpl. exact Hsend.
  - intros username Hre Htrim Hself Hfind.
    unfold Requests.createByUsername, bind, gets.
    rewrite Hu, Htrim, Hre. simpl. rewrite Hself, Hfind. exact Hsend.
Qed.

Lemma pending_request_blocks_new_request_witness :
  Requests.create (Some alice_id) (str "bob@example.com") pending_db
  = (pending_db, Throw (ConvexError "Request already sent")) /\
  Requests.createByUsername (Some bob_id) (str "Alice") pending_db
  = (pending_db, Throw (ConvexError "This user has already sent you a request")).
Proof.
  assert (Hok : requests_ok pending_db).
  { intros r [<-|[]]. split; [simpl; lia|reflexivity]. }
  split.
  - apply (proj1 (pending_request_blocks_new_request (Some alice_id) pending_db
                    alice bob alice_to_bob Hok
                    (ex_intro _ alice_id (conj eq_refl eq_refl))
                    (or_introl eq_refl)
                    (or_introl (conj eq_refl eq_refl)))).
    + reflexivity.
    + intros identity H. inversion H. reflexivity.
    + reflexivity.
  - apply (proj2 (pending_request_blocks_new_request (Some bob_id) pending_db
                    bob alice alice_to_bob Hok
                    (ex_intro _ bob_id (conj eq_refl eq_refl))
                    (or_introl eq_refl)
                    (or_intror (conj eq_refl eq_refl)))); reflexivity.
Defined.

(** ** [requests.accept] *)

Lemma find_after_delete {A} (key : A -> Id) (id : Id) (rows : list A) :
  find (fun x => key x =? id) (filter (fun x => negb (key x =? id)) rows) = None.
Proof.
  induction rows as [|x rows IH]; simpl; [reflexivity|].
  destruct (key x =? id) eqn:Hk; simpl; [exact IH|].
  now rewrite Hk.
Qed.

Lemma existsb_of_In {A} (key : A -> Id) (rows : list A) (x : A) :
  In x rows -> existsb (fun y => key y =? key x) rows = true.
Proof.
  intros H. apply existsb_exists. exists x. split; [exact H|apply Nat.eqb_refl].
Qed.

Lemma no_members_of_fresh s :
  wf s -> members_by_conversationId s (nextId s) = [].
Proof.
  intros Hwf. unfold members_by_conversationId.
  pose proof (wf_member_refs s Hwf) as Href.
  induction Href as [|m ms Hm _ IH]; simpl; [reflexivity|].
  replace (cm_conversationId m =? nextId s) with false; [exact IH|].
  symmetry. apply Nat.eqb_neq. lia.
Qed.

Lemma fresh_conversation_id s :
  wf s -> ~ In (nextId s) (map conv_id (conversations s)).
Proof.
  intros Hwf Hin. destruct (wf_conversations s Hwf) as [_ Hlt].
  rewrite Forall_forall in Hlt. specialize (Hlt _ Hin). lia.
Qed.

Lemma accept_run auth s u id r :
  callerIs auth s u ->
  get_request s id = Some r ->
  req_receiverId r = user_id u ->
  Requests.accept auth id s = (accepted s u r, Ok (mkSuccess true)).
Proof.
  intros Hu Hget Hrecv.
  pose proof (get_request_In _ _ _ Hget) as Hin.
  unfold Requests.accept. unfold bind at 1.
  rewrite (currentUserOrThrow_ok _ _ _ _ Hu).
  unfold bind at 1. unfold gets at 1. rewrite Hget, Hrecv, Nat.eqb_refl.
  cbn [negb]. unfold bind, ret, insert_conversation, insert_friendship, insert_member,
    delete_request. cbn [requests].
  rewrite (existsb_of_In req_id _ _ Hin). cbn. unfold accepted.
  now rewrite <- app_assoc.
Qed.

(** C1: when the receiver B of a stored request from A accepts it, the call
    succeeds and its result state contains exactly one friendship row for A
    and B, one conversation more than before -- a direct one, with a fresh id
    -- with exactly two membership rows, one for B and one for A, and no
    request row with the accepted id.  The store is assumed to satisfy the
    data model's rules ([Inv]). *)
Theorem accept_creates_friendship_and_conversation :
  forall (auth : option Identity) (s : Db) (B : User) (id : Id) (r : Request),
    Inv s ->
    callerIs auth s B ->
    get_request s id = Some r ->
    req_receiverId r = user_id B ->
    let A := req_senderId r in
    let c := mkConversation (nextId s) false None None None None in
    let s' := accepted s B r in
    Requests.accept auth id s = (s', Ok (mkSuccess true)) /\
    List.length (friendships_between s' A (user_id B)) = 1 /\
    conversations s' = conversations s ++ [c] /\
    ~ In (conv_id c) (map conv_id (conversations s)) /\
    map cm_memberId (members_by_conversationId s' (conv_id c)) = [user_id B; A] /\
    get_request s' id = None /\
    (forall r', In r' (requests s') -> req_id r' <> id).
Proof.
  intros auth s B id r [Hwf Hok] HB Hget Hrecv A c s'.
  pose proof (get_request_In _ _ _ Hget) as Hin.
  pose proof (get_request_id _ _ _ Hget) as Hid.
  split; [now apply accept_run|].
  subst s' c. unfold accepted.
  cbn [friendships conversations conversationMembers requests conv_id].
  refine (conj _ (conj eq_refl (conj (fresh_conversation_id _ Hwf) (conj _ (conj _ _))))).
  - unfold friendships_between. cbn [friendships]. rewrite filter_app.
    fold (friendships_between s A (user_id B)).
    destruct (Hok r Hin) as [_ Hnone]. fold A in Hnone. rewrite Hrecv in Hnone.
    rewrite Hnone. simpl. rewrite linked_swap, linked_refl. reflexivity.
  - unfold members_by_conversationId. cbn [conversationMembers].
    rewrite filter_app. fold (members_by_conversationId s (nextId s)).
    rewrite (no_members_of_fresh _ Hwf). simpl. rewrite Nat.eqb_refl. reflexivity.
  - unfold get_request. cbn [requests]. rewrite Hid. apply find_after_delete.
  - intros r' Hr'. apply filter_In in Hr'. destruct Hr' as [_ Hne].
    apply negb_true_iff, Nat.eqb_neq in Hne. congruence.
Qed.

Ltac solve_table :=
  split;
  [ repeat constructor; simpl; intuition (try discriminate; try lia)
  | repeat constructor; simpl; lia ].

Ltac solve_wf :=
  constructor; try solve_table; repeat constructor; simpl; lia.

Lemma accept_creates_friendship_and_conversation_witness :
  Requests.accept (Some bob_id) 30 pending_db
  = (mkDb [alice; bob; carol]
          [mkConversation 31 false None None None None]
          [mkMember 33 2 31; mkMember 34 1 31] [] []
          [mkFriendship 32 2 1 "accepted"] 35,
     Ok (mkSuccess true)).
Proof.
  assert (Hinv : Inv pending_db).
  { split.
    - solve_wf.
    - intros r [<-|[]]. split; [simpl; lia|reflexivity]. }
  exact (proj1 (accept_creates_friendship_and_conversation (Some bob_id) pending_db
                  bob 30 alice_to_bob Hinv
                  (ex_intro _ bob_id (conj eq_refl eq_refl)) eq_refl eq_refl)).
Defined.

(** ** Deleting and leaving a group *)

Lemma filter_filter {A} (p q : A -> bool) (l : list A) :
  filter p (filter q l) = filter (fun x => q x && p x) l.
Proof.
  induction l as [|x l IH]; simpl; [reflexivity|].
  destruct (q x); simpl; [destruct (p x)|]; now rewrite IH.
Qed.

Lemma NoDup_key_inj {A} (key : A -> Id) (l : list A) (x y : A) :
  NoDup (map key l) -> In x l -> In y l -> key x = key y -> x = y.
Proof.
  induction l as [|z l IH]; simpl; intros Hnd Hx Hy Hk; [contradiction|].
  inversion Hnd as [|? ? Hnot Hnd']; subst.
  destruct Hx as [->|Hx], Hy as [->|Hy]; auto.
  - exfalso. apply Hnot. rewrite Hk. now apply in_map.
  - exfalso. apply Hnot. rewrite <- Hk. now apply in_map.
Qed.

(** Removing, by id, the rows selected by [p] leaves the rows not selected. *)
Lemma delete_selected {A} (key : A -> Id) (p : A -> bool) (l : list A) :
  NoDup (map key l) ->
  filter (fun x => negb (existsb (Nat.eqb (key x)) (map key (filter p l)))) l
  = filter (fun x => negb (p x)) l.
Proof.
  intros Hnd. apply filter_ext_in. intros x Hx. f_equal.
  destruct (p x) eqn:Hp.
  - apply existsb_exists. exists (key x). split; [|apply Nat.eqb_refl].
    apply in_map. apply filter_In. auto.
  - apply not_true_is_false. intros H. apply existsb_exists in H.
    destruct H as (k & Hk & Heq). apply Nat.eqb_eq in Heq. subst k.
    apply in_map_iff in Hk. destruct Hk as (y & Hky & Hy).
    apply filter_In in Hy. destruct Hy as [Hy Hpy].
    assert (y = x) by (eapply NoDup_key_inj; eauto). subst y. congruence.
Qed.

Lemma NoDup_map_filter {A} (key : A -> Id) (p : A -> bool) (l : list A) :
  NoDup (map key l) -> NoDup (map key (filter p l)).
Proof.
  induction l as [|x l IH]; simpl; intros Hnd; [constructor|].
  inversion Hnd as [|? ? Hnot Hnd']; subst.
  destruct (p x); simpl; [|auto].
  constructor; [|auto]. intros Hin. apply Hnot.
  apply in_map_iff in Hin. destruct Hin as (y & Hy & Hin).
  apply filter_In in Hin. rewrite <- Hy. apply in_map. tauto.
Qed.

Lemma db_eta s :
  mkDb (users s) (conversations s) (conversationMembers s) (messages s) (requests s)
       (friendships s) (nextId s) = s.
Proof. now destruct s. Qed.

Lemma filter_all {A} (l : list A) : filter (fun _ => true) l = l.
Proof. induction l; simpl; congruence. Qed.

(** The first loop of [deleteGroupHandler]. *)
Lemma delete_members_loop :
  forall (rows : list ConversationMember) (s : Db),
    NoDup (map cm_id rows) ->
    (forall m, In m rows -> In m (conversationMembers s)) ->
    for_of rows (fun member => delete_member (cm_id member)) s
    = (without_members s (map cm_id rows), Ok tt).
Proof.
  induction rows as [|x rows IH]; intros s Hnd Hin.
  - simpl. unfold ret, without_members. simpl. now rewrite filter_all, db_eta.
  - inversion Hnd as [|? ? Hnot Hnd']; subst.
    cbn [for_of]. unfold bind. unfold delete_member at 1.
    rewrite (existsb_of_In cm_id _ _ (Hin x (or_introl eq_refl))).
    rewrite IH; [| exact Hnd' |].
    + unfold without_members. cbn [users conversations conversationMembers messages
        requests friendships nextId map existsb].
      rewrite filter_filter. do 2 f_equal.
      apply filter_ext. intros m. rewrite negb_orb, (Nat.eqb_sym (cm_id m)).
      reflexivity.
    + intros m Hm. cbn [conversationMembers]. apply filter_In. split.
      * apply Hin. now right.
      * apply negb_true_iff, Nat.eqb_neq. intros Heq. apply Hnot.
        rewrite <- Heq. now apply in_map.
Qed.

(** The second loop of [deleteGroupHandler]. *)
Lemma delete_messages_loop :
  forall (rows : list Message) (s : Db),
    NoDup (map msg_id rows) ->
    (forall m, In m rows -> In m (messages s)) ->
    for_of rows (fun message => delete_message (msg_id message)) s
    = (without_messages s (map msg_id rows), Ok tt).
Proof.
  induction rows as [|x rows IH]; intros s Hnd Hin.
  - simpl. unfold ret, without_messages. simpl. now rewrite filter_all, db_eta.
  - inversion Hnd as [|? ? Hnot Hnd']; subst.
    cbn [for_of]. unfold bind. unfold delete_message at 1.
    rewrite (existsb_of_In msg_id _ _ (Hin x (or_introl eq_refl))).
    rewrite IH; [| exact Hnd' |].
    + unfold without_messages. cbn [users conversations conversationMembers messages
        requests friendships nextId map existsb].
      rewrite filter_filter. do 2 f_equal.
      apply filter_ext. intros m. rewrite negb_orb, (Nat.eqb_sym (msg_id m)).
      reflexivity.
    + intros m Hm. cbn [messages]. apply filter_In. split.
      * apply Hin. now right.
      * apply negb_true_iff, Nat.eqb_neq. intros Heq. apply Hnot.
        rewrite <- Heq. now apply in_map.
Qed.

Lemma deleteGroupHandler_spec s cid c :
  wf s -> get_conversation s cid = Some c ->
  Conversations.deleteGroupHandler cid s = (deleted_group s cid, Ok (mkSuccess true)).
Proof.
  intros Hwf Hget.
  destruct (wf_members s Hwf) as [Hnd_m _]. destruct (wf_messages s Hwf) as [Hnd_x _].
  unfold Conversations.deleteGroupHandler.
  unfold bind at 1. unfold gets at 1. unfold bind at 1.
  rewrite delete_members_loop.
  2:{ now apply NoDup_map_filter. }
  2:{ intros m Hm. unfold members_by_conversationId in Hm. apply filter_In in Hm. tauto. }
  unfold bind at 1. unfold gets at 1. unfold bind at 1.
  rewrite delete_messages_loop.
  2:{ now apply NoDup_map_filter. }
  2:{ intros m Hm. unfold messages_by_conversationId in Hm. apply filter_In in Hm. tauto. }
  unfold bind, delete_conversation, ret, without_messages, without_members.
  cbn [users conversations conversationMembers messages requests friendships nextId].
  pose proof (get_conversation_In _ _ _ Hget) as Hin.
  pose proof (get_conversation_id _ _ _ Hget) as Hid.
  replace (existsb (fun c0 => conv_id c0 =? cid) (conversations s)) with true
    by (symmetry; rewrite <- Hid; apply (existsb_of_In conv_id _ _ Hin)).
  unfold deleted_group, members_by_conversationId, messages_by_conversationId.
  cbn [users conversations conversationMembers messages requests friendships nextId].
  rewrite (delete_selected cm_id _ _ Hnd_m), (delete_selected msg_id _ _ Hnd_x).
  reflexivity.
Qed.

Lemma filter_nil_of_deleted {A} (p : A -> bool) (l : list A) :
  filter p (filter (fun x => negb (p x)) l) = [].
Proof.
  induction l as [|x l IH]; simpl; [reflexivity|].
  destruct (p x) eqn:Hp; simpl; [exact IH|]. now rewrite Hp.
Qed.

Lemma find_patched (f : Conversation -> Conversation) cid (l : list Conversation) c :
  (forall x, conv_id (f x) = conv_id x) ->
  find (fun x => conv_id x =? cid) l = Some c ->
  find (fun x => conv_id x =? cid)
       (map (fun x => if conv_id x =? cid then f x else x) l) = Some (f c).
Proof.
  intros Hf. induction l as [|x l IH]; simpl; [discriminate|].
  destruct (conv_id x =? cid) eqn:Hx.
  - intros H. inversion H; subst. rewrite Hf, Hx. reflexivity.
  - rewrite Hx. exact IH.
Qed.

(** X25: the creator of a group, holding exactly one membership row
    in it, leaves.  When no other member has a row in the group, the call
    deletes the conversation with all its membership and message rows.
    Otherwise the call makes the first other member, in scan order, the
    creator and deletes the leaver's row: afterwards the stored creator has a
    membership row in the group and the leaver has none. *)
Theorem leaveGroup_by_creator :
  forall (auth : option Identity) (s : Db) (u : User) (conversationId : Id)
         (c : Conversation) (membership : ConversationMember),
    wf s ->
    callerIs auth s u ->
    get_conversation s conversationId = Some c ->
    conv_isGroup c = true ->
    conv_creatorId c = Some (user_id u) ->
    members_by_memberId_conversationId s (user_id u) conversationId = [membership] ->
    match otherMembers s conversationId (user_id u) with
    | [] =>
        let s' := deleted_group s conversationId in
        Conversations.leaveGroup auth conversationId s = (s', Ok (mkSuccess true)) /\
        get_conversation s' conversationId = None /\
        members_by_conversationId s' conversationId = [] /\
        messages_by_conversationId s' conversationId = []
    | first :: _ =>
        let s' := handed_over s conversationId (cm_memberId first) membership in
        Conversations.leaveGroup auth conversationId s = (s', Ok (mkSuccess true)) /\
        (exists c', get_conversation s' conversationId = Some c' /\
                    conv_creatorId c' = Some (cm_memberId first)) /\
        members_by_memberId_conversationId s' (cm_memberId first) conversationId <> [] /\
        members_by_memberId_conversationId s' (user_id u) conversationId = []
    end.
Proof.
  intros auth s u cid c membership Hwf Hu Hget Hgroup Hcreator Hmember.
  assert (Hrun : Conversations.leaveGroup auth cid s
    = match otherMembers s cid (user_id u) with
      | [] => (deleted_group s cid, Ok (mkSuccess true))
      | first :: _ =>
          (handed_over s cid (cm_memberId first) membership, Ok (mkSuccess true))
      end).
  { unfold Conversations.leaveGroup, try_catch. unfold bind at 1.
    rewrite (currentUserOrThrow_ok _ _ _ _ Hu).
    unfold bind at 1. unfold gets at 1. rewrite Hget, Hgroup. cbn [negb].
    unfold bind at 1. unfold bind at 1. unfold gets at 1. rewrite Hmember.
    cbn [unique]. unfold ret at 1.
    unfold creatorIs. rewrite Hcreator, Nat.eqb_refl.
    unfold bind at 1. unfold gets at 1. fold (otherMembers s cid (user_id u)).
    destruct (otherMembers s cid (user_id u)) as [|first rest] eqn:Hothers.
    - unfold bind. rewrite (deleteGroupHandler_spec _ _ _ Hwf Hget). reflexivity.
    - unfold bind, gets. rewrite Hget. unfold patch_conversation. rewrite Hget.
      unfold delete_member. cbn [conversationMembers].
      assert (Hin : In membership (conversationMembers s)).
      { assert (H : In membership (members_by_memberId_conversationId s (user_id u) cid))
          by (rewrite Hmember; now left).
        unfold members_by_memberId_conversationId in H. apply filter_In in H. tauto. }
      rewrite (existsb_of_In cm_id _ _ Hin). reflexivity. }
  rewrite Hrun.
  destruct (otherMembers s cid (user_id u)) as [|first rest] eqn:Hothers.
  - cbv zeta. refine (conj eq_refl (conj _ (conj _ _))).
    + unfold get_conversation, deleted_group. cbn [conversations].
      apply find_after_delete.
    + unfold members_by_conversationId, deleted_group. cbn [conversationMembers].
      apply filter_nil_of_deleted.
    + unfold messages_by_conversationId, deleted_group. cbn [messages].
      apply filter_nil_of_deleted.
  - cbv zeta. refine (conj eq_refl (conj _ (conj _ _))).
    + exists (set_creatorId (cm_memberId first) c). split; [|reflexivity].
      unfold get_conversation, handed_over. cbn [conversations].
      apply find_patched; [reflexivity|exact Hget].
    + assert (Hfirst : In first (otherMembers s cid (user_id u)))
        by (rewrite Hothers; now left).
      unfold otherMembers, members_by_conversationId in Hfirst.
      apply filter_In in Hfirst. destruct Hfirst as [Hfirst Hneq].
      apply filter_In in Hfirst. destruct Hfirst as [Hin Hconv].
      assert (Hm : In membership (members_by_memberId_conversationId s (user_id u) cid))
        by (rewrite Hmember; now left).
      unfold members_by_memberId_conversationId in Hm. apply filter_In in Hm.
      destruct Hm as [Hmin Hmu]. apply andb_true_iff in Hmu. destruct Hmu as [Hmu _].
      apply Nat.eqb_eq in Hmu. apply negb_true_iff, Nat.eqb_neq in Hneq.
      assert (Hid : cm_id first <> cm_id membership).
      { intros Heq. destruct (wf_members s Hwf) as [Hnd _].
        assert (first = membership) by (eapply NoDup_key_inj; eauto).
        subst first. contradiction. }
      intros Hnil.
      assert (Hin' : In first (members_by_memberId_conversationId
                (handed_over s cid (cm_memberId first) membership) (cm_memberId first) cid)).
      { unfold members_by_memberId_conversationId, handed_over. cbn [conversationMembers].
        apply filter_In. split.
        - apply filter_In. split; [exact Hin|].
          apply negb_true_iff, Nat.eqb_neq. exact Hid.
        - now rewrite Nat.eqb_refl, Hconv. }
      rewrite Hnil in Hin'. destruct Hin'.
    + unfold members_by_memberId_conversationId, handed_over. cbn [conversationMembers].
      rewrite filter_swap.
      fold (members_by_memberId_conversationId s (user_id u) cid). rewrite Hmember.
      simpl. now rewrite Nat.eqb_refl.
Qed.

Lemma leaveGroup_by_creator_witness :
  Conversations.leaveGroup (Some alice_id) 10 solo_db
  = (mkDb [alice; bob; carol] [] [] [] [] [] 20, Ok (mkSuccess true)) /\
  Conversations.leaveGroup (Some alice_id) 10 group_db
  = (mkDb [alice; bob; carol]
          [mkConversation 10 true (Some "team") None (Some 2) None]
          [mkMember 12 2 10] [] [] [] 20,
     Ok (mkSuccess true)).
Proof.
  split.
  - assert (Hwf : wf solo_db) by solve_wf.
    exact (proj1 (leaveGroup_by_creator (Some alice_id) solo_db alice 10 team
                    (mkMember 11 1 10) Hwf
                    (ex_intro _ alice_id (conj eq_refl eq_refl))
                    eq_refl eq_refl eq_refl eq_refl)).
  - assert (Hwf : wf group_db) by solve_wf.
    exact (proj1 (leaveGroup_by_creator (Some alice_id) group_db alice 10 team
                    (mkMember 11 1 10) Hwf
                    (ex_intro _ alice_id (conj eq_refl eq_refl))
                    eq_refl eq_refl eq_refl eq_refl)).
Defined.

(** C4: the failing input, a sole member who holds two membership rows.
    [createGroup] adds a row for every listed id, so a creator who lists
    their own id holds two rows in the new group and is its sole member.
    When this creator leaves, the lookup of the leaver's row with [unique]
    fails: the call ends with an error and the group, with its rows, is
    still there, where the sole member's leaving should have deleted it. *)
Lemma leaveGroup_sole_creator_with_two_rows :
  doubled_db
  = mkDb [alice; bob; carol]
         [mkConversation 10 true (Some "solo") None (Some 1) None]
         [mkMember 11 1 10; mkMember 12 1 10] [] [] [] 13 /\
  otherMembers doubled_db 10 (user_id alice) = [] /\
  Conversations.leaveGroup (Some alice_id) 10 doubled_db
  = (doubled_db, Throw (ConvexError "Failed to leave group")) /\
  get_conversation (fst (mutation (Conversations.leaveGroup (Some alice_id) 10) doubled_db)) 10
  = Some (mkConversation 10 true (Some "solo") None (Some 1) None).
Proof. repeat split. Qed.


(** ** The store invariant is kept by every mutation *)

Lemma post_ret {A} (a : A) s (Q : A -> Db -> Prop) : Q a s -> post (ret a) s Q.
Proof. auto. Qed.

Lemma post_throw {A} e s (Q : A -> Db -> Prop) : post (throw e) s Q.
Proof. exact I. Qed.

Lemma post_gets {A} (f : Db -> A) s (Q : A -> Db -> Prop) : Q (f s) s -> post (gets f) s Q.
Proof. auto. Qed.

Lemma post_bind {A B} (m : M A) (k : A -> M B) s (Q : B -> Db -> Prop) :
  post m s (fun a s' => post (k a) s' Q) -> post (bind m k) s Q.
Proof.
  unfold post, bind. destruct (m s) as [s' [a|e]]; auto.
Qed.

Lemma post_rethrow {A} (m : M A) e s (Q : A -> Db -> Prop) :
  post m s Q -> post (try_catch m (fun _ => throw e)) s Q.
Proof.
  unfold post, try_catch, throw. destruct (m s) as [s' [a|e']]; auto.
Qed.

Lemma post_unique {A} (rows : list A) s (Q : option A -> Db -> Prop) :
  (forall x, (x = None /\ rows = [] \/ exists r, x = Some r /\ rows = [r]) -> Q x s) ->
  post (unique rows) s Q.
Proof.
  intros H. destruct rows as [|x [|y l]]; cbn.
  - apply H. auto.
  - apply H. right. eauto.
  - exact I.
Qed.

Lemma post_for_of {A} (xs : list A) (body : A -> M unit) (P : Db -> Prop) :
  (forall x s, P s -> post (body x) s (fun _ s' => P s')) ->
  forall s, P s -> post (for_of xs body) s (fun _ s' => P s').
Proof.
  intros Hbody. induction xs as [|x xs IH]; intros s Hs; cbn [for_of].
  - exact Hs.
  - apply post_bind. specialize (Hbody x s Hs). unfold post in *.
    destruct (body x s) as [s' [[]|e]]; auto. now apply IH.
Qed.

Lemma post_currentUser auth e s (Q : User -> Db -> Prop) :
  (forall u, callerIs auth s u -> Q u s) -> post (currentUserOrThrow auth e) s Q.
Proof.
  intros H. destruct (callerIs_dec auth s) as [[u Hu]|Hno].
  - unfold post. rewrite (currentUserOrThrow_ok _ _ _ e Hu). auto.
  - unfold post. destruct (currentUserOrThrow_fail _ _ e Hno) as [e' ->]. exact I.
Qed.

Lemma post_groupOfCreator cid u denied s (Q : Conversation -> Db -> Prop) :
  (forall c, get_conversation s cid = Some c -> Q c s) ->
  post (groupOfCreator cid u denied) s Q.
Proof.
  intros H. unfold groupOfCreator. apply post_bind, post_gets.
  destruct (get_conversation s cid) as [c|] eqn:Hc; [|exact I].
  destruct (negb (conv_isGroup c)); [exact I|].
  destruct (negb (creatorIs c (user_id u))); [exact I|].
  apply post_ret. auto.
Qed.

(** *** Tables *)

Lemma table_ok_later ids n m : table_ok ids n -> n <= m -> table_ok ids m.
Proof.
  intros [Hnd Hlt] Hle. split; [exact Hnd|].
  eapply Forall_impl; [|exact Hlt]. simpl. intros. lia.
Qed.

Lemma table_ok_snoc ids n : table_ok ids n -> table_ok (ids ++ [n]) (S n).
Proof.
  intros [Hnd Hlt]. split.
  - apply NoDup_app; [exact Hnd|repeat constructor; simpl; tauto|].
    intros x Hx [<-|[]]. rewrite Forall_forall in Hlt. specialize (Hlt _ Hx). lia.
  - apply Forall_app. split.
    + eapply Forall_impl; [|exact Hlt]. simpl. intros. lia.
    + repeat constructor.
Qed.

Lemma table_ok_filter {A} (key : A -> Id) (p : A -> bool) (l : list A) n :
  table_ok (map key l) n -> table_ok (map key (filter p l)) n.
Proof.
  intros [Hnd Hlt]. split.
  - now apply NoDup_map_filter.
  - rewrite Forall_forall in *. intros x Hx. apply Hlt.
    apply in_map_iff in Hx. destruct Hx as (y & <- & Hy).
    apply filter_In in Hy. apply in_map. tauto.
Qed.

Lemma map_snoc {A B} (f : A -> B) (l : list A) (x : A) : map f (l ++ [x]) = map f l ++ [f x].
Proof. now rewrite map_app. Qed.

Lemma table_ok_S ids n : table_ok ids n -> table_ok ids (S n).
Proof. intros H. apply (table_ok_later _ _ _ H). lia. Qed.

Lemma refs_S (l : list ConversationMember) n :
  Forall (fun m => cm_conversationId m < n) l ->
  Forall (fun m => cm_conversationId m < S n) l.
Proof. apply Forall_impl. intros. lia. Qed.

Lemma refs_filter (p : ConversationMember -> bool) (l : list ConversationMember) n :
  Forall (fun m => cm_conversationId m < n) l ->
  Forall (fun m => cm_conversationId m < n) (filter p l).
Proof.
  rewrite !Forall_forall. intros H x Hx. apply H. apply filter_In in Hx. tauto.
Qed.

Ltac wf_fields :=
  unfold insert_conversation, insert_member, insert_request, insert_friendship;
  cbn [fst users conversations conversationMembers messages requests friendships nextId];
  rewrite ?map_snoc;
  cbn [conv_id cm_id req_id fr_id cm_conversationId].

Ltac wf_auto :=
  auto using table_ok_S, table_ok_snoc, table_ok_filter, refs_S, refs_filter.

Lemma wf_insert_conversation isGroup name imageUrl creatorId lastMessageId s :
  wf s -> wf (fst (insert_conversation isGroup name imageUrl creatorId lastMessageId s)).
Proof.
  intros [Hu Hc Hm Hx Hr Hf Href]. constructor; wf_fields; wf_auto.
Qed.

Lemma wf_insert_member cid mid s :
  wf s -> cid < nextId s -> wf (fst (insert_member cid mid s)).
Proof.
  intros [Hu Hc Hm Hx Hr Hf Href] Hlt. constructor; wf_fields; wf_auto.
  apply Forall_app. split; [wf_auto|]. repeat constructor. simpl. lia.
Qed.

Lemma wf_insert_request a b status s : wf s -> wf (fst (insert_request a b status s)).
Proof.
  intros [Hu Hc Hm Hx Hr Hf Href]. constructor; wf_fields; wf_auto.
Qed.

Lemma wf_insert_friendship a b status s : wf s -> wf (fst (insert_friendship a b status s)).
Proof.
  intros [Hu Hc Hm Hx Hr Hf Href]. constructor; wf_fields; wf_auto.
Qed.

Lemma wf_delete_member id s : wf s -> wf (fst (delete_member id s)).
Proof.
  intros Hwf. unfold delete_member. destruct (existsb _ _); [|exact Hwf].
  destruct Hwf as [Hu Hc Hm Hx Hr Hf Href]. constructor; wf_fields; wf_auto.
Qed.

Lemma wf_delete_message id s : wf s -> wf (fst (delete_message id s)).
Proof.
  intros Hwf. unfold delete_message. destruct (existsb _ _); [|exact Hwf].
  destruct Hwf as [Hu Hc Hm Hx Hr Hf Href]. constructor; wf_fields; wf_auto.
Qed.

Lemma wf_delete_conversation id s : wf s -> wf (fst (delete_conversation id s)).
Proof.
  intros Hwf. unfold delete_conversation. destruct (existsb _ _); [|exact Hwf].
  destruct Hwf as [Hu Hc Hm Hx Hr Hf Href]. constructor; wf_fields; wf_auto.
Qed.

Lemma wf_delete_request id s : wf s -> wf (fst (delete_request id s)).
Proof.
  intros Hwf. unfold delete_request. destruct (existsb _ _); [|exact Hwf].
  destruct Hwf as [Hu Hc Hm Hx Hr Hf Href]. constructor; wf_fields; wf_auto.
Qed.

Lemma wf_patch_conversation id f s :
  (forall c, conv_id (f c) = conv_id c) ->
  wf s -> wf (fst (patch_conversation id f s)).
Proof.
  intros Hf Hwf. unfold patch_conversation.
  destruct (get_conversation s id); [|exact Hwf].
  destruct Hwf as [Hu Hc Hm Hx Hr Hfr Href]. constructor; wf_fields; wf_auto.
  rewrite map_map.
  replace (map (fun c => conv_id (if conv_id c =? id then f c else c)) (conversations s))
    with (map conv_id (conversations s)); [exact Hc|].
  apply map_ext. intros x. destruct (conv_id x =? id); auto.
Qed.

(** *** Requests and friendships *)

Lemma requests_ok_frame s s' :
  requests s' = requests s -> friendships s' = friendships s ->
  requests_ok s -> requests_ok s'.
Proof.
  intros Hr Hf Hok r Hin. unfold requests_between, friendships_between.
  rewrite Hr, Hf. apply Hok. now rewrite <- Hr.
Qed.

Lemma between_nil_of_pairs {A} (k1 k2 : A -> Id) (l : list A) a b :
  filter (fun x => (k1 x =? a) && (k2 x =? b)) l = [] ->
  filter (fun x => (k1 x =? b) && (k2 x =? a)) l = [] ->
  filter (fun x => linked a b (k1 x) (k2 x)) l = [].
Proof.
  induction l as [|x l IH]; simpl; [reflexivity|].
  unfold linked at 1.
  destruct ((k1 x =? a) && (k2 x =? b)); [discriminate|].
  destruct ((k1 x =? b) && (k2 x =? a)); [discriminate|]. simpl. exact IH.
Qed.

Lemma linked_flip a b x y : linked a b x y = linked x y a b.
Proof.
  unfold linked.
  rewrite (Nat.eqb_sym x a), (Nat.eqb_sym y b), (Nat.eqb_sym x b), (Nat.eqb_sym y a).
  now rewrite (andb_comm (b =? x)).
Qed.

Lemma requests_ok_insert s a b status :
  requests_ok s ->
  requests_between s a b = [] -> friendships_between s a b = [] ->
  requests_ok (fst (insert_request a b status s)).
Proof.
  intros Hok Hnone Hfr r Hin. cbn [fst insert_request requests] in Hin.
  unfold requests_between, friendships_between.
  cbn [fst insert_request requests friendships]. rewrite filter_app.
  apply in_app_or in Hin. destruct Hin as [Hin|[<-|[]]].
  - destruct (Hok r Hin) as [Hlen Hf]. split; [|exact Hf].
    cbn [filter req_senderId req_receiverId].
    destruct (linked (req_senderId r) (req_receiverId r) a b) eqn:Hl.
    + exfalso.
      assert (Hr : In r (requests_between s a b)).
      { apply filter_In. split; [exact Hin|]. now rewrite linked_flip. }
      rewrite Hnone in Hr. destruct Hr.
    + rewrite app_nil_r. exact Hlen.
  - cbn [req_senderId req_receiverId filter]. rewrite linked_refl.
    fold (requests_between s a b). rewrite Hnone. split; [simpl; lia|exact Hfr].
Qed.

Lemma requests_ok_delete (p : Request -> bool) s :
  requests_ok s ->
  requests_ok (mkDb (users s) (conversations s) (conversationMembers s) (messages s)
                    (filter p (requests s)) (friendships s) (nextId s)).
Proof.
  intros Hok r Hin. cbn [requests] in Hin. apply filter_In in Hin.
  destruct (Hok r (proj1 Hin)) as [Hlen Hf]. split; [|exact Hf].
  unfold requests_between in *. cbn [requests]. rewrite filter_swap.
  eapply Nat.le_trans; [|exact Hlen].
  clear. induction (filter _ (requests s)) as [|x l IH]; simpl; [lia|].
  destruct (p x); simpl; lia.
Qed.

Lemma requests_ok_delete_request id s :
  requests_ok s -> requests_ok (fst (delete_request id s)).
Proof.
  intros Hok. unfold delete_request. destruct (existsb _ _); [|exact Hok].
  now apply requests_ok_delete.
Qed.

Lemma requests_ok_accepted s u r :
  requests_ok s -> In r (requests s) -> req_receiverId r = user_id u ->
  requests_ok (accepted s u r).
Proof.
  intros Hok Hin Hrecv r' Hin'. unfold accepted in Hin'. cbn [requests] in Hin'.
  apply filter_In in Hin'. destruct Hin' as [Hin' Hne].
  destruct (Hok r' Hin') as [Hlen Hf]. split.
  - unfold requests_between in *. unfold accepted. cbn [requests]. rewrite filter_swap.
    eapply Nat.le_trans; [|exact Hlen].
    clear. induction (filter _ (requests s)) as [|x l IH]; simpl; [lia|].
    destruct (negb _); simpl; lia.
  - unfold friendships_between in *. unfold accepted. cbn [friendships].
    rewrite filter_app, Hf. cbn [filter fr_userId1 fr_userId2 app].
    destruct (linked (req_senderId r') (req_receiverId r') (user_id u) (req_senderId r))
      eqn:Hl; [|reflexivity].
    exfalso.
    assert (Hr' : In r' (requests_between s (req_senderId r) (req_receiverId r))).
    { apply filter_In. split; [exact Hin'|]. rewrite Hrecv.
      now rewrite linked_flip, linked_swap. }
    rewrite (pending_unique _ _ Hok Hin) in Hr'. destruct Hr' as [->|[]].
    rewrite Nat.eqb_refl in Hne. discriminate.
Qed.

(** *** Writes *)

Lemma post_mono {A} (m : M A) s (Q Q' : A -> Db -> Prop) :
  post m s Q -> (forall a s', Q a s' -> Q' a s') -> post m s Q'.
Proof.
  unfold post. destruct (m s) as [s' [a|e]]; auto.
Qed.

Lemma post_insert_conversation isGroup name imageUrl creatorId lastMessageId s
  (Q : Id -> Db -> Prop) :
  Q (nextId s) (fst (insert_conversation isGroup name imageUrl creatorId lastMessageId s)) ->
  post (insert_conversation isGroup name imageUrl creatorId lastMessageId) s Q.
Proof. auto. Qed.

Lemma post_insert_member cid mid s (Q : Id -> Db -> Prop) :
  Q (nextId s) (fst (insert_member cid mid s)) -> post (insert_member cid mid) s Q.
Proof. auto. Qed.

Lemma post_insert_member_of cid member s (Q : Id -> Db -> Prop) :
  (forall u, member = UserDoc u -> Q (nextId s) (fst (insert_member cid (user_id u) s))) ->
  post (insert_member_of cid member) s Q.
Proof. destruct member as [u|id]; intros H; [exact (H u eq_refl)|exact I]. Qed.

Lemma post_db_get memberId s (Q : option Doc -> Db -> Prop) :
  (forall d, Q d s) -> post (db_get memberId) s Q.
Proof.
  intros H. unfold post, db_get. destruct memberId as [id|text]; [|exact I].
  destruct (get_user s id); apply H.
Qed.

Lemma post_insert_request a b status s (Q : Id -> Db -> Prop) :
  Q (nextId s) (fst (insert_request a b status s)) -> post (insert_request a b status) s Q.
Proof. auto. Qed.

Lemma post_delete_member id s (Q : unit -> Db -> Prop) :
  Q tt (fst (delete_member id s)) -> post (delete_member id) s Q.
Proof. unfold post, delete_member. destruct (existsb _ _); auto. Qed.

Lemma post_delete_message id s (Q : unit -> Db -> Prop) :
  Q tt (fst (delete_message id s)) -> post (delete_message id) s Q.
Proof. unfold post, delete_message. destruct (existsb _ _); auto. Qed.

Lemma post_delete_conversation id s (Q : unit -> Db -> Prop) :
  Q tt (fst (delete_conversation id s)) -> post (delete_conversation id) s Q.
Proof. unfold post, delete_conversation. destruct (existsb _ _); auto. Qed.

Lemma post_delete_request id s (Q : unit -> Db -> Prop) :
  Q tt (fst (delete_request id s)) -> post (delete_request id) s Q.
Proof. unfold post, delete_request. destruct (existsb _ _); auto. Qed.

Lemma post_patch_conversation id f s (Q : unit -> Db -> Prop) :
  Q tt (fst (patch_conversation id f s)) -> post (patch_conversation id f) s Q.
Proof. unfold post, patch_conversation. destruct (get_conversation s id); auto. Qed.

Lemma Inv_insert_conversation isGroup name imageUrl creatorId lastMessageId s :
  Inv s ->
  Inv (fst (insert_conversation isGroup name imageUrl creatorId lastMessageId s)).
Proof.
  intros [Hwf Hok]. split; [now apply wf_insert_conversation|].
  now apply (requests_ok_frame s).
Qed.

Lemma Inv_insert_member cid mid s :
  Inv s -> cid < nextId s -> Inv (fst (insert_member cid mid s)).
Proof.
  intros [Hwf Hok] Hlt. split; [now apply wf_insert_member|].
  now apply (requests_ok_frame s).
Qed.

Lemma Inv_delete_member id s : Inv s -> Inv (fst (delete_member id s)).
Proof.
  intros [Hwf Hok]. split; [now apply wf_delete_member|].
  apply (requests_ok_frame s); auto;
    unfold delete_member; now destruct (existsb _ _).
Qed.

Lemma Inv_delete_message id s : Inv s -> Inv (fst (delete_message id s)).
Proof.
  intros [Hwf Hok]. split; [now apply wf_delete_message|].
  apply (requests_ok_frame s); auto;
    unfold delete_message; now destruct (existsb _ _).
Qed.

Lemma Inv_delete_conversation id s : Inv s -> Inv (fst (delete_conversation id s)).
Proof.
  intros [Hwf Hok]. split; [now apply wf_delete_conversation|].
  apply (requests_ok_frame s); auto;
    unfold delete_conversation; now destruct (existsb _ _).
Qed.

Lemma Inv_delete_request id s : Inv s -> Inv (fst (delete_request id s)).
Proof.
  intros [Hwf Hok]. split; [now apply wf_delete_request|].
  now apply requests_ok_delete_request.
Qed.

Lemma Inv_patch_conversation id f s :
  (forall c, conv_id (f c) = conv_id c) ->
  Inv s -> Inv (fst (patch_conversation id f s)).
Proof.
  intros Hf [Hwf Hok]. split; [now apply wf_patch_conversation|].
  apply (requests_ok_frame s); auto;
    unfold patch_conversation; now destruct (get_conversation s id).
Qed.

Lemma Inv_insert_request a b status s :
  Inv s -> requests_between s a b = [] -> friendships_between s a b = [] ->
  Inv (fst (insert_request a b status s)).
Proof.
  intros [Hwf Hok] Hr Hf. split; [now apply wf_insert_request|].
  now apply requests_ok_insert.
Qed.

Lemma wf_accepted s u r : wf s -> wf (accepted s u r).
Proof.
  intros [Hu Hc Hm Hx Hr Hf Href]. unfold accepted.
  constructor; wf_fields; rewrite ?map_app; cbn [map cm_id];
    auto 8 using table_ok_S, table_ok_snoc, table_ok_filter, refs_S, refs_filter.
  - change [S (S (nextId s)); S (S (S (nextId s)))]
      with ([S (S (nextId s))] ++ [S (S (S (nextId s)))]).
    rewrite app_assoc. auto 8 using table_ok_S, table_ok_snoc.
  - apply Forall_app. split; [auto 8 using refs_S|].
    repeat constructor; simpl; lia.
Qed.

Lemma Inv_accepted s u r :
  Inv s -> In r (requests s) -> req_receiverId r = user_id u -> Inv (accepted s u r).
Proof.
  intros [Hwf Hok] Hin Hrecv. split; [now apply wf_accepted|].
  now apply requests_ok_accepted.
Qed.

(** *** Handlers *)

Lemma insert_member_nextId cid mid s : nextId (fst (insert_member cid mid s)) = S (nextId s).
Proof. reflexivity. Qed.

Lemma createGroup_Inv auth name memberIds s :
  Inv s -> post (Conversations.createGroup auth name memberIds) s (fun _ s' => Inv s').
Proof.
  intros HI. unfold Conversations.createGroup. apply post_rethrow.
  apply post_bind, post_currentUser. intros u _.
  apply post_bind, post_insert_conversation.
  set (s1 := fst (insert_conversation true (Some name) None (Some (user_id u)) None s)).
  assert (H1 : Inv s1) by now apply Inv_insert_conversation.
  assert (Hlt : nextId s < nextId s1) by (simpl; lia).
  clearbody s1.
  apply post_bind, post_insert_member.
  apply post_bind.
  eapply post_mono.
  - apply (post_for_of memberIds _ (fun s' => Inv s' /\ nextId s < nextId s')).
    + intros memberId s2 [H2 Hlt2]. apply post_bind, post_insert_member, post_ret.
      split; [now apply Inv_insert_member|]. rewrite insert_member_nextId. lia.
    + split; [now apply Inv_insert_member|]. rewrite insert_member_nextId. lia.
  - intros ? s3 [H3 _]. now apply post_ret.
Qed.

Lemma createGroupChat_Inv auth name memberIds imageUrl s :
  Inv s ->
  post (Conversations.createGroupChat auth name memberIds imageUrl) s (fun _ s' => Inv s').
Proof.
  intros HI. unfold Conversations.createGroupChat.
  apply post_bind, post_currentUser. intros u _.
  apply post_bind, post_insert_conversation.
  set (s1 := fst (insert_conversation true (Some name) imageUrl (Some (user_id u)) None s)).
  assert (H1 : Inv s1) by now apply Inv_insert_conversation.
  assert (Hlt : nextId s < nextId s1) by (simpl; lia).
  clearbody s1.
  apply post_bind, post_insert_member.
  apply post_bind.
  eapply post_mono.
  - apply (post_for_of memberIds _ (fun s' => Inv s' /\ nextId s < nextId s')).
    + intros memberId s2 [H2 Hlt2]. apply post_bind, post_db_get.
      intros [member|]; [|now apply post_ret].
      apply post_bind, post_insert_member_of. intros member' _. apply post_ret.
      split; [now apply Inv_insert_member|]. rewrite insert_member_nextId. lia.
    + split; [now apply Inv_insert_member|]. rewrite insert_member_nextId. lia.
  - intros ? s3 [H3 _]. now apply post_ret.
Qed.

Lemma deleteGroupHandler_Inv cid s :
  Inv s -> post (Conversations.deleteGroupHandler cid) s (fun _ s' => Inv s').
Proof.
  intros HI. unfold Conversations.deleteGroupHandler.
  apply post_bind, post_gets, post_bind.
  eapply post_mono.
  { apply (post_for_of _ _ Inv); [|exact HI].
    intros m s1 H1. now apply post_delete_member, Inv_delete_member. }
  intros ? s1 H1. apply post_bind, post_gets, post_bind.
  eapply post_mono.
  { apply (post_for_of _ _ Inv); [|exact H1].
    intros m s2 H2. now apply post_delete_message, Inv_delete_message. }
  intros ? s2 H2. apply post_bind, post_delete_conversation, post_ret.
  now apply Inv_delete_conversation.
Qed.

Lemma leaveGroup_Inv auth cid s :
  Inv s -> post (Conversations.leaveGroup auth cid) s (fun _ s' => Inv s').
Proof.
  intros HI. unfold Conversations.leaveGroup. apply post_rethrow.
  apply post_bind, post_currentUser. intros u _.
  apply post_bind, post_gets.
  destruct (get_conversation s cid) as [c|]; [|exact I].
  destruct (negb (conv_isGroup c)); [exact I|].
  apply post_bind, post_bind, post_gets, post_unique. intros membership _.
  destruct membership as [membership|]; [|exact I].
  destruct (creatorIs c (user_id u)).
  - apply post_bind, post_gets.
    destruct (filter _ _) as [|first rest].
    + apply post_bind. eapply post_mono; [now apply deleteGroupHandler_Inv|].
      intros ? s1 H1. now apply post_ret.
    + apply post_bind, post_gets, post_bind.
      eapply (post_mono _ _ (fun _ s' => Inv s')).
      * destruct (get_conversation s cid); [|now apply post_ret].
        apply post_patch_conversation. now apply Inv_patch_conversation.
      * intros ? s1 H1. apply post_bind, post_delete_member, post_ret.
        now apply Inv_delete_member.
  - apply post_bind, post_delete_member, post_ret. now apply Inv_delete_member.
Qed.

Lemma deleteGroup_Inv auth cid s :
  Inv s -> post (Conversations.deleteGroup auth cid) s (fun _ s' => Inv s').
Proof.
  intros HI. unfold Conversations.deleteGroup. apply post_rethrow.
  apply post_bind, post_currentUser. intros u _.
  apply post_bind, post_groupOfCreator. intros c _.
  now apply deleteGroupHandler_Inv.
Qed.

Lemma updateGroupName_Inv auth cid name s :
  Inv s -> post (Conversations.updateGroupName auth cid name) s (fun _ s' => Inv s').
Proof.
  intros HI. unfold Conversations.updateGroupName. apply post_rethrow.
  apply post_bind, post_currentUser. intros u _.
  apply post_bind, post_groupOfCreator. intros c _.
  apply post_bind, post_patch_conversation, post_ret.
  now apply Inv_patch_conversation.
Qed.

Lemma updateGroupImage_Inv auth cid imageUrl s :
  Inv s -> post (Conversations.updateGroupImage auth cid imageUrl) s (fun _ s' => Inv s').
Proof.
  intros HI. unfold Conversations.updateGroupImage. apply post_rethrow.
  apply post_bind, post_currentUser. intros u _.
  apply post_bind, post_groupOfCreator. intros c _.
  apply post_bind, post_patch_conversation, post_ret.
  now apply Inv_patch_conversation.
Qed.

Lemma addEach_Inv cid existing :
  forall memberIds n s,
    Inv s -> cid < nextId s ->
    post (Conversations.addEach cid existing memberIds n) s (fun _ s' => Inv s').
Proof.
  induction memberIds as [|memberId rest IH]; intros n s HI Hlt; cbn [Conversations.addEach].
  - now apply post_ret.
  - apply post_bind, post_db_get.
    intros [member|]; [|now apply IH].
    destruct (negb _); [|now apply IH].
    apply post_bind, post_insert_member_of. intros member' _. apply IH.
    + now apply Inv_insert_member.
    + rewrite insert_member_nextId. lia.
Qed.

Lemma addGroupMembers_Inv auth cid memberIds s :
  Inv s -> post (Conversations.addGroupMembers auth cid memberIds) s (fun _ s' => Inv s').
Proof.
  intros HI. unfold Conversations.addGroupMembers. apply post_rethrow.
  apply post_bind, post_currentUser. intros u _.
  apply post_bind, post_groupOfCreator. intros c Hc.
  apply post_bind, post_gets, post_bind.
  eapply post_mono.
  - apply addEach_Inv; [exact HI|].
    destruct HI as [Hwf _]. destruct (wf_conversations s Hwf) as [_ Hlt].
    rewrite Forall_forall in Hlt. apply Hlt.
    rewrite <- (get_conversation_id _ _ _ Hc). apply in_map.
    now apply get_conversation_In in Hc.
  - intros k s1 H1. now apply post_ret.
Qed.

Lemma removeGroupMember_Inv auth cid memberId s :
  Inv s -> post (Conversations.removeGroupMember auth cid memberId) s (fun _ s' => Inv s').
Proof.
  intros HI. unfold Conversations.removeGroupMember. apply post_rethrow.
  apply post_bind, post_currentUser. intros u _.
  apply post_bind, post_groupOfCreator. intros c _.
  apply post_bind, post_gets.
  destruct (get_user s memberId) as [memberToRemove|]; [|exact I].
  destruct (creatorIs c (user_id memberToRemove)); [exact I|].
  apply post_bind, post_bind, post_gets, post_unique. intros membership _.
  destruct membership as [membership|]; [|exact I].
  apply post_bind, post_delete_member, post_ret. now apply Inv_delete_member.
Qed.

Lemma sendRequest_Inv currentUser receiver s :
  Inv s -> post (Requests.sendRequest currentUser receiver) s (fun _ s' => Inv s').
Proof.
  intros HI. unfold Requests.sendRequest.
  apply post_bind, post_bind, post_gets, post_unique.
  intros x [[-> Hsent]|(r & -> & _)]; [|exact I].
  apply post_bind, post_bind, post_gets, post_unique.
  intros x [[-> Hreceived]|(r & -> & _)]; [|exact I].
  apply post_bind, post_bind, post_gets, post_unique.
  intros x [[-> Hf1]|(f & -> & _)].
  - apply post_bind, post_bind, post_gets, post_unique.
    intros x [[-> Hf2]|(f & -> & _)]; [|exact I].
    apply post_insert_request. apply Inv_insert_request; [exact HI| |].
    + now apply between_nil_of_pairs.
    + now apply between_nil_of_pairs.
  - apply post_bind, post_bind, post_gets, post_unique. intros x _.
    now destruct x.
Qed.

Lemma create_Inv auth email s :
  Inv s -> post (Requests.create auth email) s (fun _ s' => Inv s').
Proof.
  intros HI. unfold Requests.create.
  destruct auth as [identity|]; [|exact I].
  destruct (isEmpty (trim email)); [exact I|].
  destruct (Requests.isOwnEmail email identity); [exact I|].
  apply post_bind, post_gets.
  destruct (getUserByClerkId s (subject identity)) as [currentUser|]; [|exact I].
  apply post_bind, post_bind, post_gets, post_unique. intros receiver _.
  destruct receiver as [receiver|]; [|exact I].
  now apply sendRequest_Inv.
Qed.

Lemma createByUsername_Inv auth username s :
  Inv s -> post (Requests.createByUsername auth username) s (fun _ s' => Inv s').
Proof.
  intros HI. unfold Requests.createByUsername.
  destruct auth as [identity|]; [|exact I].
  apply post_bind, post_gets.
  destruct (getUserByClerkId s (subject identity)) as [currentUser|]; [|exact I].
  destruct (isEmpty (trim username)); [exact I|].
  destruct (negb (usernameRegex_test username)); [exact I|].
  cbv zeta. destruct (_ || _); [exact I|].
  apply post_bind, post_gets.
  destruct (find _ (users s)) as [receiver|]; [|exact I].
  now apply sendRequest_Inv.
Qed.

Lemma deny_Inv auth id s :
  Inv s -> post (Requests.deny auth id) s (fun _ s' => Inv s').
Proof.
  intros HI. unfold Requests.deny.
  apply post_bind, post_currentUser. intros u _.
  apply post_bind, post_gets.
  destruct (get_request s id) as [r|]; [|exact I].
  destruct (negb _); [exact I|].
  now apply post_delete_request, Inv_delete_request.
Qed.

Lemma accept_Inv auth id s :
  Inv s -> post (Requests.accept auth id) s (fun _ s' => Inv s').
Proof.
  intros HI. destruct (callerIs_dec auth s) as [[u Hu]|Hno].
  - destruct (get_request s id) as [r|] eqn:Hr.
    + destruct (req_receiverId r =? user_id u) eqn:He.
      * apply Nat.eqb_eq in He. unfold post. rewrite (accept_run _ _ _ _ _ Hu Hr He).
        apply Inv_accepted; auto. now apply get_request_In in Hr.
      * unfold post, Requests.accept, bind.
        rewrite (currentUserOrThrow_ok _ _ _ _ Hu). unfold gets. rewrite Hr, He.
        exact I.
    + unfold post, Requests.accept, bind.
      rewrite (currentUserOrThrow_ok _ _ _ _ Hu). unfold gets. rewrite Hr. exact I.
  - unfold post, Requests.accept, bind.
    destruct (currentUserOrThrow_fail _ _ (ConvexError "Unauthorized") Hno) as [e ->].
    exact I.
Qed.

Lemma post_commit {A} (m : M A) s :
  Inv s -> post m s (fun _ s' => Inv s') -> Inv (fst (mutation m s)).
Proof.
  unfold post, mutation. intros HI H. destruct (m s) as [s' [a|e]]; auto.
Qed.

(** Every call commits a store that satisfies the invariant again. *)
Lemma Inv_commit auth call s : Inv s -> Inv (commit auth call s).
Proof.
  intros HI. destruct call; cbn [commit]; apply post_commit; auto using
    createGroup_Inv, leaveGroup_Inv, deleteGroup_Inv, createGroupChat_Inv,
    updateGroupName_Inv, updateGroupImage_Inv, addGroupMembers_Inv,
    removeGroupMember_Inv, create_Inv, createByUsername_Inv, deny_Inv, accept_Inv.
Qed.

Lemma Inv_reachable s0 s : Inv s0 -> reachable s0 s -> Inv s.
Proof.
  intros H0. induction 1 as [|s auth call _ IH]; [exact H0|].
  now apply Inv_commit.
Qed.

(** The invariant holds of any store that has users only, whatever these
    are, as long as their ids are well formed. *)
Lemma Inv_users_only us n :
  table_ok (map user_id us) n -> Inv (mkDb us [] [] [] [] [] n).
Proof.
  intros Hu. split.
  - constructor; cbn; auto; split; constructor.
  - intros r [].
Qed.

(** ** Sample runs *)

(** Alice's list: the conversation with carol first, then the two whose last
    messages have the same age in the order of alice's membership rows, and
    the group without a message, at time 0, last. *)
Example get_inbox :
  match Conversations.get (mkQueryCtx (Some alice_id) inbox_db) with
  | Ok result => map summary result
  | Throw _ => []
  end
  = [(11, 9%Z, Some "has sent an image."); (10, 5%Z, Some "hi");
     (12, 5%Z, Some "hello"); (13, 0%Z, None)].
Proof. reflexivity. Qed.

(** Denying is the other way out of the pending state: the request is
    deleted and nothing else is written. *)
Example deny_pending :
  Requests.deny (Some bob_id) 30 pending_db
  = (mkDb [alice; bob; carol] [] [] [] [] [] 31, Ok tt).
Proof. reflexivity. Qed.

(** Only the receiver can accept. *)
Example accept_by_sender :
  Requests.accept (Some alice_id) 30 pending_db
  = (pending_db, Throw (ConvexError "There was an error accepting this request")).
Proof. reflexivity. Qed.

(** * Further properties of the handlers *)

(** ** Creating groups *)

Lemma insert_members_loop cid :
  forall memberIds s,
    for_of memberIds (fun memberId => insert_member cid memberId ;;; ret tt) s
    = (add_members s (memberRows (nextId s) cid memberIds), Ok tt).
Proof.
  induction memberIds as [|id rest IH]; intros s.
  - cbn. unfold ret, add_members. cbn. now rewrite app_nil_r, Nat.add_0_r, db_eta.
  - cbn [for_of memberRows]. unfold bind at 1. unfold bind at 1.
    unfold insert_member at 1. unfold ret at 1. rewrite IH. cbn [nextId].
    rewrite <- add_members_cons. unfold add_members at 3. cbn [List.length].
    now rewrite Nat.add_1_r.
Qed.

Lemma createGroup_run auth s u name memberIds :
  callerIs auth s u ->
  Conversations.createGroup auth name memberIds s
  = (created_group s (user_id u) name None memberIds, Ok (nextId s)).
Proof.
  intros Hu. unfold Conversations.createGroup, try_catch. unfold bind at 1.
  rewrite (currentUserOrThrow_ok _ _ _ _ Hu).
  unfold bind at 1. unfold insert_conversation at 1.
  unfold bind at 1. unfold insert_member at 1.
  unfold bind at 1. rewrite insert_members_loop.
  unfold ret, created_group, add_conversation. cbn [nextId memberRows].
  rewrite <- add_members_cons. unfold add_members at 3. cbn [List.length].
  now rewrite Nat.add_1_r.
Qed.

Lemma for_each_user_loop cid s0 :
  forall memberIds s,
    grown s0 s ->
    forallb (namesUserOrNothing s0) memberIds = true ->
    for_of memberIds (fun memberId =>
      member <- db_get memberId ;;
      match member with
      | Some member => insert_member_of cid member ;;; ret tt
      | None => ret tt
      end) s
    = (add_members s (memberRows (nextId s) cid (filter (isUser s0) (idsOf memberIds))),
       Ok tt).
Proof.
  induction memberIds as [|memberId rest IH]; intros s Hg Hall.
  - cbn. unfold ret, add_members. cbn. now rewrite app_nil_r, Nat.add_0_r, db_eta.
  - cbn [forallb] in Hall. apply andb_true_iff in Hall. destruct Hall as [Hone Hall].
    destruct (db_get_user_or_nothing _ _ _ Hg Hone) as (id & -> & Hget).
    cbn [for_of idsOf flat_map app]. fold (idsOf rest). cbn [filter].
    unfold bind at 1. unfold bind at 1. rewrite Hget.
    unfold isUser at 1.
    destruct (get_user s0 id) as [member|] eqn:Hm; cbn [option_map].
    + cbn [insert_member_of]. rewrite (get_user_id _ _ _ Hm).
      unfold bind at 1. unfold insert_member at 1.
      unfold ret at 1. rewrite IH by (auto using grown_insert_member).
      cbn [nextId memberRows].
      rewrite <- add_members_cons. unfold add_members at 3. cbn [List.length].
      now rewrite Nat.add_1_r.
    + unfold ret at 1. now apply IH.
Qed.

Lemma createGroupChat_run auth s u name memberIds imageUrl :
  callerIs auth s u ->
  forallb (namesUserOrNothing s) memberIds = true ->
  Conversations.createGroupChat auth name memberIds imageUrl s
  = (created_group s (user_id u) name imageUrl (filter (isUser s) (idsOf memberIds)),
     Ok (nextId s)).
Proof.
  intros Hu Hall. unfold Conversations.createGroupChat. unfold bind at 1.
  rewrite (currentUserOrThrow_ok _ _ _ _ Hu).
  unfold bind at 1. unfold insert_conversation at 1.
  unfold bind at 1. unfold insert_member at 1.
  unfold bind at 1. rewrite (for_each_user_loop _ s).
  - unfold ret, created_group, add_conversation. cbn [nextId memberRows].
    rewrite <- add_members_cons. unfold add_members at 3. cbn [List.length].
    now rewrite Nat.add_1_r.
  - cbn [users conversations conversationMembers messages requests friendships nextId].
    apply (grown_insert_member s
             (mkDb (users s)
                   (conversations s
                    ++ [mkConversation (nextId s) true (Some name) imageUrl
                          (Some (user_id u)) None])
                   (conversationMembers s) (messages s) (requests s) (friendships s)
                   (S (nextId s)))).
    now apply grown_insert_conversation; [apply grown_refl|].
  - exact Hall.
Qed.

Lemma find_snoc {A} (p : A -> bool) (l : list A) (x : A) :
  find p (l ++ [x])
  = match find p l with
    | Some y => Some y
    | None => if p x then Some x else None
    end.
Proof.
  induction l as [|y l IH]; simpl; [reflexivity|].
  destruct (p y); [reflexivity|exact IH].
Qed.

Lemma find_fresh s :
  wf s -> find (fun c => conv_id c =? nextId s) (conversations s) = None.
Proof.
  intros Hwf. destruct (find _ _) as [c|] eqn:Hc; [|reflexivity].
  exfalso. apply find_some_id in Hc. destruct Hc as [Hin Hid].
  apply (fresh_conversation_id s Hwf). rewrite <- Hid. now apply in_map.
Qed.

Lemma memberRows_of_conversation next cid ids :
  filter (fun m => cm_conversationId m =? cid) (memberRows next cid ids)
  = memberRows next cid ids.
Proof.
  revert next. induction ids as [|id rest IH]; intros next; simpl; [reflexivity|].
  now rewrite Nat.eqb_refl, IH.
Qed.

Lemma memberRows_of_other next cid c ids :
  c <> cid -> filter (fun m => cm_conversationId m =? c) (memberRows next cid ids) = [].
Proof.
  intros Hne. revert next. induction ids as [|id rest IH]; intros next; simpl; [reflexivity|].
  replace (cid =? c) with false by (symmetry; apply Nat.eqb_neq; congruence).
  apply IH.
Qed.

Lemma created_group_facts s creatorId name imageUrl memberIds :
  wf s ->
  let id := nextId s in
  let s' := created_group s creatorId name imageUrl memberIds in
  get_conversation s' id
  = Some (mkConversation id true (Some name) imageUrl (Some creatorId) None) /\
  map cm_memberId (members_by_conversationId s' id) = creatorId :: memberIds /\
  (forall c, c <> id ->
     get_conversation s' c = get_conversation s c /\
     members_by_conversationId s' c = members_by_conversationId s c).
Proof.
  intros Hwf id s'. subst id s'.
  unfold get_conversation, members_by_conversationId, created_group, add_members,
    add_conversation.
  cbn [conversations conversationMembers nextId].
  refine (conj _ (conj _ _)).
  - rewrite find_snoc, (find_fresh s Hwf). cbn [conv_id]. now rewrite Nat.eqb_refl.
  - rewrite filter_app. fold (members_by_conversationId s (nextId s)).
    rewrite (no_members_of_fresh s Hwf), memberRows_of_conversation.
    apply memberRows_memberIds.
  - intros c Hne. split.
    + rewrite find_snoc. destruct (find _ (conversations s)); [reflexivity|].
      cbn [conv_id].
      now replace (nextId s =? c) with false by (symmetry; apply Nat.eqb_neq; congruence).
    + rewrite filter_app, (memberRows_of_other _ _ _ _ Hne). apply app_nil_r.
Qed.

(** X1: an authenticated caller who creates a group with [createGroup] gets
    the id of a new group conversation that carries the given name and the
    caller as creator; its membership rows are one for the caller followed by
    one per listed id, as listed; [isGroupCreator] answers [true] for the
    caller afterwards; and no other conversation or its membership changes. *)
Theorem createGroup_makes_caller_creator :
  forall (auth : option Identity) (s : Db) (u : User) (name : string)
         (memberIds : list Id),
    wf s ->
    callerIs auth s u ->
    let id := nextId s in
    let s' := created_group s (user_id u) name None memberIds in
    Conversations.createGroup auth name memberIds s = (s', Ok id) /\
    get_conversation s' id
    = Some (mkConversation id true (Some name) None (Some (user_id u)) None) /\
    map cm_memberId (members_by_conversationId s' id) = user_id u :: memberIds /\
    Conversations.isGroupCreator (mkQueryCtx auth s') id = Ok true /\
    (forall c, c <> id ->
       get_conversation s' c = get_conversation s c /\
       members_by_conversationId s' c = members_by_conversationId s c).
Proof.
  intros auth s u name memberIds Hwf Hu id s'.
  destruct (created_group_facts s (user_id u) name None memberIds Hwf)
    as (Hget & Hmembers & Hothers).
  refine (conj (createGroup_run _ _ _ _ _ Hu) (conj Hget (conj Hmembers (conj _ Hothers)))).
  destruct Hu as (identity & -> & Hu).
  unfold Conversations.isGroupCreator. cbn [auth db].
  replace (getUserByClerkId s' (subject identity)) with (Some u) by (symmetry; exact Hu).
  fold id s' in Hget. rewrite Hget. cbn. now rewrite Nat.eqb_refl.
Qed.

Lemma createGroup_makes_caller_creator_witness :
  Conversations.createGroup (Some alice_id) "trio" [2; 3] group_db
  = (mkDb [alice; bob; carol]
          [team; mkConversation 20 true (Some "trio") None (Some 1) None]
          [mkMember 11 1 10; mkMember 12 2 10;
           mkMember 21 1 20; mkMember 22 2 20; mkMember 23 3 20] [] [] [] 24,
     Ok 20).
Proof.
  assert (Hwf : wf group_db) by solve_wf.
  exact (proj1 (createGroup_makes_caller_creator (Some alice_id) group_db alice "trio"
                  [2; 3] Hwf (ex_intro _ alice_id (conj eq_refl eq_refl)))).
Defined.

(** X2: called with member ids that each name a stored user or a document
    that is no longer stored, [createGroupChat] creates a group with the
    caller as creator and first member and adds a membership row for the
    listed ids that name a user, and for no other.  When every listed id
    names a user and no image is given, it does what [createGroup] does
    with these ids. *)
Theorem createGroupChat_adds_existing_users :
  forall (auth : option Identity) (s : Db) (u : User) (name : string)
         (memberIds : list IdString) (imageUrl : option string),
    wf s ->
    callerIs auth s u ->
    forallb (namesUserOrNothing s) memberIds = true ->
    let id := nextId s in
    let s' :=
      created_group s (user_id u) name imageUrl (filter (isUser s) (idsOf memberIds)) in
    Conversations.createGroupChat auth name memberIds imageUrl s = (s', Ok id) /\
    map cm_memberId (members_by_conversationId s' id)
    = user_id u :: filter (isUser s) (idsOf memberIds) /\
    ((forall m, In m (idsOf memberIds) -> isUser s m = true) ->
     Conversations.createGroupChat auth name memberIds None s
     = Conversations.createGroup auth name (idsOf memberIds) s).
Proof.
  intros auth s u name memberIds imageUrl Hwf Hu Hall id s'.
  destruct (created_group_facts s (user_id u) name imageUrl
              (filter (isUser s) (idsOf memberIds)) Hwf) as (_ & Hmembers & _).
  refine (conj (createGroupChat_run _ _ _ _ _ _ Hu Hall) (conj Hmembers _)).
  intros Husers.
  rewrite (createGroupChat_run _ _ _ _ _ _ Hu Hall), (createGroup_run _ _ _ _ _ Hu).
  replace (filter (isUser s) (idsOf memberIds)) with (idsOf memberIds); [reflexivity|].
  clear - Husers. induction (idsOf memberIds) as [|m rest IH]; simpl; [reflexivity|].
  rewrite (Husers m (or_introl eq_refl)). f_equal. apply IH.
  intros x Hx. apply Husers. now right.
Qed.

Lemma createGroupChat_adds_existing_users_witness :
  Conversations.createGroupChat (Some alice_id) "trio" [IdOf 2; IdOf 5; IdOf 3]
    (Some "trio.png") group_db
  = (mkDb [alice; bob; carol]
          [team; mkConversation 20 true (Some "trio") (Some "trio.png") (Some 1) None]
          [mkMember 11 1 10; mkMember 12 2 10;
           mkMember 21 1 20; mkMember 22 2 20; mkMember 23 3 20] [] [] [] 24,
     Ok 20).
Proof.
  assert (Hwf : wf group_db) by solve_wf.
  exact (proj1 (createGroupChat_adds_existing_users (Some alice_id) group_db alice "trio"
                  [IdOf 2; IdOf 5; IdOf 3] (Some "trio.png") Hwf
                  (ex_intro _ alice_id (conj eq_refl eq_refl)) eq_refl)).
Defined.

(** ** Deleting groups and removing members *)

Lemma deleteGroup_run auth s cid :
  wf s ->
  Conversations.deleteGroup auth cid s
  = if callerIsCreator auth s cid
    then (deleted_group s cid, Ok (mkSuccess true))
    else (s, Throw (ConvexError "Failed to delete group")).
Proof.
  intros Hwf. unfold Conversations.deleteGroup.
  destruct (callerIs_dec auth s) as [[u Hu]|Hno].
  - unfold try_catch, bind.
    rewrite (currentUserOrThrow_ok _ _ _ _ Hu), (groupOfCreator_spec _ _ _ _ _ Hu).
    destruct (callerIsCreator auth s cid) eqn:Hc; [|reflexivity].
    destruct (callerIsCreator_conversation _ _ _ Hc) as (u' & c & _ & Hget & _ & _).
    rewrite Hget. now rewrite (deleteGroupHandler_spec _ _ _ Hwf Hget).
  - rewrite (callerIsCreator_no_user _ _ _ Hno).
    destruct (currentUserOrThrow_fail _ _ (Error "Unauthorized") Hno) as [e He].
    unfold try_catch, bind. now rewrite He.
Qed.

Lemma filter_two_keys {A} (k : A -> Id) (a b : Id) (l : list A) :
  a <> b ->
  filter (fun x => k x =? a) (filter (fun x => negb (k x =? b)) l)
  = filter (fun x => k x =? a) l.
Proof.
  intros Hne. apply filter_filter_implied. intros x Hx.
  apply Nat.eqb_eq in Hx. apply negb_true_iff, Nat.eqb_neq. congruence.
Qed.

Lemma find_other_key {A} (k : A -> Id) (a b : Id) (l : list A) :
  a <> b ->
  find (fun x => k x =? a) (filter (fun x => negb (k x =? b)) l)
  = find (fun x => k x =? a) l.
Proof.
  intros Hne. induction l as [|x l IH]; simpl; [reflexivity|].
  destruct (k x =? b) eqn:Hb; simpl.
  - apply Nat.eqb_eq in Hb.
    replace (k x =? a) with false by (symmetry; apply Nat.eqb_neq; congruence).
    exact IH.
  - destruct (k x =? a); [reflexivity|exact IH].
Qed.

(** X3: on a well-formed store [deleteGroup] succeeds exactly when the caller
    is the stored creator of the group, and fails with [Failed to delete
    group], writing nothing, otherwise.  After a successful call the
    conversation is gone and no membership or message row refers to it, while
    every other conversation keeps its document, its membership rows and its
    messages. *)
Theorem deleteGroup_cascades :
  forall (auth : option Identity) (s : Db) (conversationId : Id),
    wf s ->
    let s' := deleted_group s conversationId in
    Conversations.deleteGroup auth conversationId s
    = (if callerIsCreator auth s conversationId
       then (s', Ok (mkSuccess true))
       else (s, Throw (ConvexError "Failed to delete group"))) /\
    get_conversation s' conversationId = None /\
    members_by_conversationId s' conversationId = [] /\
    messages_by_conversationId s' conversationId = [] /\
    (forall c, c <> conversationId ->
       get_conversation s' c = get_conversation s c /\
       members_by_conversationId s' c = members_by_conversationId s c /\
       messages_by_conversationId s' c = messages_by_conversationId s c).
Proof.
  intros auth s cid Hwf s'.
  refine (conj (deleteGroup_run auth s cid Hwf) (conj _ (conj _ (conj _ _)))).
  - apply find_after_delete.
  - apply filter_nil_of_deleted.
  - apply filter_nil_of_deleted.
  - intros c Hne. repeat split.
    + apply (find_other_key conv_id). exact Hne.
    + apply (filter_two_keys cm_conversationId). exact Hne.
    + apply (filter_two_keys msg_conversationId). exact Hne.
Qed.

Lemma deleteGroup_cascades_witness :
  Conversations.deleteGroup (Some alice_id) 10 solo_db
  = (mkDb [alice; bob; carol] [] [] [] [] [] 20, Ok (mkSuccess true)) /\
  Conversations.deleteGroup (Some bob_id) 10 group_db
  = (group_db, Throw (ConvexError "Failed to delete group")).
Proof.
  split.
  - assert (Hwf : wf solo_db) by solve_wf.
    exact (proj1 (deleteGroup_cascades (Some alice_id) solo_db 10 Hwf)).
  - assert (Hwf : wf group_db) by solve_wf.
    exact (proj1 (deleteGroup_cascades (Some bob_id) group_db 10 Hwf)).
Defined.

Lemma unique_member_In s memberId cid row :
  members_by_memberId_conversationId s memberId cid = [row] ->
  In row (conversationMembers s) /\ cm_memberId row = memberId /\
  cm_conversationId row = cid.
Proof.
  intros H.
  assert (Hin : In row (members_by_memberId_conversationId s memberId cid))
    by (rewrite H; now left).
  unfold members_by_memberId_conversationId in Hin. apply filter_In in Hin.
  destruct Hin as [Hin Hb]. apply andb_true_iff in Hb. destruct Hb as [H1 H2].
  apply Nat.eqb_eq in H1, H2. auto.
Qed.

Lemma delete_member_run s row :
  In row (conversationMembers s) ->
  delete_member (cm_id row) s = (without_member s row, Ok tt).
Proof.
  intros Hin. unfold delete_member. now rewrite (existsb_of_In cm_id _ _ Hin).
Qed.

Lemma keep_other_rows s row memberId cid :
  wf s -> In row (conversationMembers s) ->
  cm_memberId row <> memberId \/ cm_conversationId row <> cid ->
  members_by_memberId_conversationId (without_member s row) memberId cid
  = members_by_memberId_conversationId s memberId cid.
Proof.
  intros Hwf Hin Hne. unfold members_by_memberId_conversationId, without_member.
  cbn [conversationMembers]. rewrite filter_swap.
  destruct (wf_members s Hwf) as [Hnd _].
  set (rows := filter _ (conversationMembers s)).
  assert (Hall : forall m, In m rows -> negb (cm_id m =? cm_id row) = true).
  { intros m Hm. subst rows. apply filter_In in Hm. destruct Hm as [Hm Hb].
    apply andb_true_iff in Hb. destruct Hb as [H1 H2]. apply Nat.eqb_eq in H1, H2.
    apply negb_true_iff, Nat.eqb_neq. intros Heq.
    assert (m = row) by (eapply NoDup_key_inj; eauto). subst m. tauto. }
  clearbody rows. induction rows as [|m rows IH]; simpl; [reflexivity|].
  rewrite (Hall m (or_introl eq_refl)). f_equal. apply IH.
  intros x Hx. apply Hall. now right.
Qed.

Lemma removed_row_gone s row :
  members_by_memberId_conversationId s (cm_memberId row) (cm_conversationId row) = [row] ->
  members_by_memberId_conversationId (without_member s row) (cm_memberId row)
    (cm_conversationId row) = [].
Proof.
  intros H. unfold members_by_memberId_conversationId, without_member.
  cbn [conversationMembers]. rewrite filter_swap.
  fold (members_by_memberId_conversationId s (cm_memberId row) (cm_conversationId row)).
  rewrite H. simpl. now rewrite Nat.eqb_refl.
Qed.

Lemma removeGroupMember_steps auth s u cid c memberId :
  callerIs auth s u ->
  get_conversation s cid = Some c ->
  conv_isGroup c = true ->
  conv_creatorId c = Some (user_id u) ->
  Conversations.removeGroupMember auth cid memberId s
  = match get_user s memberId with
    | None => (s, Throw (ConvexError "Failed to remove member from group"))
    | Some _ =>
        if memberId =? user_id u
        then (s, Throw (ConvexError "Failed to remove member from group"))
        else
          match members_by_memberId_conversationId s memberId cid with
          | [row] => (without_member s row, Ok (mkSuccess true))
          | _ => (s, Throw (ConvexError "Failed to remove member from group"))
          end
    end.
Proof.
  intros Hu Hget Hgroup Hcreator.
  assert (Hc : callerIsCreator auth s cid = true).
  { destruct Hu as (identity & -> & Hu).
    unfold callerIsCreator, Conversations.isGroupCreator. cbn [auth db].
    rewrite Hu, Hget, Hgroup. cbn. unfold creatorIs. now rewrite Hcreator, Nat.eqb_refl. }
  unfold Conversations.removeGroupMember, try_catch. unfold bind at 1.
  rewrite (currentUserOrThrow_ok _ _ _ _ Hu).
  unfold bind at 1. rewrite (groupOfCreator_spec _ _ _ _ _ Hu), Hc, Hget.
  unfold bind at 1. unfold gets at 1.
  destruct (get_user s memberId) as [m|] eqn:Hm; [|reflexivity].
  rewrite (get_user_id _ _ _ Hm). unfold creatorIs. rewrite Hcreator.
  rewrite (Nat.eqb_sym (user_id u)).
  destruct (memberId =? user_id u); [reflexivity|].
  unfold bind at 1. unfold bind at 1. unfold gets at 1.
  destruct (members_by_memberId_conversationId s memberId cid) as [|row [|row' rows]] eqn:Hrows;
    try reflexivity.
  cbn [unique]. unfold ret at 1. unfold bind.
  destruct (unique_member_In _ _ _ _ Hrows) as (Hin & _ & _).
  now rewrite (delete_member_run _ _ Hin).
Qed.

(** X4: when the creator of a group removes a user who is not the creator
    and who holds one membership row in the group, [removeGroupMember]
    deletes that row and nothing else: the user is no longer a member, the
    rows of the other members and of other conversations are kept, and the
    conversation document is not touched. *)
Theorem removeGroupMember_removes_one_row :
  forall (auth : option Identity) (s : Db) (u : User) (conversationId memberId : Id)
         (c : Conversation) (row : ConversationMember),
    wf s ->
    callerIs auth s u ->
    get_conversation s conversationId = Some c ->
    conv_isGroup c = true ->
    conv_creatorId c = Some (user_id u) ->
    isUser s memberId = true ->
    memberId <> user_id u ->
    members_by_memberId_conversationId s memberId conversationId = [row] ->
    let s' := without_member s row in
    Conversations.removeGroupMember auth conversationId memberId s
    = (s', Ok (mkSuccess true)) /\
    members_by_memberId_conversationId s' memberId conversationId = [] /\
    (forall m k, m <> memberId \/ k <> conversationId ->
       members_by_memberId_conversationId s' m k
       = members_by_memberId_conversationId s m k) /\
    conversations s' = conversations s /\ messages s' = messages s.
Proof.
  intros auth s u cid memberId c row Hwf Hu Hget Hgroup Hcreator Huser Hne Hrows s'.
  destruct (unique_member_In _ _ _ _ Hrows) as (Hin & Hm & Hc).
  refine (conj _ (conj _ (conj _ (conj eq_refl eq_refl)))).
  - rewrite (removeGroupMember_steps _ _ _ _ _ _ Hu Hget Hgroup Hcreator).
    unfold isUser in Huser. destruct (get_user s memberId); [|discriminate].
    replace (memberId =? user_id u) with false by (symmetry; now apply Nat.eqb_neq).
    now rewrite Hrows.
  - subst s'. rewrite <- Hm, <- Hc. apply removed_row_gone. now rewrite Hm, Hc.
  - intros m k Hmk. apply keep_other_rows; auto.
    rewrite Hm, Hc. destruct Hmk; [left|right]; congruence.
Qed.

Lemma removeGroupMember_removes_one_row_witness :
  Conversations.removeGroupMember (Some alice_id) 10 2 group_db
  = (mkDb [alice; bob; carol] [team] [mkMember 11 1 10] [] [] [] 20,
     Ok (mkSuccess true)).
Proof.
  assert (Hwf : wf group_db) by solve_wf.
  exact (proj1 (removeGroupMember_removes_one_row (Some alice_id) group_db alice 10 2
                  team (mkMember 12 2 10) Hwf
                  (ex_intro _ alice_id (conj eq_refl eq_refl))
                  eq_refl eq_refl eq_refl eq_refl
                  (fun H : 2 = 1 => eq_ind 2 (fun n => match n with 2 => True | _ => False end)
                                      I 1 H)
                  eq_refl)).
Defined.

(** X5: a caller who is not the stored creator of the group -- not
    authenticated, without user record, a plain member, or naming a
    conversation that is no group -- can neither add nor remove members:
    [addGroupMembers] and [removeGroupMember] fail with their [Failed to ...]
    error and write nothing. *)
Theorem membership_changes_are_creator_only :
  forall (auth : option Identity) (s : Db) (conversationId : Id),
    callerIsCreator auth s conversationId = false ->
    (forall memberIds,
        Conversations.addGroupMembers auth conversationId memberIds s
        = (s, Throw (ConvexError "Failed to add members to group"))) /\
    (forall memberId,
        Conversations.removeGroupMember auth conversationId memberId s
        = (s, Throw (ConvexError "Failed to remove member from group"))).
Proof.
  intros auth s cid Hc.
  unfold Conversations.addGroupMembers, Conversations.removeGroupMember.
  destruct (callerIs_dec auth s) as [[u Hu]|Hno].
  - split; intros; unfold try_catch, bind;
      rewrite (currentUserOrThrow_ok _ _ _ _ Hu), (groupOfCreator_spec _ _ _ _ _ Hu), Hc;
      reflexivity.
  - destruct (currentUserOrThrow_fail _ _ (Error "Unauthorized") Hno) as [e He].
    split; intros; unfold try_catch, bind; rewrite He; reflexivity.
Qed.

Lemma membership_changes_are_creator_only_witness :
  Conversations.addGroupMembers (Some bob_id) 10 [IdOf 3] group_db
  = (group_db, Throw (ConvexError "Failed to add members to group")) /\
  Conversations.removeGroupMember (Some bob_id) 10 2 group_db
  = (group_db, Throw (ConvexError "Failed to remove member from group")).
Proof.
  destruct (membership_changes_are_creator_only (Some bob_id) group_db 10 eq_refl)
    as [Hadd Hremove].
  split; [apply Hadd|apply Hremove].
Defined.

(** X6: the creator cannot remove someone who is not there: when the id is
    not the id of a user, or the user holds no membership row in the group,
    [removeGroupMember] fails and writes nothing. *)
Theorem removeGroupMember_of_stranger_fails :
  forall (auth : option Identity) (s : Db) (conversationId memberId : Id),
    isUser s memberId = false \/
    members_by_memberId_conversationId s memberId conversationId = [] ->
    Conversations.removeGroupMember auth conversationId memberId s
    = (s, Throw (ConvexError "Failed to remove member from group")).
Proof.
  intros auth s cid memberId Hstranger.
  destruct (callerIsCreator auth s cid) eqn:Hc.
  - destruct (callerIsCreator_conversation _ _ _ Hc) as (u & c & Hu & Hget & Hgroup & Hcr).
    rewrite (removeGroupMember_steps _ _ _ _ _ _ Hu Hget Hgroup Hcr).
    unfold isUser in Hstranger.
    destruct (get_user s memberId); [|reflexivity].
    destruct (memberId =? user_id u); [reflexivity|].
    destruct Hstranger as [H|H]; [discriminate|]. now rewrite H.
  - unfold Conversations.removeGroupMember.
    destruct (callerIs_dec auth s) as [[u Hu]|Hno].
    + unfold try_catch, bind.
      now rewrite (currentUserOrThrow_ok _ _ _ _ Hu), (groupOfCreator_spec _ _ _ _ _ Hu), Hc.
    + destruct (currentUserOrThrow_fail _ _ (Error "Unauthorized") Hno) as [e He].
      unfold try_catch, bind. now rewrite He.
Qed.

Lemma removeGroupMember_of_stranger_fails_witness :
  Conversations.removeGroupMember (Some alice_id) 10 3 group_db
  = (group_db, Throw (ConvexError "Failed to remove member from group")) /\
  Conversations.removeGroupMember (Some alice_id) 10 99 group_db
  = (group_db, Throw (ConvexError "Failed to remove member from group")).
Proof.
  split.
  - apply removeGroupMember_of_stranger_fails. right. reflexivity.
  - apply removeGroupMember_of_stranger_fails. left. reflexivity.
Defined.

(** ** Leaving a group as a plain member *)

Lemma leaveGroup_member_run auth s u cid c row :
  callerIs auth s u ->
  get_conversation s cid = Some c ->
  conv_isGroup c = true ->
  creatorIs c (user_id u) = false ->
  members_by_memberId_conversationId s (user_id u) cid = [row] ->
  Conversations.leaveGroup auth cid s = (without_member s row, Ok (mkSuccess true)).
Proof.
  intros Hu Hget Hgroup Hcr Hrows.
  unfold Conversations.leaveGroup, try_catch. unfold bind at 1.
  rewrite (currentUserOrThrow_ok _ _ _ _ Hu).
  unfold bind at 1. unfold gets at 1. rewrite Hget, Hgroup. cbn [negb].
  unfold bind at 1. unfold bind at 1. unfold gets at 1. rewrite Hrows.
  cbn [unique]. unfold ret at 1. rewrite Hcr. unfold bind.
  destruct (unique_member_In _ _ _ _ Hrows) as (Hin & _ & _).
  now rewrite (delete_member_run _ _ Hin).
Qed.

(** X7: a member of a group who is not its creator and holds one membership
    row in it leaves with [leaveGroup]: that row is deleted and nothing else
    is written, so the group keeps its creator, name and messages, the other
    members keep their rows, and the leaver is no longer a member. *)
Theorem leaveGroup_by_member :
  forall (auth : option Identity) (s : Db) (u : User) (conversationId : Id)
         (c : Conversation) (row : ConversationMember),
    wf s ->
    callerIs auth s u ->
    get_conversation s conversationId = Some c ->
    conv_isGroup c = true ->
    conv_creatorId c <> Some (user_id u) ->
    members_by_memberId_conversationId s (user_id u) conversationId = [row] ->
    let s' := without_member s row in
    Conversations.leaveGroup auth conversationId s = (s', Ok (mkSuccess true)) /\
    get_conversation s' conversationId = Some c /\
    members_by_memberId_conversationId s' (user_id u) conversationId = [] /\
    (forall m k, m <> user_id u \/ k <> conversationId ->
       members_by_memberId_conversationId s' m k
       = members_by_memberId_conversationId s m k) /\
    messages s' = messages s.
Proof.
  intros auth s u cid c row Hwf Hu Hget Hgroup Hcr Hrows s'.
  destruct (unique_member_In _ _ _ _ Hrows) as (Hin & Hm & Hc).
  assert (Hnot : creatorIs c (user_id u) = false).
  { unfold creatorIs. destruct (conv_creatorId c) as [k|]; [|reflexivity].
    apply Nat.eqb_neq. congruence. }
  refine (conj (leaveGroup_member_run _ _ _ _ _ _ Hu Hget Hgroup Hnot Hrows)
            (conj Hget (conj _ (conj _ eq_refl)))).
  - subst s'. rewrite <- Hm, <- Hc. apply removed_row_gone. now rewrite Hm, Hc.
  - intros m k Hmk. apply keep_other_rows; auto.
    rewrite Hm, Hc. destruct Hmk; [left|right]; congruence.
Qed.

Lemma leaveGroup_by_member_witness :
  Conversations.leaveGroup (Some bob_id) 10 group_db
  = (mkDb [alice; bob; carol] [team] [mkMember 11 1 10] [] [] [] 20,
     Ok (mkSuccess true)).
Proof.
  assert (Hwf : wf group_db) by solve_wf.
  exact (proj1 (leaveGroup_by_member (Some bob_id) group_db bob 10 team
                  (mkMember 12 2 10) Hwf
                  (ex_intro _ bob_id (conj eq_refl eq_refl))
                  eq_refl eq_refl
                  (fun H : Some 1 = Some 2 =>
                     eq_ind (Some 1)
                       (fun o => match o with Some 1 => True | _ => False end) I _ H)
                  eq_refl)).
Defined.

(** X8: [leaveGroup] refuses, with [Failed to leave group] and without
    writing, when the conversation does not exist, when it is a direct
    conversation, and when the caller holds no membership row in it. *)
Theorem leaveGroup_refused :
  forall (auth : option Identity) (s : Db) (conversationId : Id),
    match get_conversation s conversationId with
    | None => True
    | Some c =>
        conv_isGroup c = false \/
        (forall u, callerIs auth s u ->
           members_by_memberId_conversationId s (user_id u) conversationId = [])
    end ->
    Conversations.leaveGroup auth conversationId s
    = (s, Throw (ConvexError "Failed to leave group")).
Proof.
  intros auth s cid H. unfold Conversations.leaveGroup.
  destruct (callerIs_dec auth s) as [[u Hu]|Hno].
  - unfold try_catch. unfold bind at 1. rewrite (currentUserOrThrow_ok _ _ _ _ Hu).
    unfold bind at 1. unfold gets at 1.
    destruct (get_conversation s cid) as [c|]; [|reflexivity].
    destruct (conv_isGroup c) eqn:Hg; [|reflexivity]. cbn [negb].
    destruct H as [H|H]; [discriminate|].
    unfold bind at 1. unfold bind at 1. unfold gets at 1. now rewrite (H u Hu).
  - destruct (currentUserOrThrow_fail _ _ (Error "Unauthorized") Hno) as [e He].
    unfold try_catch, bind. now rewrite He.
Qed.

Lemma leaveGroup_refused_witness :
  Conversations.leaveGroup (Some carol_id) 10 group_db
  = (group_db, Throw (ConvexError "Failed to leave group")) /\
  Conversations.leaveGroup (Some alice_id) 10 inbox_db
  = (inbox_db, Throw (ConvexError "Failed to leave group")) /\
  Conversations.leaveGroup (Some alice_id) 77 group_db
  = (group_db, Throw (ConvexError "Failed to leave group")).
Proof.
  refine (conj _ (conj _ _)).
  - apply leaveGroup_refused. right. intros u (i & Hi & Hu).
    inversion Hi; subst i. inversion Hu; subst u. reflexivity.
  - apply leaveGroup_refused. left. reflexivity.
  - apply leaveGroup_refused. exact I.
Defined.

(** ** Sending, listing, denying and accepting requests *)

Lemma create_resolved auth s A B email :
  callerIs auth s A ->
  isEmpty (trim email) = false ->
  (forall identity, auth = Some identity -> Requests.isOwnEmail email identity = false) ->
  users_by_email s email = [B] ->
  Requests.create auth email s = Requests.sendRequest A B s.
Proof.
  intros (identity & -> & Hu) Hemail Hown Hrecv.
  unfold Requests.create. rewrite Hemail, (Hown identity eq_refl).
  unfold bind, gets. now rewrite Hu, Hrecv.
Qed.

Lemma createByUsername_resolved auth s A B username :
  callerIs auth s A ->
  usernameRegex_test username = true ->
  isEmpty (trim username) = false ->
  ustring_eqb (toLowerCase (user_username A)) (toLowerCase username)
  || ustring_eqb (getCleanUsername (user_username A)) (toLowerCase username) = false ->
  find (matchesUsername (toLowerCase username)) (users s) = Some B ->
  Requests.createByUsername auth username s = Requests.sendRequest A B s.
Proof.
  intros (identity & -> & Hu) Hre Htrim Hself Hfind.
  unfold Requests.createByUsername, bind, gets.
  rewrite Hu, Htrim, Hre. simpl. now rewrite Hself, Hfind.
Qed.

Lemma sendRequest_run_ok s A B :
  requests_between s (user_id A) (user_id B) = [] ->
  friendships_between s (user_id A) (user_id B) = [] ->
  Requests.sendRequest A B s
  = (with_request s (user_id A) (user_id B), Ok (nextId s)).
Proof.
  intros Hr Hf.
  assert (H1 : requests_by_senderId_receiverId s (user_id A) (user_id B) = [])
    by (now rewrite requests_by_pair_between, Hr).
  assert (H2 : requests_by_senderId_receiverId s (user_id B) (user_id A) = [])
    by (now rewrite requests_by_pair_between, requests_between_sym, Hr).
  assert (H3 : friendships_by_userIds s (user_id A) (user_id B) = [])
    by (now rewrite friendships_by_pair_between, Hf).
  assert (H4 : friendships_by_userIds s (user_id B) (user_id A) = [])
    by (now rewrite friendships_by_pair_between, friendships_between_sym, Hf).
  unfold Requests.sendRequest, bind, gets. rewrite H1. cbn [unique ret].
  rewrite H2. cbn [unique ret]. rewrite H3. cbn [unique ret]. rewrite H4. reflexivity.
Qed.

Lemma sendRequest_friends s A B f :
  requests_between s (user_id A) (user_id B) = [] ->
  friendships_between s (user_id A) (user_id B) = [f] ->
  Requests.sendRequest A B s
  = (s, Throw (ConvexError "You are already friends with this user")).
Proof.
  intros Hr Hf.
  assert (H1 : requests_by_senderId_receiverId s (user_id A) (user_id B) = [])
    by (now rewrite requests_by_pair_between, Hr).
  assert (H2 : requests_by_senderId_receiverId s (user_id B) (user_id A) = [])
    by (now rewrite requests_by_pair_between, requests_between_sym, Hr).
  assert (Hl : linked (user_id A) (user_id B) (fr_userId1 f) (fr_userId2 f) = true).
  { assert (Hin : In f (friendships_between s (user_id A) (user_id B)))
      by (rewrite Hf; now left).
    unfold friendships_between in Hin. apply filter_In in Hin. tauto. }
  assert (H3 : friendships_by_userIds s (user_id A) (user_id B)
               = filter (fun x => (fr_userId1 x =? user_id A) && (fr_userId2 x =? user_id B))
                        [f])
    by (now rewrite friendships_by_pair_between, Hf).
  assert (H4 : friendships_by_userIds s (user_id B) (user_id A)
               = filter (fun x => (fr_userId1 x =? user_id B) && (fr_userId2 x =? user_id A))
                        [f])
    by (now rewrite friendships_by_pair_between, friendships_between_sym, Hf).
  unfold linked in Hl. cbn [filter] in H3, H4.
  unfold Requests.sendRequest, bind, gets. rewrite H1. cbn [unique ret].
  rewrite H2. cbn [unique ret]. rewrite H3.
  destruct ((fr_userId1 f =? user_id A) && (fr_userId2 f =? user_id B));
    cbn [unique ret]; rewrite H4;
    destruct ((fr_userId1 f =? user_id B) && (fr_userId2 f =? user_id A));
    try reflexivity; discriminate.
Qed.

Lemma get_user_of_In s u : wf s -> In u (users s) -> get_user s (user_id u) = Some u.
Proof.
  intros Hwf Hin. unfold get_user.
  destruct (find _ (users s)) as [u'|] eqn:Hfind.
  - apply find_some_id in Hfind. destruct Hfind as [Hin' Hid].
    destruct (wf_users s Hwf) as [Hnd _].
    f_equal. eapply NoDup_key_inj; eauto.
  - exfalso. apply (find_none _ _ Hfind) in Hin. now rewrite Nat.eqb_refl in Hin.
Qed.

Lemma callerIs_In auth s u : callerIs auth s u -> In u (users s).
Proof.
  intros (identity & _ & Hu). unfold getUserByClerkId in Hu.
  now apply find_some in Hu.
Qed.

Lemma getAll_run auth s u :
  callerIs auth s u ->
  Requests.getAll (mkQueryCtx auth s)
  = Ok (map (fun r => Requests.mkWithSender r (get_user s (req_senderId r)))
            (requests_by_receiverId_status s (user_id u) "pending")).
Proof.
  intros (identity & -> & Hu). unfold Requests.getAll. cbn [auth db]. now rewrite Hu.
Qed.

(** X9: a request that was sent shows up in the receiver's list.  When A
    sends a request to B, by e-mail or by user name, and neither a request
    nor a friendship between the two is stored, the call returns the id of a
    new pending request from A to B, and [getAll] called by B afterwards
    returns what it returned before followed by that request together with
    the user record of A. *)
Theorem sent_request_is_listed :
  forall (authA authB : option Identity) (s : Db) (A B : User),
    wf s ->
    callerIs authA s A ->
    callerIs authB s B ->
    requests_between s (user_id A) (user_id B) = [] ->
    friendships_between s (user_id A) (user_id B) = [] ->
    let s' := with_request s (user_id A) (user_id B) in
    let sent :=
      Requests.mkWithSender (mkRequest (nextId s) (user_id A) (user_id B) "pending")
        (Some A) in
    (forall email,
        isEmpty (trim email) = false ->
        (forall identity, authA = Some identity ->
           Requests.isOwnEmail email identity = false) ->
        users_by_email s email = [B] ->
        Requests.create authA email s = (s', Ok (nextId s))) /\
    (forall username,
        usernameRegex_test username = true ->
        isEmpty (trim username) = false ->
        ustring_eqb (toLowerCase (user_username A)) (toLowerCase username)
        || ustring_eqb (getCleanUsername (user_username A)) (toLowerCase username)
        = false ->
        find (matchesUsername (toLowerCase username)) (users s) = Some B ->
        Requests.createByUsername authA username s = (s', Ok (nextId s))) /\
    (exists before,
        Requests.getAll (mkQueryCtx authB s) = Ok before /\
        Requests.getAll (mkQueryCtx authB s') = Ok (before ++ [sent])).
Proof.
  intros authA authB s A B Hwf HA HB Hr Hf s' sent.
  refine (conj _ (conj _ _)).
  - intros email He Hown Hrecv.
    rewrite (create_resolved _ _ _ _ _ HA He Hown Hrecv). now apply sendRequest_run_ok.
  - intros username Hre Htrim Hself Hfind.
    rewrite (createByUsername_resolved _ _ _ _ _ HA Hre Htrim Hself Hfind).
    now apply sendRequest_run_ok.
  - eexists. split; [apply (getAll_run _ _ _ HB)|].
    assert (HB' : callerIs authB s' B) by exact HB.
    rewrite (getAll_run _ _ _ HB').
    unfold requests_by_receiverId_status, s', with_request. cbn [requests].
    rewrite filter_app, map_app. cbn [filter req_receiverId req_status].
    rewrite Nat.eqb_refl, String.eqb_refl. cbn [andb map app req_senderId].
    unfold sent.
    replace (get_user _ (user_id A)) with (Some A); [reflexivity|].
    symmetry. apply (get_user_of_In s A Hwf). now apply callerIs_In in HA.
Qed.

Lemma sent_request_is_listed_witness :
  Requests.create (Some alice_id) (str "bob@example.com") users_db = (pending_db, Ok 30) /\
  Requests.createByUsername (Some alice_id) (str "Bob") users_db = (pending_db, Ok 30) /\
  Requests.getAll (mkQueryCtx (Some bob_id) pending_db)
  = Ok [Requests.mkWithSender alice_to_bob (Some alice)].
Proof.
  assert (Hwf : wf users_db) by solve_wf.
  destruct (sent_request_is_listed (Some alice_id) (Some bob_id) users_db alice bob Hwf
              (ex_intro _ alice_id (conj eq_refl eq_refl))
              (ex_intro _ bob_id (conj eq_refl eq_refl)) eq_refl eq_refl)
    as (Hcreate & Hname & before & Hbefore & Hafter).
  refine (conj _ (conj _ _)).
  - apply Hcreate; [reflexivity| |reflexivity].
    intros identity H. inversion H. reflexivity.
  - apply Hname; reflexivity.
  - inversion Hbefore; subst before. exact Hafter.
Defined.

Lemma accepted_between s u r x y :
  requests_ok s -> In r (requests s) -> req_receiverId r = user_id u ->
  linked (req_senderId r) (req_receiverId r) x y = true ->
  requests_between (accepted s u r) x y = [] /\
  friendships_between (accepted s u r) x y
  = [mkFriendship (S (nextId s)) (user_id u) (req_senderId r) "accepted"].
Proof.
  intros Hok Hin Hrecv Hl.
  assert (Hsame : forall a b, linked x y a b = linked (req_senderId r) (req_receiverId r) a b).
  { intros a b. revert Hl. unfold linked.
    rewrite !orb_true_iff, !andb_true_iff, !Nat.eqb_eq.
    intros [[-> ->]|[-> ->]]; [reflexivity|apply orb_comm]. }
  split.
  - unfold requests_between, accepted. cbn [requests]. rewrite filter_swap.
    rewrite (filter_ext _ _ (fun q => Hsame (req_senderId q) (req_receiverId q))).
    fold (requests_between s (req_senderId r) (req_receiverId r)).
    rewrite (pending_unique _ _ Hok Hin). simpl. now rewrite Nat.eqb_refl.
  - unfold friendships_between, accepted. cbn [friendships]. rewrite filter_app.
    rewrite (filter_ext _ _ (fun q => Hsame (fr_userId1 q) (fr_userId2 q))).
    fold (friendships_between s (req_senderId r) (req_receiverId r)).
    destruct (Hok r Hin) as [_ ->]. cbn [app filter fr_userId1 fr_userId2].
    now rewrite Hsame, Hrecv, linked_swap, linked_refl.
Qed.

(** X10: friends cannot send each other requests.  Once B has accepted the
    request of A, a call by either of the two to [create] or to
    [createByUsername] whose receiver resolves to the other fails with [You
    are already friends with this user] and writes nothing. *)
Theorem friends_cannot_send_requests :
  forall (authB : option Identity) (s : Db) (B : User) (id : Id) (r : Request),
    Inv s ->
    callerIs authB s B ->
    get_request s id = Some r ->
    req_receiverId r = user_id B ->
    let s' := fst (mutation (Requests.accept authB id) s) in
    forall (auth : option Identity) (X Y : User),
      callerIs auth s' X ->
      linked (req_senderId r) (req_receiverId r) (user_id X) (user_id Y) = true ->
      (forall email,
          isEmpty (trim email) = false ->
          (forall identity, auth = Some identity ->
             Requests.isOwnEmail email identity = false) ->
          users_by_email s' email = [Y] ->
          Requests.create auth email s'
          = (s', Throw (ConvexError "You are already friends with this user"))) /\
      (forall username,
          usernameRegex_test username = true ->
          isEmpty (trim username) = false ->
          ustring_eqb (toLowerCase (user_username X)) (toLowerCase username)
          || ustring_eqb (getCleanUsername (user_username X)) (toLowerCase username)
          = false ->
          find (matchesUsername (toLowerCase username)) (users s') = Some Y ->
          Requests.createByUsername auth username s'
          = (s', Throw (ConvexError "You are already friends with this user"))).
Proof.
  intros authB s B id r [Hwf Hok] HB Hget Hrecv s' auth X Y HX Hl.
  assert (Hs' : s' = accepted s B r).
  { unfold s', mutation. now rewrite (accept_run _ _ _ _ _ HB Hget Hrecv). }
  clearbody s'. subst s'.
  destruct (accepted_between s B r (user_id X) (user_id Y) Hok
              (get_request_In _ _ _ Hget) Hrecv Hl) as [Hnone Hfriend].
  pose proof (sendRequest_friends _ X Y _ Hnone Hfriend) as Hsend.
  split.
  - intros email He Hown Hto. now rewrite (create_resolved _ _ _ _ _ HX He Hown Hto).
  - intros username Hre Htrim Hself Hfind.
    now rewrite (createByUsername_resolved _ _ _ _ _ HX Hre Htrim Hself Hfind).
Qed.

Lemma friends_cannot_send_requests_witness :
  let friends_db := fst (mutation (Requests.accept (Some bob_id) 30) pending_db) in
  Requests.create (Some alice_id) (str "bob@example.com") friends_db
  = (friends_db, Throw (ConvexError "You are already friends with this user")) /\
  Requests.createByUsername (Some bob_id) (str "alice") friends_db
  = (friends_db, Throw (ConvexError "You are already friends with this user")).
Proof.
  assert (Hinv : Inv pending_db).
  { split; [solve_wf|]. intros r [<-|[]]. split; [simpl; lia|reflexivity]. }
  pose proof (friends_cannot_send_requests (Some bob_id) pending_db bob 30 alice_to_bob
                Hinv (ex_intro _ bob_id (conj eq_refl eq_refl)) eq_refl eq_refl) as H.
  split.
  - apply (proj1 (H (Some alice_id) alice bob
                    (ex_intro _ alice_id (conj eq_refl eq_refl)) eq_refl)).
    + reflexivity.
    + intros identity Hi. inversion Hi. reflexivity.
    + reflexivity.
  - apply (proj2 (H (Some bob_id) bob alice
                    (ex_intro _ bob_id (conj eq_refl eq_refl)) eq_refl)); reflexivity.
Defined.

Lemma deny_run auth s u id r :
  callerIs auth s u ->
  get_request s id = Some r ->
  req_receiverId r = user_id u ->
  Requests.deny auth id s = (without_request s id, Ok tt).
Proof.
  intros Hu Hget Hrecv. unfold Requests.deny. unfold bind at 1.
  rewrite (currentUserOrThrow_ok _ _ _ _ Hu).
  unfold bind, gets. rewrite Hget, Hrecv, Nat.eqb_refl. cbn [negb].
  unfold delete_request.
  pose proof (get_request_In _ _ _ Hget) as Hin.
  pose proof (get_request_id _ _ _ Hget) as Hid.
  replace (existsb (fun x => req_id x =? id) (requests s)) with true
    by (symmetry; rewrite <- Hid; apply (existsb_of_In req_id _ _ Hin)).
  reflexivity.
Qed.

Lemma not_for_caller auth s u id :
  callerIs auth s u ->
  (forall r, get_request s id = Some r -> req_receiverId r <> user_id u) ->
  Requests.deny auth id s = (s, Throw (ConvexError "Request not found")) /\
  Requests.accept auth id s
  = (s, Throw (ConvexError "There was an error accepting this request")).
Proof.
  intros Hu Hnot. unfold Requests.deny, Requests.accept.
  split; unfold bind at 1; rewrite (currentUserOrThrow_ok _ _ _ _ Hu);
    unfold bind at 1; unfold gets at 1;
    destruct (get_request s id) as [r|] eqn:Hget; try reflexivity;
    replace (req_receiverId r =? user_id u) with false
      by (symmetry; apply Nat.eqb_neq; now apply Hnot);
    reflexivity.
Qed.

Lemma map_filter_key {A B} (f : A -> B) (p : A -> bool) (q : B -> bool) (l : list A) :
  (forall x, q (f x) = p x) -> map f (filter p l) = filter q (map f l).
Proof.
  intros H. induction l as [|x l IH]; simpl; [reflexivity|].
  rewrite H. destruct (p x); simpl; now rewrite IH.
Qed.

(** X11: the receiver of a request denies it.  [deny] deletes the request
    and writes nothing else; the other requests can still be fetched; the
    request is no longer in the receiver's [getAll] list, whose other entries
    are as before; and denying or accepting the same id again fails. *)
Theorem deny_removes_request :
  forall (auth : option Identity) (s : Db) (u : User) (id : Id) (r : Request),
    callerIs auth s u ->
    get_request s id = Some r ->
    req_receiverId r = user_id u ->
    let s' := without_request s id in
    Requests.deny auth id s = (s', Ok tt) /\
    get_request s' id = None /\
    (forall other, other <> id -> get_request s' other = get_request s other) /\
    (exists before,
        Requests.getAll (mkQueryCtx auth s) = Ok before /\
        Requests.getAll (mkQueryCtx auth s')
        = Ok (filter (fun e => negb (req_id (Requests.request e) =? id)) before)) /\
    Requests.deny auth id s' = (s', Throw (ConvexError "Request not found")) /\
    Requests.accept auth id s'
    = (s', Throw (ConvexError "There was an error accepting this request")).
Proof.
  intros auth s u id r Hu Hget Hrecv s'.
  assert (Hgone : get_request s' id = None) by apply find_after_delete.
  assert (Hu' : callerIs auth s' u) by exact Hu.
  refine (conj (deny_run _ _ _ _ _ Hu Hget Hrecv) (conj Hgone (conj _ (conj _ _)))).
  - intros other Hne. apply (find_other_key req_id). exact Hne.
  - eexists. split; [apply (getAll_run _ _ _ Hu)|].
    rewrite (getAll_run _ _ _ Hu'). f_equal.
    unfold requests_by_receiverId_status, s', without_request. cbn [requests].
    rewrite filter_swap.
    change (fun r0 : Request =>
              Requests.mkWithSender r0
                (get_user (mkDb (users s) (conversations s) (conversationMembers s)
                             (messages s)
                             (filter (fun r1 => negb (req_id r1 =? id)) (requests s))
                             (friendships s) (nextId s)) (req_senderId r0)))
      with (fun r0 : Request => Requests.mkWithSender r0 (get_user s (req_senderId r0))).
    apply map_filter_key. reflexivity.
  - apply (not_for_caller auth s' u id Hu'). intros q Hq. congruence.
Qed.

Lemma deny_removes_request_witness :
  Requests.deny (Some bob_id) 30 pending_db = (users_db_after_deny, Ok tt) /\
  Requests.getAll (mkQueryCtx (Some bob_id) users_db_after_deny) = Ok [].
Proof.
  destruct (deny_removes_request (Some bob_id) pending_db bob 30 alice_to_bob
              (ex_intro _ bob_id (conj eq_refl eq_refl)) eq_refl eq_refl)
    as (Hdeny & _ & _ & (before & Hbefore & Hafter) & _).
  split; [exact Hdeny|].
  inversion Hbefore; subst before. exact Hafter.
Defined.

(** X12: a request addressed to someone else looks like a missing one.  When
    the caller is not the receiver of the request with the given id, [deny]
    fails with [Request not found] and [accept] with [There was an error
    accepting this request], the errors they give for an id that is not
    stored, and nothing is written. *)
Theorem requests_of_others_look_missing :
  forall (auth : option Identity) (s : Db) (u : User) (id missing : Id) (r : Request),
    callerIs auth s u ->
    get_request s id = Some r ->
    req_receiverId r <> user_id u ->
    get_request s missing = None ->
    Requests.deny auth id s = Requests.deny auth missing s /\
    Requests.accept auth id s = Requests.accept auth missing s /\
    Requests.deny auth id s = (s, Throw (ConvexError "Request not found")) /\
    Requests.accept auth id s
    = (s, Throw (ConvexError "There was an error accepting this request")).
Proof.
  intros auth s u id missing r Hu Hget Hne Hmissing.
  destruct (not_for_caller auth s u id Hu) as [Hd Ha].
  { intros q Hq. congruence. }
  destruct (not_for_caller auth s u missing Hu) as [Hd' Ha'].
  { intros q Hq. congruence. }
  rewrite Hd, Ha, Hd', Ha'. repeat split.
Qed.

Lemma requests_of_others_look_missing_witness :
  Requests.deny (Some carol_id) 30 pending_db
  = (pending_db, Throw (ConvexError "Request not found")) /\
  Requests.accept (Some alice_id) 30 pending_db
  = (pending_db, Throw (ConvexError "There was an error accepting this request")).
Proof.
  split.
  - apply (requests_of_others_look_missing (Some carol_id) pending_db carol 30 31
             alice_to_bob (ex_intro _ carol_id (conj eq_refl eq_refl)) eq_refl);
      [discriminate|reflexivity].
  - apply (requests_of_others_look_missing (Some alice_id) pending_db alice 30 31
             alice_to_bob (ex_intro _ alice_id (conj eq_refl eq_refl)) eq_refl);
      [discriminate|reflexivity].
Defined.

(** X13: nothing remembers a denial.  After B has denied the request of A,
    A can send the request again: on the store that [deny] committed, a call
    by A to [create] or [createByUsername] whose receiver resolves to B
    inserts a new pending request from A to B. *)
Theorem denied_request_can_be_sent_again :
  forall (authA authB : option Identity) (s : Db) (A B : User) (id : Id) (r : Request),
    requests_ok s ->
    callerIs authA s A ->
    callerIs authB s B ->
    get_request s id = Some r ->
    req_senderId r = user_id A ->
    req_receiverId r = user_id B ->
    let s1 := fst (mutation (Requests.deny authB id) s) in
    let s2 := with_request s1 (user_id A) (user_id B) in
    (forall email,
        isEmpty (trim email) = false ->
        (forall identity, authA = Some identity ->
           Requests.isOwnEmail email identity = false) ->
        users_by_email s1 email = [B] ->
        Requests.create authA email s1 = (s2, Ok (nextId s))) /\
    (forall username,
        usernameRegex_test username = true ->
        isEmpty (trim username) = false ->
        ustring_eqb (toLowerCase (user_username A)) (toLowerCase username)
        || ustring_eqb (getCleanUsername (user_username A)) (toLowerCase username)
        = false ->
        find (matchesUsername (toLowerCase username)) (users s1) = Some B ->
        Requests.createByUsername authA username s1 = (s2, Ok (nextId s))).
Proof.
  intros authA authB s A B id r Hok HA HB Hget Hsender Hrecv s1 s2.
  assert (Hs1 : s1 = without_request s id).
  { unfold s1, mutation. now rewrite (deny_run _ _ _ _ _ HB Hget Hrecv). }
  pose proof (get_request_In _ _ _ Hget) as Hin.
  pose proof (get_request_id _ _ _ Hget) as Hid.
  assert (Hnone : requests_between s1 (user_id A) (user_id B) = []).
  { rewrite Hs1. unfold requests_between, without_request. cbn [requests].
    rewrite filter_swap. fold (requests_between s (user_id A) (user_id B)).
    rewrite <- Hsender, <- Hrecv, (pending_unique _ _ Hok Hin). simpl.
    now rewrite Hid, Nat.eqb_refl. }
  assert (Hfree : friendships_between s1 (user_id A) (user_id B) = []).
  { rewrite Hs1. destruct (Hok r Hin) as [_ Hf]. rewrite Hsender, Hrecv in Hf. exact Hf. }
  assert (HA1 : callerIs authA s1 A) by (rewrite Hs1; exact HA).
  assert (Hnext : nextId s1 = nextId s) by now rewrite Hs1.
  pose proof (sendRequest_run_ok s1 A B Hnone Hfree) as Hsend.
  rewrite Hnext in Hsend. fold s2 in Hsend.
  split.
  - intros email He Hown Hto. now rewrite (create_resolved _ _ _ _ _ HA1 He Hown Hto).
  - intros username Hre Htrim Hself Hfind.
    now rewrite (createByUsername_resolved _ _ _ _ _ HA1 Hre Htrim Hself Hfind).
Qed.

Lemma denied_request_can_be_sent_again_witness :
  let denied := fst (mutation (Requests.deny (Some bob_id) 30) pending_db) in
  Requests.create (Some alice_id) (str "bob@example.com") denied
  = (mkDb [alice; bob; carol] [] [] [] [mkRequest 31 1 2 "pending"] [] 32, Ok 31).
Proof.
  assert (Hok : requests_ok pending_db).
  { intros r [<-|[]]. split; [simpl; lia|reflexivity]. }
  apply (proj1 (denied_request_can_be_sent_again (Some alice_id) (Some bob_id) pending_db
                  alice bob 30 alice_to_bob Hok
                  (ex_intro _ alice_id (conj eq_refl eq_refl))
                  (ex_intro _ bob_id (conj eq_refl eq_refl))
                  eq_refl eq_refl eq_refl)).
  - reflexivity.
  - intros identity H. inversion H. reflexivity.
  - reflexivity.
Defined.

(** ** What [conversations.get] lists *)

Lemma sort_insert_perm {A} (compare : A -> A -> Z) x l :
  Permutation (x :: l) (sort_insert compare x l).
Proof.
  induction l as [|y l IH]; simpl; [apply Permutation_refl|].
  destruct (compare x y <=? 0)%Z; [apply Permutation_refl|].
  eapply perm_trans; [apply perm_swap|]. now apply perm_skip.
Qed.

Lemma array_sort_perm {A} (compare : A -> A -> Z) l :
  Permutation l (array_sort compare l).
Proof.
  induction l as [|x l IH]; simpl; [apply perm_nil|].
  eapply perm_trans; [apply perm_skip, IH|]. apply sort_insert_perm.
Qed.

Lemma filter_perm {A} (p : A -> bool) l l' :
  Permutation l l' -> Permutation (filter p l) (filter p l').
Proof.
  induction 1 as [|x l l' _ IH|x y l|l l' l'' _ IH1 _ IH2]; simpl.
  - apply perm_nil.
  - destruct (p x); [now apply perm_skip|exact IH].
  - destruct (p x), (p y); try apply Permutation_refl. apply perm_swap.
  - eapply perm_trans; eauto.
Qed.

Lemma get_run auth s u :
  callerIs auth s u ->
  Conversations.get (mkQueryCtx auth s)
  = Ok (non_null (map (Conversations.withDetails s u)
                      (array_sort Conversations.byLastMessageDesc
                         (Conversations.filteredConversations s u)))).
Proof.
  intros (identity & -> & Hu).
  unfold Conversations.get, Conversations.get_body. cbn [auth db]. now rewrite Hu.
Qed.

Lemma non_null_length {A} (l : list (option A)) : List.length (non_null l) <= List.length l.
Proof.
  induction l as [|[x|] l IH]; simpl; lia.
Qed.

(** X14: sorting loses nothing.  The conversations [get] returns are, up to
    their order, the conversations of the caller's membership rows for which
    details can be given: none is dropped by the sort and none is listed more
    often than the caller has membership rows for it.  In particular the list
    is never longer than the caller's list of membership rows. *)
Theorem get_lists_each_membership_once :
  forall (auth : option Identity) (s : Db) (u : User),
    callerIs auth s u ->
    exists result,
      Conversations.get (mkQueryCtx auth s) = Ok result /\
      Permutation (map Conversations.conversation result)
                  (filter (hasDetails s u) (Conversations.filteredConversations s u)) /\
      List.length result <= List.length (members_by_memberId s (user_id u)).
Proof.
  intros auth s u Hu. eexists. split; [apply (get_run _ _ _ Hu)|]. split.
  - rewrite details_of_kept. apply filter_perm, Permutation_sym, array_sort_perm.
  - rewrite <- (length_map Conversations.conversation), details_of_kept.
    eapply Nat.le_trans; [apply filter_length_le|].
    rewrite <- (Permutation_length (array_sort_perm _ _)).
    unfold Conversations.filteredConversations.
    eapply Nat.le_trans; [apply non_null_length|]. now rewrite length_map.
Qed.

Lemma get_lists_each_membership_once_witness :
  exists result,
    Conversations.get (mkQueryCtx (Some alice_id) inbox_db) = Ok result /\
    List.length result <= 4.
Proof.
  destruct (get_lists_each_membership_once (Some alice_id) inbox_db alice
              (ex_intro _ alice_id (conj eq_refl eq_refl))) as (result & Hget & _ & Hlen).
  exists result. split; [exact Hget|exact Hlen].
Defined.

(** X15: a caller without membership rows has an empty list: [get] returns
    the empty list when no membership row carries the caller's user id. *)
Theorem get_empty_without_memberships :
  forall (auth : option Identity) (s : Db) (u : User),
    callerIs auth s u ->
    members_by_memberId s (user_id u) = [] ->
    Conversations.get (mkQueryCtx auth s) = Ok [].
Proof.
  intros auth s u Hu Hnone. rewrite (get_run _ _ _ Hu).
  unfold Conversations.filteredConversations. now rewrite Hnone.
Qed.

Lemma get_empty_without_memberships_witness :
  Conversations.get (mkQueryCtx (Some carol_id) group_db) = Ok [].
Proof.
  apply (get_empty_without_memberships (Some carol_id) group_db carol
           (ex_intro _ carol_id (conj eq_refl eq_refl))).
  reflexivity.
Defined.




Lemma accepted_conversation s u r :
  wf s ->
  get_conversation (accepted s u r) (nextId s)
  = Some (mkConversation (nextId s) false None None None None) /\
  members_by_conversationId (accepted s u r) (nextId s)
  = [mkMember (S (S (nextId s))) (user_id u) (nextId s);
     mkMember (S (S (S (nextId s)))) (req_senderId r) (nextId s)].
Proof.
  intros Hwf. split.
  - unfold get_conversation, accepted. cbn [conversations].
    rewrite find_snoc, (find_fresh s Hwf). cbn [conv_id]. now rewrite Nat.eqb_refl.
  - unfold members_by_conversationId, accepted. cbn [conversationMembers].
    rewrite filter_app. fold (members_by_conversationId s (nextId s)).
    rewrite (no_members_of_fresh s Hwf). simpl. now rewrite Nat.eqb_refl.
Qed.

Lemma accepted_listed auth s u r me other :
  wf s ->
  callerIs auth s me ->
  In other (users s) ->
  user_id other <> user_id me ->
  (user_id me = user_id u /\ user_id other = req_senderId r) \/
  (user_id me = req_senderId r /\ user_id other = user_id u) ->
  exists result,
    Conversations.get (mkQueryCtx auth (accepted s u r)) = Ok result /\
    In (Conversations.mkDetails
          (Conversations.mkWithTimestamp
             (mkConversation (nextId s) false None None None None) 0)
          (Some other) None None) result.
Proof.
  intros Hwf Hme Hother Hne Hroles.
  destruct (accepted_conversation s u r Hwf) as [Hconv Hmembers].
  assert (Hme' : callerIs auth (accepted s u r) me) by exact Hme.
  eexists. split; [apply (get_run _ _ _ Hme')|].
  set (c := Conversations.mkWithTimestamp
              (mkConversation (nextId s) false None None None None) 0).
  apply non_null_In, in_map_iff. exists c. split.
  - unfold Conversations.withDetails. cbn [Conversations.doc c conv_id conv_isGroup
      conv_lastMessageId Conversations.getLastMessageDetails].
    rewrite Hmembers. cbn [filter cm_memberId].
    assert (Hget : get_user (accepted s u r) (user_id other) = Some other)
      by (apply (get_user_of_In s other Hwf Hother)).
    destruct Hroles as [[H1 H2]|[H1 H2]].
    + rewrite <- H1, <- H2, Nat.eqb_refl.
      replace (user_id other =? user_id me) with false
        by (symmetry; now apply Nat.eqb_neq).
      cbn [negb cm_memberId]. now rewrite Hget.
    + rewrite <- H1, <- H2, Nat.eqb_refl.
      replace (user_id other =? user_id me) with false
        by (symmetry; now apply Nat.eqb_neq).
      cbn [negb cm_memberId]. now rewrite Hget.
  - apply (proj2 (array_sort_In _ Conversations.lastMessageTimestamp _ _)).
    unfold Conversations.filteredConversations. apply non_null_In, in_map_iff.
    destruct Hroles as [[H1 H2]|[H1 H2]].
    + exists (mkMember (S (S (nextId s))) (user_id u) (nextId s)). split.
      * unfold Conversations.withTimestamp. cbn [cm_conversationId]. now rewrite Hconv.
      * unfold members_by_memberId, accepted. cbn [conversationMembers].
        apply filter_In. split; [apply in_or_app; right; now left|].
        cbn [cm_memberId]. now rewrite H1, Nat.eqb_refl.
    + exists (mkMember (S (S (S (nextId s)))) (req_senderId r) (nextId s)). split.
      * unfold Conversations.withTimestamp. cbn [cm_conversationId]. now rewrite Hconv.
      * unfold members_by_memberId, accepted. cbn [conversationMembers].
        apply filter_In. split; [apply in_or_app; right; right; now left|].
        cbn [cm_memberId]. now rewrite H1, Nat.eqb_refl.
Qed.

(** X17: accepting opens the conversation for both.  After B has accepted
    the request of another user A, the list that [get] returns to B contains
    the new direct conversation with A as other member, and the list it
    returns to A contains it with B as other member; the entry has time 0 and
    no last message. *)
Theorem accepted_request_opens_conversation :
  forall (authA authB : option Identity) (s : Db) (A B : User) (id : Id) (r : Request),
    wf s ->
    callerIs authA s A ->
    callerIs authB s B ->
    get_request s id = Some r ->
    req_senderId r = user_id A ->
    req_receiverId r = user_id B ->
    user_id A <> user_id B ->
    let s' := fst (mutation (Requests.accept authB id) s) in
    let opened other :=
      Conversations.mkDetails
        (Conversations.mkWithTimestamp
           (mkConversation (nextId s) false None None None None) 0)
        (Some other) None None in
    (exists result,
        Conversations.get (mkQueryCtx authB s') = Ok result /\ In (opened A) result) /\
    (exists result,
        Conversations.get (mkQueryCtx authA s') = Ok result /\ In (opened B) result).
Proof.
  intros authA authB s A B id r Hwf HA HB Hget Hsender Hrecv Hne s' opened.
  assert (Hs' : s' = accepted s B r).
  { unfold s', mutation. now rewrite (accept_run _ _ _ _ _ HB Hget Hrecv). }
  rewrite Hs'. split.
  - apply (accepted_listed authB s B r B A Hwf HB (callerIs_In _ _ _ HA)); auto.
  - apply (accepted_listed authA s B r A B Hwf HA (callerIs_In _ _ _ HB)); auto.
Qed.

Lemma accepted_request_opens_conversation_witness :
  let s' := fst (mutation (Requests.accept (Some bob_id) 30) pending_db) in
  Conversations.get (mkQueryCtx (Some bob_id) s')
  = Ok [Conversations.mkDetails
          (Conversations.mkWithTimestamp (mkConversation 31 false None None None None) 0)
          (Some alice) None None] /\
  exists result,
    Conversations.get (mkQueryCtx (Some alice_id) s') = Ok result /\
    In (Conversations.mkDetails
          (Conversations.mkWithTimestamp (mkConversation 31 false None None None None) 0)
          (Some bob) None None) result.
Proof.
  assert (Hwf : wf pending_db) by solve_wf.
  split; [reflexivity|].
  exact (proj2 (accepted_request_opens_conversation (Some alice_id) (Some bob_id)
                  pending_db alice bob 30 alice_to_bob Hwf
                  (ex_intro _ alice_id (conj eq_refl eq_refl))
                  (ex_intro _ bob_id (conj eq_refl eq_refl))
                  eq_refl eq_refl eq_refl
                  (fun H : 1 = 2 =>
                     eq_ind 1 (fun n => match n with 1 => True | _ => False end) I 2 H))).
Defined.

(** ** The store invariant along runs *)

(** X18: the handlers keep the rules of the data model.  In every store
    reached by calls of the mutations, by whatever callers and with whatever
    arguments, from a store that holds users only, document ids are well
    formed, and for every stored request there is no second request between
    its two users, in either direction, and no friendship row for them. *)
Theorem reachable_stores_keep_the_rules :
  forall (us : list User) (n : Id) (s : Db),
    table_ok (map user_id us) n ->
    reachable (mkDb us [] [] [] [] [] n) s ->
    wf s /\
    forall r, In r (requests s) ->
      requests_between s (req_senderId r) (req_receiverId r) = [r] /\
      friendships_between s (req_senderId r) (req_receiverId r) = [].
Proof.
  intros us n s Hus Hreach.
  destruct (Inv_reachable _ _ (Inv_users_only us n Hus) Hreach) as [Hwf Hok].
  split; [exact Hwf|]. intros r Hin. split.
  - now apply pending_unique.
  - now apply Hok.
Qed.

Lemma reachable_stores_keep_the_rules_witness :
  let s := commit (Some bob_id) (CreateRequestByUsername (str "alice"))
             (commit (Some alice_id) (CreateRequest (str "bob@example.com")) users_db) in
  requests s = [alice_to_bob] /\ wf s.
Proof.
  split; [reflexivity|].
  apply (reachable_stores_keep_the_rules [alice; bob; carol] 30).
  - split; [repeat constructor; simpl; intuition discriminate|repeat constructor; simpl; lia].
  - apply reachable_call, reachable_call, reachable_start.
Defined.

(** ** Failing calls *)

Lemma quiet_ok {A} (m : M A) s s' a : m s = (s', Ok a) -> quiet m s.
Proof. intros H s'' e H'. congruence. Qed.

Lemma quiet_throw {A} e s : quiet (@throw A e) s.
Proof. intros s' e' H. inversion H. reflexivity. Qed.

Lemma quiet_rethrow {A} (m : M A) e s :
  quiet m s -> quiet (try_catch m (fun _ => throw e)) s.
Proof.
  intros H s' e' H'. unfold try_catch, throw in H'.
  destruct (m s) as [s1 [a|e1]] eqn:Hm; [discriminate|].
  inversion H'; subst. now apply (H s' e1).
Qed.

Lemma quiet_read {A B} (m : M A) (k : A -> M B) s :
  (forall s' r, m s = (s', r) -> s' = s) ->
  (forall a, m s = (s, Ok a) -> quiet (k a) s) ->
  quiet (bind m k) s.
Proof.
  intros Hread Hk s' e H. unfold bind in H.
  destruct (m s) as [s1 [a|e1]] eqn:Hm.
  - pose proof (Hread _ _ eq_refl). subst s1. now apply (Hk a eq_refl s' e).
  - inversion H; subst. now apply (Hread _ _ eq_refl).
Qed.

Lemma quiet_gets {A B} (f : Db -> A) (k : A -> M B) s :
  quiet (k (f s)) s -> quiet (bind (gets f) k) s.
Proof.
  intros H. apply quiet_read.
  - intros s' r Hr. unfold gets in Hr. now inversion Hr.
  - intros a Ha. unfold gets in Ha. inversion Ha. exact H.
Qed.

Lemma quiet_user {B} auth e (k : User -> M B) s :
  (forall u, callerIs auth s u -> quiet (k u) s) ->
  quiet (bind (currentUserOrThrow auth e) k) s.
Proof.
  intros H. destruct (callerIs_dec auth s) as [[u Hu]|Hno].
  - apply quiet_read; rewrite (currentUserOrThrow_ok _ _ _ e Hu).
    + intros s' r Hr. now inversion Hr.
    + intros a Ha. inversion Ha; subst. now apply H.
  - destruct (currentUserOrThrow_fail _ _ e Hno) as [e' He].
    apply quiet_read; rewrite He.
    + intros s' r Hr. now inversion Hr.
    + intros a Ha. discriminate.
Qed.

Lemma quiet_group {B} cid u denied (k : Conversation -> M B) s :
  (forall c, get_conversation s cid = Some c -> conv_isGroup c = true ->
             creatorIs c (user_id u) = true -> quiet (k c) s) ->
  quiet (bind (groupOfCreator cid u denied) k) s.
Proof.
  intros H. apply quiet_read.
  - intros s' r. unfold groupOfCreator, bind, gets.
    destruct (get_conversation s cid) as [c|]; [|intros Hr; now inversion Hr].
    destruct (negb (conv_isGroup c)); [intros Hr; now inversion Hr|].
    destruct (negb (creatorIs c (user_id u))); intros Hr; now inversion Hr.
  - intros c. unfold groupOfCreator, bind, gets.
    destruct (get_conversation s cid) as [c'|] eqn:Hc; [|discriminate].
    destruct (conv_isGroup c') eqn:Hg; [|discriminate].
    destruct (creatorIs c' (user_id u)) eqn:Hcr; [|discriminate].
    cbn. intros Hr. inversion Hr; subst. now apply H.
Qed.

Lemma quiet_unique {A B} (f : Db -> list A) (k : option A -> M B) s :
  (forall x, (x = None /\ f s = [] \/ exists r, x = Some r /\ f s = [r]) -> quiet (k x) s) ->
  quiet (bind (bind (gets f) (fun rows => unique rows)) k) s.
Proof.
  intros H. apply quiet_read.
  - intros s' r. unfold bind, gets.
    destruct (f s) as [|x [|y l]]; cbn; intros Hr; now inversion Hr.
  - intros a. unfold bind, gets.
    destruct (f s) as [|x [|y l]] eqn:Hf; cbn; intros Hr; inversion Hr; subst.
    + apply H. auto.
    + apply H. right. eauto.
Qed.

Lemma sendRequest_quiet A B s : quiet (Requests.sendRequest A B) s.
Proof.
  unfold Requests.sendRequest.
  apply quiet_unique. intros [x|] _; [apply quiet_throw|].
  apply quiet_unique. intros [y|] _; [apply quiet_throw|].
  apply quiet_unique. intros f1 _. apply quiet_unique. intros f2 _.
  destruct f1, f2; try apply quiet_throw.
  eapply quiet_ok. reflexivity.
Qed.

Lemma delete_member_quiet_tail {A} s row (a : A) :
  In row (conversationMembers s) ->
  quiet (delete_member (cm_id row) ;;; ret a) s.
Proof.
  intros Hin. eapply quiet_ok. unfold bind. rewrite (delete_member_run _ _ Hin).
  reflexivity.
Qed.

Lemma unique_row_In s memberId cid x :
  (x = None /\ members_by_memberId_conversationId s memberId cid = [] \/
   exists r, x = Some r /\ members_by_memberId_conversationId s memberId cid = [r]) ->
  forall row, x = Some row -> In row (conversationMembers s).
Proof.
  intros [[-> _]|(r & -> & Hr)] row Hrow; [discriminate|].
  inversion Hrow; subst. now destruct (unique_member_In _ _ _ _ Hr).
Qed.

(** X19: a failing call has written nothing.  On a well-formed store, when
    a mutation handler ends with an error, the store is the one the call
    started with: the handler has thrown before its first write, so that
    the failed call leaves no partial result behind even before the platform
    discards its writes.  For [createGroupChat] and [addGroupMembers], which
    take their member ids as strings, this holds when each of them names a
    stored user or a document that is no longer stored. *)
Theorem failed_calls_write_nothing :
  forall (auth : option Identity) (s : Db),
    wf s ->
    (forall name memberIds, quiet (Conversations.createGroup auth name memberIds) s) /\
    (forall name memberIds imageUrl,
        forallb (namesUserOrNothing s) memberIds = true ->
        quiet (Conversations.createGroupChat auth name memberIds imageUrl) s) /\
    (forall c, quiet (Conversations.leaveGroup auth c) s) /\
    (forall c, quiet (Conversations.deleteGroup auth c) s) /\
    (forall c name, quiet (Conversations.updateGroupName auth c name) s) /\
    (forall c imageUrl, quiet (Conversations.updateGroupImage auth c imageUrl) s) /\
    (forall c memberIds,
        forallb (namesUserOrNothing s) memberIds = true ->
        quiet (Conversations.addGroupMembers auth c memberIds) s) /\
    (forall c memberId, quiet (Conversations.removeGroupMember auth c memberId) s) /\
    (forall email, quiet (Requests.create auth email) s) /\
    (forall username, quiet (Requests.createByUsername auth username) s) /\
    (forall id, quiet (Requests.deny auth id) s) /\
    (forall id, quiet (Requests.accept auth id) s).
Proof.
  intros auth s Hwf.
  refine (conj _ (conj _ (conj _ (conj _ (conj _ (conj _ (conj _ (conj _
            (conj _ (conj _ (conj _ _))))))))))).
  - intros name memberIds. destruct (callerIs_dec auth s) as [[u Hu]|Hno].
    + eapply quiet_ok. apply (createGroup_run _ _ _ _ _ Hu).
    + unfold Conversations.createGroup. apply quiet_rethrow, quiet_user.
      intros u Hu. destruct (Hno u Hu).
  - intros name memberIds imageUrl Hall. destruct (callerIs_dec auth s) as [[u Hu]|Hno].
    + eapply quiet_ok. apply (createGroupChat_run _ _ _ _ _ _ Hu Hall).
    + unfold Conversations.createGroupChat. apply quiet_user.
      intros u Hu. destruct (Hno u Hu).
  - intros cid. unfold Conversations.leaveGroup.
    apply quiet_rethrow, quiet_user. intros u _. apply quiet_gets.
    destruct (get_conversation s cid) as [c|] eqn:Hget; [|apply quiet_throw].
    destruct (negb (conv_isGroup c)); [apply quiet_throw|].
    apply quiet_unique. intros x Hx.
    destruct x as [row|]; [|apply quiet_throw].
    pose proof (unique_row_In _ _ _ _ Hx row eq_refl) as Hin.
    destruct (creatorIs c (user_id u)).
    + apply quiet_gets. destruct (filter _ _) as [|first rest].
      * eapply quiet_ok. unfold bind.
        rewrite (deleteGroupHandler_spec _ _ _ Hwf Hget). reflexivity.
      * apply quiet_gets. rewrite Hget. eapply quiet_ok.
        unfold bind, patch_conversation. rewrite Hget.
        unfold delete_member. cbn [conversationMembers].
        rewrite (existsb_of_In cm_id _ _ Hin). reflexivity.
    + now apply delete_member_quiet_tail.
  - intros cid. unfold Conversations.deleteGroup.
    apply quiet_rethrow, quiet_user. intros u _. apply quiet_group. intros c Hget _ _.
    eapply quiet_ok. apply (deleteGroupHandler_spec _ _ _ Hwf Hget).
  - intros cid name. unfold Conversations.updateGroupName.
    apply quiet_rethrow, quiet_user. intros u _. apply quiet_group. intros c Hget _ _.
    eapply quiet_ok. unfold bind, patch_conversation. rewrite Hget. reflexivity.
  - intros cid imageUrl. unfold Conversations.updateGroupImage.
    apply quiet_rethrow, quiet_user. intros u _. apply quiet_group. intros c Hget _ _.
    eapply quiet_ok. unfold bind, patch_conversation. rewrite Hget. reflexivity.
  - intros cid memberIds Hall. unfold Conversations.addGroupMembers.
    apply quiet_rethrow, quiet_user. intros u _. apply quiet_group. intros c Hget _ _.
    apply quiet_gets. eapply quiet_ok. unfold bind.
    rewrite (addEach_spec s cid memberIds s 0 (grown_refl s) Hall). reflexivity.
  - intros cid memberId. unfold Conversations.removeGroupMember.
    apply quiet_rethrow, quiet_user. intros u _. apply quiet_group. intros c Hget _ _.
    apply quiet_gets.
    destruct (get_user s memberId) as [m|]; [|apply quiet_throw].
    destruct (creatorIs c (user_id m)); [apply quiet_throw|].
    apply quiet_unique. intros x Hx.
    destruct x as [row|]; [|apply quiet_throw].
    apply delete_member_quiet_tail. exact (unique_row_In _ _ _ _ Hx row eq_refl).
  - intros email. unfold Requests.create.
    destruct auth as [identity|]; [|apply quiet_throw].
    destruct (isEmpty (trim email)); [apply quiet_throw|].
    destruct (Requests.isOwnEmail email identity); [apply quiet_throw|].
    apply quiet_gets.
    destruct (getUserByClerkId s (subject identity)) as [A|]; [|apply quiet_throw].
    apply quiet_unique. intros [B|] _; [apply sendRequest_quiet|apply quiet_throw].
  - intros username. unfold Requests.createByUsername.
    destruct auth as [identity|]; [|apply quiet_throw].
    apply quiet_gets.
    destruct (getUserByClerkId s (subject identity)) as [A|]; [|apply quiet_throw].
    destruct (isEmpty (trim username)); [apply quiet_throw|].
    destruct (negb (usernameRegex_test username)); [apply quiet_throw|].
    cbv zeta. destruct (_ || _); [apply quiet_throw|].
    apply quiet_gets.
    destruct (find _ (users s)) as [B|]; [apply sendRequest_quiet|apply quiet_throw].
  - intros id. unfold Requests.deny.
    apply quiet_user. intros u _. apply quiet_gets.
    destruct (get_request s id) as [r|] eqn:Hget; [|apply quiet_throw].
    destruct (negb _); [apply quiet_throw|].
    eapply quiet_ok. unfold delete_request.
    pose proof (get_request_In _ _ _ Hget) as Hin.
    pose proof (get_request_id _ _ _ Hget) as Hid.
    replace (existsb (fun x => req_id x =? id) (requests s)) with true
      by (symmetry; rewrite <- Hid; apply (existsb_of_In req_id _ _ Hin)).
    reflexivity.
  - intros id. unfold Requests.accept.
    apply quiet_user. intros u _. apply quiet_gets.
    destruct (get_request s id) as [r|] eqn:Hget; [|apply quiet_throw].
    destruct (negb _); [apply quiet_throw|].
    eapply quiet_ok.
    unfold bind, ret, insert_conversation, insert_friendship, insert_member,
      delete_request. cbn [requests].
    rewrite (existsb_of_In req_id _ _ (get_request_In _ _ _ Hget)). reflexivity.
Qed.

Lemma failed_calls_write_nothing_witness :
  quiet (Conversations.leaveGroup (Some carol_id) 10) group_db /\
  quiet (Conversations.addGroupMembers (Some bob_id) 10 [IdOf 3; IdOf 5]) group_db /\
  quiet (Requests.accept (Some alice_id) 30) pending_db.
Proof.
  refine (conj _ (conj _ _)).
  - assert (Hwf : wf group_db) by solve_wf.
    apply (failed_calls_write_nothing (Some carol_id) group_db Hwf).
  - assert (Hwf : wf group_db) by solve_wf.
    apply (failed_calls_write_nothing (Some bob_id) group_db Hwf). reflexivity.
  - assert (Hwf : wf pending_db) by solve_wf.
    apply (failed_calls_write_nothing (Some alice_id) pending_db Hwf).
Defined.

(** ** Adding members twice *)

Lemma addGroupMembers_run auth s cid memberIds :
  callerIsCreator auth s cid = true ->
  forallb (namesUserOrNothing s) memberIds = true ->
  let rows := memberRows (nextId s) cid (filter (isNewMember s cid) (idsOf memberIds)) in
  Conversations.addGroupMembers auth cid memberIds s
  = (add_members s rows, Ok (mkAdded true (List.length rows))).
Proof.
  intros Hc Hall rows.
  destruct (callerIsCreator_conversation _ _ _ Hc) as (u & c & Hu & Hget & _ & _).
  unfold Conversations.addGroupMembers, try_catch, bind.
  rewrite (currentUserOrThrow_ok _ _ _ _ Hu), (groupOfCreator_spec _ _ _ _ _ Hu), Hc, Hget.
  unfold gets at 1.
  now rewrite (addEach_spec s cid memberIds s 0 (grown_refl s) Hall).
Qed.

Lemma grown_add_members s0 cid :
  forall ids s,
    grown s0 s -> grown s0 (add_members s (memberRows (nextId s) cid ids)).
Proof.
  induction ids as [|id rest IH]; intros s Hg.
  - unfold add_members. cbn [memberRows List.length].
    now rewrite app_nil_r, Nat.add_0_r, db_eta.
  - cbn [memberRows]. rewrite <- add_members_cons.
    pose proof (grown_insert_member s0 s cid id Hg) as H1.
    apply IH in H1. cbn [nextId] in H1.
    unfold add_members at 2. cbn [List.length]. now rewrite Nat.add_1_r.
Qed.

(** Texts that name a user or nothing keep doing so later in the call. *)
Lemma namesUserOrNothing_grown s0 s memberIds :
  grown s0 s ->
  forallb (namesUserOrNothing s0) memberIds = true ->
  forallb (namesUserOrNothing s) memberIds = true.
Proof.
  intros (Hu & Hn & _ & Hlow) Hall. rewrite forallb_forall in *.
  intros memberId Hin. specialize (Hall memberId Hin).
  destruct memberId as [id|text]; [|discriminate].
  cbn [namesUserOrNothing] in *. unfold isUser, get_user in *. rewrite Hu.
  destruct (find (fun u => user_id u =? id) (users s0)); [reflexivity|].
  cbn [orb] in *. apply andb_true_iff in Hall. destruct Hall as [Hlt Hnone].
  apply Nat.ltb_lt in Hlt. rewrite (Hlow id Hlt), Hnone, andb_true_r.
  apply Nat.ltb_lt. lia.
Qed.

Lemma memberRows_In next cid ids id :
  In id ids -> exists k, In (mkMember k id cid) (memberRows next cid ids).
Proof.
  revert next. induction ids as [|x rest IH]; intros next Hin; [destruct Hin|].
  destruct Hin as [->|Hin].
  - exists next. now left.
  - destruct (IH (S next) Hin) as [k Hk]. exists k. now right.
Qed.

Lemma filter_none {A} (p : A -> bool) (l : list A) :
  (forall x, In x l -> p x = false) -> filter p l = [].
Proof.
  induction l as [|x l IH]; intros H; simpl; [reflexivity|].
  rewrite (H x (or_introl eq_refl)). apply IH. intros y Hy. apply H. now right.
Qed.

(** X20: adding the same members again adds nothing.  After the creator of
    a group has called [addGroupMembers] with member ids that each name a
    stored user or a document that is no longer stored, a second call with
    the same list succeeds with [addedCount] 0 and leaves the store as the
    first call committed it. *)
Theorem addGroupMembers_twice_adds_nothing :
  forall (auth : option Identity) (s : Db) (conversationId : Id)
         (memberIds : list IdString),
    callerIsCreator auth s conversationId = true ->
    forallb (namesUserOrNothing s) memberIds = true ->
    let s1 := fst (mutation (Conversations.addGroupMembers auth conversationId memberIds) s) in
    Conversations.addGroupMembers auth conversationId memberIds s1
    = (s1, Ok (mkAdded true 0)).
Proof.
  intros auth s cid memberIds Hc Hall s1.
  set (rows := memberRows (nextId s) cid (filter (isNewMember s cid) (idsOf memberIds))).
  assert (Hs1 : s1 = add_members s rows).
  { unfold s1, mutation. now rewrite (addGroupMembers_run _ _ _ _ Hc Hall). }
  assert (Hc1 : callerIsCreator auth s1 cid = true) by (rewrite Hs1; exact Hc).
  assert (Hall1 : forallb (namesUserOrNothing s1) memberIds = true).
  { rewrite Hs1. apply (namesUserOrNothing_grown s); [|exact Hall].
    apply grown_add_members, grown_refl. }
  rewrite (addGroupMembers_run _ _ _ _ Hc1 Hall1).
  assert (Hnone : filter (isNewMember s1 cid) (idsOf memberIds) = []).
  { apply filter_none. intros id Hid. rewrite Hs1. unfold isNewMember.
    change (get_user (add_members s rows) id) with (get_user s id).
    destruct (get_user s id) as [m|] eqn:Hm; [|reflexivity].
    unfold members_by_memberId_conversationId, add_members. cbn [conversationMembers].
    rewrite filter_app.
    fold (members_by_memberId_conversationId s id cid).
    destruct (members_by_memberId_conversationId s id cid) as [|x l] eqn:Hold;
      [|reflexivity].
    assert (Hnew : In id (filter (isNewMember s cid) (idsOf memberIds))).
    { apply filter_In. split; [exact Hid|]. unfold isNewMember. now rewrite Hm, Hold. }
    destruct (memberRows_In (nextId s) cid _ id Hnew) as [k Hk].
    assert (Hin : In (mkMember k id cid)
                     (filter (fun m0 => (cm_memberId m0 =? id) && (cm_conversationId m0 =? cid))
                             rows)).
    { apply filter_In. split; [exact Hk|]. cbn. now rewrite !Nat.eqb_refl. }
    cbn [app]. now destruct (filter _ rows). }
  rewrite Hnone. cbn [memberRows List.length]. unfold add_members.
  cbn [List.length]. now rewrite app_nil_r, Nat.add_0_r, db_eta.
Qed.

Lemma addGroupMembers_twice_adds_nothing_witness :
  let s1 :=
    fst (mutation (Conversations.addGroupMembers (Some alice_id) 10 [IdOf 2; IdOf 3; IdOf 5])
           group_db) in
  conversationMembers s1 = [mkMember 11 1 10; mkMember 12 2 10; mkMember 20 3 10] /\
  Conversations.addGroupMembers (Some alice_id) 10 [IdOf 2; IdOf 3; IdOf 5] s1
  = (s1, Ok (mkAdded true 0)).
Proof.
  split; [reflexivity|].
  exact (addGroupMembers_twice_adds_nothing (Some alice_id) group_db 10
           [IdOf 2; IdOf 3; IdOf 5] eq_refl eq_refl).
Defined.

(** ** Requests are never sent to oneself by user name *)

Open Scope N_scope.

Lemma lower_cp_cases c :
  (65 <= c <= 90 /\ lower_cp c = [c + 32])
  \/ (c = 0x212A /\ lower_cp c = [107])
  \/ (c = 0x130 /\ lower_cp c = [105; 0x307])
  \/ ((c < 65 \/ 90 < c) /\ c <> 0x212A /\ c <> 0x130 /\ lower_cp c = [c]).
Proof.
  unfold lower_cp.
  destruct (65 <=? c) eqn:H1; [destruct (c <=? 90) eqn:H2|]; cbn [andb];
    rewrite ?N.leb_le, ?N.leb_gt in *.
  - left. split; [lia|reflexivity].
  - destruct (c =? 0x212A) eqn:H3; [apply N.eqb_eq in H3; tauto|].
    destruct (c =? 0x130) eqn:H4; [apply N.eqb_eq in H4; tauto|].
    apply N.eqb_neq in H3, H4. right. right. right. repeat split; auto.
  - destruct (c =? 0x212A) eqn:H3; [apply N.eqb_eq in H3; tauto|].
    destruct (c =? 0x130) eqn:H4; [apply N.eqb_eq in H4; tauto|].
    apply N.eqb_neq in H3, H4. right. right. right. repeat split; auto.
Qed.

Lemma isLowerNameChar_bounds c : isLowerNameChar c = true -> 45 <= c <= 122.
Proof.
  unfold isLowerNameChar.
  rewrite !orb_true_iff, !andb_true_iff, !N.leb_le, !N.eqb_eq. lia.
Qed.

Lemma isPlain_bounds c : isPlain c = true -> 45 <= c <= 122 \/ c = 0x212A.
Proof.
  unfold isPlain, isUsernameChar.
  rewrite !orb_true_iff, !andb_true_iff, !N.leb_le, !N.eqb_eq. lia.
Qed.

Lemma isLowerNameChar_plain c : isLowerNameChar c = true -> isPlain c = true.
Proof.
  unfold isLowerNameChar, isPlain, isUsernameChar.
  rewrite !orb_true_iff, !andb_true_iff, !N.leb_le, !N.eqb_eq. lia.
Qed.

Lemma upper_plain c : 65 <= c <= 90 -> isPlain c = true.
Proof.
  unfold isPlain, isUsernameChar.
  rewrite !orb_true_iff, !andb_true_iff, !N.leb_le, !N.eqb_eq. lia.
Qed.

Lemma lowered_input n :
  forallb isUsernameChar n = true -> Forall (fun c => isLowerNameChar c = true) (toLowerCase n).
Proof.
  unfold toLowerCase. induction n as [|c n IH]; cbn [forallb flat_map]; [constructor|].
  rewrite andb_true_iff. intros [Hc Hn]. apply Forall_app. split; [|now apply IH].
  unfold isUsernameChar in Hc.
  rewrite !orb_true_iff, !andb_true_iff, !N.leb_le, !N.eqb_eq in Hc.
  destruct (lower_cp_cases c) as [[Hb ->]|[[-> ->]|[[-> ->]|(Hb & _ & _ & ->)]]];
    try lia; repeat constructor; unfold isLowerNameChar;
    rewrite !orb_true_iff, !andb_true_iff, !N.leb_le, !N.eqb_eq; lia.
Qed.

Lemma toLowerCase_nil s : toLowerCase s = [] -> s = [].
Proof.
  destruct s as [|c s]; [reflexivity|]. unfold toLowerCase. cbn [flat_map].
  destruct (lower_cp_cases c) as [[_ ->]|[[_ ->]|[[_ ->]|(_ & _ & _ & ->)]]]; discriminate.
Qed.

(** A name whose lower case is made of code points above the letters is that
    lower case. *)
Lemma toLowerCase_high w :
  forall s, Forall (fun c => 0x307 < c /\ c <> 0x212A) w -> toLowerCase s = w -> s = w.
Proof.
  induction w as [|h w IH]; intros s Hw Hs; [now apply toLowerCase_nil|].
  inversion Hw as [|? ? [Hh1 Hh2] Hw']; subst.
  destruct s as [|c s]; [discriminate|].
  unfold toLowerCase in Hs. cbn [flat_map] in Hs.
  destruct (lower_cp_cases c) as [[Hb Hc]|[[Hb Hc]|[[Hb Hc]|(Hb & _ & _ & Hc)]]];
    rewrite Hc in Hs; cbn [app] in Hs; inversion Hs; subst; try lia.
  f_equal. now apply IH.
Qed.

Lemma suffix_high suffix :
  In suffix [shield_vs; shield; crown] ->
  Forall (fun c => 0x307 < c /\ c <> 0x212A) suffix /\ suffix <> [].
Proof.
  intros [<-|[<-|[<-|[]]]]; (split; [repeat constructor; cbv; try reflexivity; discriminate
                                    |discriminate]).
Qed.

Lemma split_decorated suffix :
  In suffix [shield_vs; shield; crown] ->
  forall name n,
    Forall (fun c => isLowerNameChar c = true) n ->
    toLowerCase name = n ++ suffix ->
    exists base, name = base ++ suffix /\ toLowerCase base = n /\
                 Forall (fun c => isPlain c = true) base.
Proof.
  intros Hs. destruct (suffix_high _ Hs) as [Hhigh Hne].
  induction name as [|c name IH]; intros n Hn Hlow.
  - exfalso. destruct n; [apply Hne|]; cbn in Hlow; congruence.
  - destruct n as [|x n].
    + exists []. cbn [app] in *. split; [|split; [reflexivity|constructor]].
      now apply toLowerCase_high.
    + inversion Hn as [|? ? Hx Hn']; subst.
      apply isLowerNameChar_bounds in Hx as Hxb.
      unfold toLowerCase in Hlow. cbn [flat_map app] in Hlow.
      destruct (lower_cp_cases c) as [[Hb Hc]|[[Hb Hc]|[[Hb Hc]|(Hb & _ & _ & Hc)]]];
        rewrite Hc in Hlow; cbn [app] in Hlow; inversion Hlow as [[Hhead Htail]].
      * destruct (IH n Hn' Htail) as (base & -> & Hbase & Hplain).
        exists (c :: base). split; [cbn; congruence|]. split.
        -- unfold toLowerCase in *. cbn [flat_map]. rewrite Hc, Hbase. cbn [app]. congruence.
        -- constructor; [now apply upper_plain|exact Hplain].
      * destruct (IH n Hn' Htail) as (base & -> & Hbase & Hplain).
        exists (c :: base). split; [cbn; congruence|]. split.
        -- unfold toLowerCase in *. cbn [flat_map]. rewrite Hc, Hbase. cbn [app]. congruence.
        -- constructor; [|exact Hplain]. rewrite Hb. reflexivity.
      * exfalso. destruct n as [|y n].
        -- cbn [app] in Htail. rewrite <- Htail in Hhigh.
           inversion Hhigh as [|? ? [Hy _] _]. lia.
        -- cbn [app] in Htail. inversion Htail; subst.
           inversion Hn' as [|? ? Hy _]. apply isLowerNameChar_bounds in Hy. lia.
      * destruct (IH n Hn' Htail) as (base & -> & Hbase & Hplain).
        exists (c :: base). split; [cbn; congruence|]. split.
        -- unfold toLowerCase in *. cbn [flat_map]. rewrite Hc, Hbase. cbn [app]. congruence.
        -- constructor; [|exact Hplain]. rewrite Hhead. now apply isLowerNameChar_plain.
Qed.

Lemma plain_facts c :
  isPlain c = true ->
  (c =? SHIELD) = false /\ (c =? CROWN) = false /\ isEmojiRange c = false /\
  isWhiteSpace c = false.
Proof.
  intros H. apply isPlain_bounds in H. repeat split.
  - apply N.eqb_neq. unfold SHIELD. lia.
  - apply N.eqb_neq. unfold CROWN. lia.
  - apply not_true_is_false. unfold isEmojiRange.
    rewrite !orb_true_iff, !andb_true_iff, !N.leb_le. lia.
  - apply not_true_is_false. unfold isWhiteSpace.
    rewrite !orb_true_iff, !andb_true_iff, !N.leb_le, !N.eqb_eq. lia.
Qed.

Lemma filter_all_true {A} (p : A -> bool) (l : list A) :
  Forall (fun x => p x = true) l -> filter p l = l.
Proof.
  induction 1 as [|x l Hx _ IH]; simpl; [reflexivity|]. now rewrite Hx, IH.
Qed.

Lemma remove_shield_vs_plain base w :
  Forall (fun c => isPlain c = true) base ->
  remove_shield_vs (base ++ w) = base ++ remove_shield_vs w.
Proof.
  induction 1 as [|a base Ha _ IH]; [reflexivity|].
  destruct (plain_facts a Ha) as (Hs & _).
  cbn [app]. destruct (base ++ w) as [|b rest] eqn:Hrest.
  - destruct base; [|discriminate]. cbn [app] in *. subst w. reflexivity.
  - rewrite remove_shield_vs_pair, Hs. cbn [andb]. now rewrite IH.
Qed.

Lemma trim_plain base :
  Forall (fun c => isPlain c = true) base -> trim base = base.
Proof.
  intros H.
  assert (Hstart : forall l, Forall (fun c => isPlain c = true) l -> trimStart l = l).
  { intros l Hl. destruct Hl as [|a l Ha _]; [reflexivity|].
    destruct (plain_facts a Ha) as (_ & _ & _ & Hw). cbn. now rewrite Hw. }
  unfold trim, trimEnd. rewrite (Hstart base H).
  rewrite (Hstart (rev base)) by now apply Forall_rev.
  apply rev_involutive.
Qed.

Lemma clean_decorated base suffix :
  Forall (fun c => isPlain c = true) base ->
  In suffix [shield_vs; shield; crown] ->
  getCleanUsername (base ++ suffix) = toLowerCase base.
Proof.
  intros Hplain Hs. unfold getCleanUsername.
  rewrite (remove_shield_vs_plain _ _ Hplain). unfold remove_cp.
  rewrite !filter_app.
  rewrite !(filter_all_true _ base).
  - replace (filter _ (filter _ (filter _ (remove_shield_vs suffix)))) with (@nil N).
    + now rewrite app_nil_r, (trim_plain _ Hplain).
    + destruct Hs as [<-|[<-|[<-|[]]]]; reflexivity.
  - eapply Forall_impl; [|exact Hplain]. intros c Hc.
    destruct (plain_facts c Hc) as (_ & _ & He & _). now rewrite He.
  - eapply Forall_impl; [|exact Hplain]. intros c Hc.
    destruct (plain_facts c Hc) as (_ & Hcr & _). now rewrite Hcr.
  - eapply Forall_impl; [|exact Hplain]. intros c Hc.
    destruct (plain_facts c Hc) as (Hsh & _). now rewrite Hsh.
Qed.

(** Whoever is matched by a valid input has that input as own name. *)
Lemma matched_is_own_name username u :
  usernameRegex_test username = true ->
  matchesUsername (toLowerCase username) u = true ->
  isOwnName u username = true.
Proof.
  intros Hre Hm. unfold isOwnName.
  unfold usernameRegex_test in Hre. apply andb_true_iff in Hre. destruct Hre as [_ Hre].
  destruct (matchesUsername_cases _ _ Hm) as [H|[(suffix & Hs & H)|H]].
  - now rewrite H, ustring_eqb_refl.
  - destruct (split_decorated suffix Hs _ _ (lowered_input _ Hre) H)
      as (base & Hname & Hbase & Hplain).
    rewrite Hname at 2. rewrite (clean_decorated _ _ Hplain Hs), Hbase, ustring_eqb_refl.
    apply orb_true_r.
  - rewrite H, ustring_eqb_refl. apply orb_true_r.
Qed.

Close Scope N_scope.

Lemma sendRequest_ok A B s s' id :
  Requests.sendRequest A B s = (s', Ok id) ->
  s' = with_request s (user_id A) (user_id B) /\ id = nextId s.
Proof.
  unfold Requests.sendRequest, bind, gets.
  destruct (requests_by_senderId_receiverId s (user_id A) (user_id B)) as [|? [|? ?]];
    cbn [unique ret throw]; try discriminate.
  destruct (requests_by_senderId_receiverId s (user_id B) (user_id A)) as [|? [|? ?]];
    cbn [unique ret throw]; try discriminate.
  destruct (friendships_by_userIds s (user_id A) (user_id B)) as [|? [|? ?]];
    cbn [unique ret throw]; try discriminate;
    destruct (friendships_by_userIds s (user_id B) (user_id A)) as [|? [|? ?]];
    cbn [unique ret throw]; try discriminate.
  unfold insert_request, with_request. intros H. inversion H. auto.
Qed.

(** X21: [createByUsername] never sends a request to the caller.  When the
    call succeeds on a well-formed store, the store has exactly one more
    request, pending, whose sender is the caller and whose receiver is the
    first stored user matching the name, and that user is not the caller:
    every name that would match the caller -- also through the shield or
    crown decoration -- is caught by the self check. *)
Theorem createByUsername_never_to_self :
  forall (auth : option Identity) (s s' : Db) (username : ustring) (id : Id),
    wf s ->
    Requests.createByUsername auth username s = (s', Ok id) ->
    exists A B,
      callerIs auth s A /\
      find (matchesUsername (toLowerCase username)) (users s) = Some B /\
      user_id A <> user_id B /\
      s' = with_request s (user_id A) (user_id B) /\
      id = nextId s.
Proof.
  intros auth s s' username id Hwf. unfold Requests.createByUsername.
  destruct auth as [identity|]; [|discriminate].
  unfold bind at 1. unfold gets at 1.
  destruct (getUserByClerkId s (subject identity)) as [A|] eqn:HA; [|discriminate].
  destruct (isEmpty (trim username)); [discriminate|].
  destruct (usernameRegex_test username) eqn:Hre; [|discriminate]. cbn [negb].
  cbv zeta. fold (isOwnName A username).
  destruct (isOwnName A username) eqn:Hown; [discriminate|].
  unfold bind at 1. unfold gets at 1.
  destruct (find (matchesUsername (toLowerCase username)) (users s)) as [B|] eqn:HB;
    [|discriminate].
  intros Hsend. apply sendRequest_ok in Hsend. destruct Hsend as [-> ->].
  assert (Hcaller : callerIs (Some identity) s A) by (exists identity; auto).
  exists A, B. repeat split; auto.
  intros Hsame. apply find_some in HB. destruct HB as [HinB Hmatch].
  assert (A = B).
  { destruct (wf_users s Hwf) as [Hnd _].
    eapply NoDup_key_inj; eauto. now apply callerIs_In in Hcaller. }
  subst B. rewrite (matched_is_own_name _ _ Hre Hmatch) in Hown. discriminate.
Qed.

Lemma createByUsername_never_to_self_witness :
  exists A B,
    callerIs (Some bob_id) names_db A /\
    find (matchesUsername (toLowerCase (str "alice"))) (users names_db) = Some B /\
    user_id A <> user_id B /\
    mkDb [bob; alice2; alice_crown] [] [] [] [mkRequest 6 2 4 "pending"] [] 7
    = with_request names_db (user_id A) (user_id B) /\
    6 = nextId names_db.
Proof.
  assert (Hwf : wf names_db) by solve_wf.
  exact (createByUsername_never_to_self (Some bob_id) names_db _ (str "alice") 6 Hwf
           eq_refl).
Defined.

(** The self check at work: a user whose stored name is the input followed
    by a crown cannot find themself. *)
Example createByUsername_own_decorated_name :
  Requests.createByUsername (Some (mkIdentity "clerk_queen" None)) (str "Alice") names_db
  = (names_db, Throw (ConvexError "Can't send a request to yourself")).
Proof. reflexivity. Qed.

(** ** Requests by e-mail and the caller's own address *)

(** X22: a successful [create] adds one pending request from the caller to
    the one stored user with the given e-mail address (the store is
    otherwise unchanged and the new id is returned).  The self check
    compares the input with the e-mail of the caller's token only: when
    the token carries the address stored for the caller, the receiver is
    never the caller. *)
Theorem create_targets_owner_of_email :
  forall (auth : option Identity) (s s' : Db) (email : ustring) (id : Id),
    wf s ->
    Requests.create auth email s = (s', Ok id) ->
    exists identity A B,
      auth = Some identity /\
      getUserByClerkId s (subject identity) = Some A /\
      users_by_email s email = [B] /\
      s' = with_request s (user_id A) (user_id B) /\
      id = nextId s /\
      (identity_email identity = Some (user_email A) -> user_id A <> user_id B).
Proof.
  intros auth s s' email id Hwf. unfold Requests.create.
  destruct auth as [identity|]; [|discriminate].
  destruct (isEmpty (trim email)); [discriminate|].
  destruct (Requests.isOwnEmail email identity) eqn:Hown; [discriminate|].
  unfold bind at 1. unfold gets at 1.
  destruct (getUserByClerkId s (subject identity)) as [A|] eqn:HA; [|discriminate].
  unfold bind at 1. unfold bind at 1. unfold gets at 1.
  destruct (users_by_email s email) as [|B [|? ?]] eqn:HB;
    cbn [unique ret throw]; try discriminate.
  intros Hsend. apply sendRequest_ok in Hsend. destruct Hsend as [-> ->].
  exists identity, A, B. repeat split; auto.
  intros Htoken Hsame.
  assert (Hcaller : callerIs (Some identity) s A) by (exists identity; auto).
  assert (HinB : In B (users_by_email s email)) by (rewrite HB; now left).
  apply filter_In in HinB. destruct HinB as [HinB Hmail].
  assert (A = B).
  { destruct (wf_users s Hwf) as [Hnd _].
    eapply NoDup_key_inj; eauto. now apply callerIs_In in Hcaller. }
  subst B. apply ustring_eqb_eq in Hmail. unfold Requests.isOwnEmail in Hown.
  rewrite Htoken, <- Hmail, ustring_eqb_refl in Hown. discriminate.
Qed.

Lemma create_targets_owner_of_email_witness :
  exists identity A B,
    Some alice_id = Some identity /\
    getUserByClerkId users_db (subject identity) = Some A /\
    users_by_email users_db (str "bob@example.com") = [B] /\
    mkDb [alice; bob; carol] [] [] [] [mkRequest 30 1 2 "pending"] [] 31
    = with_request users_db (user_id A) (user_id B) /\
    30 = nextId users_db /\
    (identity_email identity = Some (user_email A) -> user_id A <> user_id B).
Proof.
  assert (Hwf : wf users_db) by solve_wf.
  exact (create_targets_owner_of_email (Some alice_id) users_db _
           (str "bob@example.com") 30 Hwf eq_refl).
Defined.

(** X23: [create] can send a request to the caller.  When the caller's
    token carries no e-mail address, or another one than the address
    stored for the caller, asking for the caller's stored address passes
    the self check; if that address belongs to the caller's row alone and
    the caller has neither a request nor a friendship with themself, the
    call succeeds and stores a pending request whose sender and receiver
    are both the caller. *)
Theorem create_with_stale_token_targets_caller :
  forall (identity : Identity) (s : Db) (A : User),
    getUserByClerkId s (subject identity) = Some A ->
    isEmpty (trim (user_email A)) = false ->
    identity_email identity <> Some (user_email A) ->
    users_by_email s (user_email A) = [A] ->
    requests_between s (user_id A) (user_id A) = [] ->
    friendships_between s (user_id A) (user_id A) = [] ->
    Requests.create (Some identity) (user_email A) s
    = (with_request s (user_id A) (user_id A), Ok (nextId s)).
Proof.
  intros identity s A HA Hmail Htoken Hrow Hreq Hfr.
  rewrite (create_resolved (Some identity) s A A (user_email A)); auto.
  - now apply sendRequest_run_ok.
  - exists identity; auto.
  - intros i Hi. inversion Hi; subst i. unfold Requests.isOwnEmail.
    destruct (identity_email identity) as [own|] eqn:Hown; auto.
    apply ustring_eqb_neq. congruence.
Qed.

Lemma create_with_stale_token_targets_caller_witness :
  Requests.create (Some (mkIdentity "clerk_alice" None)) (user_email alice) users_db
  = (with_request users_db (user_id alice) (user_id alice), Ok (nextId users_db)).
Proof.
  apply (create_with_stale_token_targets_caller (mkIdentity "clerk_alice" None)
           users_db alice); try reflexivity.
  discriminate.
Defined.

(** ** Renaming a group, or changing its image, keeps its creator *)

Lemma find_map_same_key (g : Conversation -> Conversation) (id : Id) (l : list Conversation) :
  (forall c, conv_id (g c) = conv_id c) ->
  find (fun c => conv_id c =? id) (map g l)
  = option_map g (find (fun c => conv_id c =? id) l).
Proof.
  intros Hg. induction l as [|c l IH]; [reflexivity|].
  cbn [map find]. rewrite Hg. destruct (conv_id c =? id); [reflexivity|exact IH].
Qed.

Lemma patched_keeps_creator who s cid cid' (f : Conversation -> Conversation) :
  (forall c, conv_id (f c) = conv_id c) ->
  (forall c, conv_isGroup (f c) = conv_isGroup c) ->
  (forall c, conv_creatorId (f c) = conv_creatorId c) ->
  Conversations.isGroupCreator (mkQueryCtx who (patched s cid f)) cid'
  = Conversations.isGroupCreator (mkQueryCtx who s) cid'.
Proof.
  intros Hid Hgroup Hcreator.
  unfold Conversations.isGroupCreator, patched, with_conversations, get_conversation,
    getUserByClerkId.
  cbn [auth db users conversations].
  destruct who as [identity|]; [|reflexivity].
  destruct (find _ (users s)) as [u|]; [|reflexivity].
  rewrite find_map_same_key by (intros c; destruct (conv_id c =? cid); auto).
  destruct (find _ (conversations s)) as [c|]; [|reflexivity].
  cbn [option_map]. unfold creatorIs.
  destruct (conv_id c =? cid); [|reflexivity].
  now rewrite Hgroup, Hcreator.
Qed.

Lemma update_states (f : Conversation -> Conversation) denied failed auth cid s :
  let run :=
    try_catch
      (currentUser <- currentUserOrThrow auth (Error "Unauthorized") ;;
       groupOfCreator cid currentUser denied ;;;
       patch_conversation cid f ;;;
       ret (mkSuccess true))
      (fun _ => throw (ConvexError failed)) s in
  fst run = s \/ fst run = patched s cid f.
Proof.
  cbv zeta. destruct (callerIs_dec auth s) as [[u Hu]|Hno].
  - unfold try_catch, bind.
    rewrite (currentUserOrThrow_ok _ _ _ _ Hu), (groupOfCreator_spec _ _ _ _ _ Hu).
    destruct (callerIsCreator auth s cid) eqn:Hc.
    + apply callerIsCreator_conversation in Hc.
      destruct Hc as (u' & c & _ & Hget & _ & _). rewrite Hget.
      unfold patch_conversation. rewrite Hget. now right.
    + now left.
  - destruct (currentUserOrThrow_fail _ _ (Error "Unauthorized") Hno) as [e He].
    unfold try_catch, bind. rewrite He. now left.
Qed.

(** X24: renaming a group or changing its image keeps its creator.  After
    any call of [updateGroupName] or [updateGroupImage], successful or not,
    [isGroupCreator] answers for every caller and every conversation what
    it answered before, and the membership rows are the ones of before. *)
Theorem group_updates_keep_the_creator :
  forall (auth : option Identity) (s s' : Db) (conversationId : Id) (name imageUrl : string)
         (r : Result Success),
    Conversations.updateGroupName auth conversationId name s = (s', r) \/
    Conversations.updateGroupImage auth conversationId imageUrl s = (s', r) ->
    (forall (auth' : option Identity) (cid' : Id),
        Conversations.isGroupCreator (mkQueryCtx auth' s') cid'
        = Conversations.isGroupCreator (mkQueryCtx auth' s) cid') /\
    conversationMembers s' = conversationMembers s.
Proof.
  intros auth s s' cid name imageUrl r Hrun.
  assert (Hs : s' = s \/
               (exists f, s' = patched s cid f /\
                          (forall c, conv_id (f c) = conv_id c) /\
                          (forall c, conv_isGroup (f c) = conv_isGroup c) /\
                          (forall c, conv_creatorId (f c) = conv_creatorId c))).
  { destruct Hrun as [Hrun|Hrun].
    - pose proof (update_states (set_name name)
                    "Only the group creator can update the group name"
                    "Failed to update group name" auth cid s) as H.
      cbv zeta in H. fold (Conversations.updateGroupName auth cid name) in H.
      rewrite Hrun in H. cbn [fst] in H. destruct H as [H|H]; [now left|right].
      exists (set_name name). repeat split; auto.
    - pose proof (update_states (set_imageUrl imageUrl)
                    "Only the group creator can update the group image"
                    "Failed to update group image" auth cid s) as H.
      cbv zeta in H. fold (Conversations.updateGroupImage auth cid imageUrl) in H.
      rewrite Hrun in H. cbn [fst] in H. destruct H as [H|H]; [now left|right].
      exists (set_imageUrl imageUrl). repeat split; auto. }
  destruct Hs as [->|(f & -> & Hid & Hgroup & Hcreator)].
  - split; auto.
  - split; [|reflexivity].
    intros auth' cid'. now apply patched_keeps_creator.
Qed.

Lemma group_updates_keep_the_creator_witness :
  (forall (auth' : option Identity) (cid' : Id),
      Conversations.isGroupCreator
        (mkQueryCtx auth' (patched group_db 10 (set_name "renamed"))) cid'
      = Conversations.isGroupCreator (mkQueryCtx auth' group_db) cid') /\
  conversationMembers (patched group_db 10 (set_name "renamed"))
  = conversationMembers group_db.
Proof.
  apply (group_updates_keep_the_creator (Some alice_id) group_db _ 10 "renamed" ""
           (Ok (mkSuccess true))).
  left. reflexivity.
Defined.

(** ** Member ids that cannot become members *)







(** The store in which [addGroupMembers] fails on a text that is no id
    already holds the row of the member listed before it. *)
Example addGroupMembers_fails_after_writing :
  Conversations.addGroupMembers (Some alice_id) 10 [IdOf 3; NoId "carol"] group_db
  = (add_members group_db [mkMember 20 3 10],
     Throw (ConvexError "Failed to add members to group")).
Proof. reflexivity. Qed.
